(** * Note-taking service: the note mutation core

    A shallow embedding of [src/services/noteService.js] together with the
    collaborators it calls: the Sequelize models ([models/Note.js],
    [NoteVersion.js], [NoteShare.js], [NoteAttachment.js], [User.js]),
    transactions, and the cache middleware's [invalidateCache]
    ([middleware/cache.js]).

    The relational store is a record of tables; each table is the list of its
    rows in insertion order plus its AUTO_INCREMENT counter.  Service methods
    are computations in a small state-and-exception monad over a [World]
    holding the store, the transaction handle, the Redis client, a clock and
    a trace of the observable effects.  A JavaScript [throw] keeps the state
    reached so far, so the monad returns the world on both outcomes.

    Requests are executed one at a time.  A write is refused where the
    model or the table refuses it: the [notEmpty] validator of a note's
    title, the widths of the VARCHAR and TEXT columns (MySQL in strict mode),
    the foreign key of a note on its owner.  What is left out: the database
    is reachable, identifiers and version numbers stay far from the bounds
    of their INTEGER columns, and an AUTO_INCREMENT counter is the next id
    (values burnt by a refused INSERT are not tracked).  An [order] given
    inside an include without [separate: true] is not applied by the ORM, so
    an included association comes in stored order.  The [createdAt] column
    is kept, [updatedAt] is not.  Errors are message strings: those the
    service throws, and those of Sequelize and MySQL for a refused write.
    Strings are sequences of characters up to U+00FF.

    The Redis client of a [World] answers every command, with a result or
    with an error.  The client of [config/redis.js] has no timeout, so when
    the server cannot be reached its promises stay pending instead; what
    [invalidateCache] does then is followed on its own, over promises that
    may never settle ([invalidateCache_awaited]).  What the repository does
    not fix (the collation of the users table, the isEmail test of the
    validator package, the full-text matching of MySQL) is an argument of
    the definition that depends on it. *)

From Stdlib Require Import ZArith List String Bool Lia.
From Stdlib Require Import Sorting.Sorted Sorting.Permutation DecimalString.
From Stdlib Require Import Ascii DecimalZ DecimalPos.
Import ListNotations.
Open Scope Z_scope.

Set Implicit Arguments.

(** ** Data model *)

(* models/Note.js *)
Module Note.
Record t := make {
  id : Z;
  userId : Z;
  title : string;
  content : string;
  version : Z;
  deletedAt : option Z;
  createdAt : Z
}.
End Note.

(* models/NoteVersion.js *)
Module NoteVersion.
Record t := make {
  id : Z;
  noteId : Z;
  title : string;
  content : string;
  version : Z;
  changedBy : Z;
  createdAt : Z
}.
End NoteVersion.

(* models/NoteShare.js: permission is ENUM("read", "edit") *)
Module NoteShare.
Inductive permission_t := read | edit.

Definition permission_eqb (p q : permission_t) : bool :=
  match p, q with
  | read, read | edit, edit => true
  | _, _ => false
  end.

Record t := make {
  id : Z;
  noteId : Z;
  sharedWithUserId : Z;
  permission : permission_t
}.
End NoteShare.

(* models/NoteAttachment.js *)
Module NoteAttachment.
Record t := make {
  id : Z;
  noteId : Z;
  filename : string;
  originalFilename : string;
  mimeType : string;
  fileSize : Z;
  filePath : string
}.
End NoteAttachment.

(* models/User.js; the credential hash plays no part in the note core *)
Module User.
Record t := make {
  id : Z;
  username : string;
  email : string
}.
End User.

(* The object multer hands to addAttachment. *)
Module File.
Record t := make {
  filename : string;
  originalname : string;
  mimetype : string;
  size : Z;
  path : string
}.
End File.

(** ** The relational store *)

Record Table (A : Type) := mkTable {
  rows : list A;
  auto_increment : Z
}.

Definition empty_table (A : Type) : Table A := mkTable (@nil A) 1.

(* INSERT: the row receives the next AUTO_INCREMENT value. *)
Definition insert (A : Type) (mk : Z -> A) (t : Table A) : Table A :=
  mkTable (rows t ++ [mk (auto_increment t)]) (auto_increment t + 1).

(* UPDATE ... WHERE cond *)
Definition update_where (A : Type) (cond : A -> bool) (f : A -> A) (t : Table A)
  : Table A :=
  mkTable (map (fun r => if cond r then f r else r) (rows t)) (auto_increment t).

Record Database := mkDatabase {
  notes : Table Note.t;
  note_versions : Table NoteVersion.t;
  note_shares : Table NoteShare.t;
  note_attachments : Table NoteAttachment.t;
  users : Table User.t
}.

Definition empty_database : Database :=
  mkDatabase (empty_table _) (empty_table _) (empty_table _)
             (empty_table _) (empty_table _).

Definition set_notes (t : Table Note.t) (d : Database) : Database :=
  mkDatabase t (note_versions d) (note_shares d) (note_attachments d) (users d).
Definition set_note_versions (t : Table NoteVersion.t) (d : Database) : Database :=
  mkDatabase (notes d) t (note_shares d) (note_attachments d) (users d).
Definition set_note_shares (t : Table NoteShare.t) (d : Database) : Database :=
  mkDatabase (notes d) (note_versions d) t (note_attachments d) (users d).
Definition set_note_attachments (t : Table NoteAttachment.t) (d : Database)
  : Database :=
  mkDatabase (notes d) (note_versions d) (note_shares d) t (users d).
Definition set_users (t : Table User.t) (d : Database) : Database :=
  mkDatabase (notes d) (note_versions d) (note_shares d) (note_attachments d) t.

(** ** The world a request runs in *)

(* A redis client as the service sees it when the server answers: whether
   the socket is open and how each command it issues settles ([Some]
   resolves, [None] rejects).  A client whose commands may stay pending is
   [RedisSocket] below. *)
Record RedisClient := mkRedis {
  isOpen : bool;
  connect : option unit;
  keys : string -> option (list string);
  del : list string -> option Z
}.

Inductive TxState :=
| TxNone
| TxOpen (snapshot : Database)
| TxFinished (state : string).

(* What a request does to the outside, in the order it does it: statements
   of a transaction, a row written to a table (INSERT or UPDATE), calls of
   invalidateCache and the commands it sends. *)
Inductive Event :=
| EvBegin
| EvCommit
| EvRollback
| EvWrite (table : string)
| EvInvalidate (pattern : string)
| EvKeys (pattern : string)
| EvDel (ks : list string).

Record World := mkWorld {
  db : Database;
  txn : TxState;
  redis : option RedisClient;
  clock : Z;
  trace : list Event
}.

Definition set_db (d : Database) (w : World) : World :=
  mkWorld d (txn w) (redis w) (clock w) (trace w).
Definition set_txn (t : TxState) (w : World) : World :=
  mkWorld (db w) t (redis w) (clock w) (trace w).
Definition set_redis (r : option RedisClient) (w : World) : World :=
  mkWorld (db w) (txn w) r (clock w) (trace w).
Definition set_clock (c : Z) (w : World) : World :=
  mkWorld (db w) (txn w) (redis w) c (trace w).
Definition log_event (e : Event) (w : World) : World :=
  mkWorld (db w) (txn w) (redis w) (clock w) (trace w ++ [e]).

(** ** Computations that may throw *)

Inductive Result (A : Type) :=
| Ok (a : A)
| Throw (message : string).
Arguments Throw {A} message.

Definition M (A : Type) := World -> Result A * World.

Definition ret (A : Type) (a : A) : M A := fun w => (Ok a, w).

Definition bind (A B : Type) (m : M A) (k : A -> M B) : M B :=
  fun w => match m w with
           | (Ok a, w') => k a w'
           | (Throw e, w') => (Throw e, w')
           end.

Definition throw (A : Type) (message : string) : M A :=
  fun w => (Throw message, w).
Arguments throw {A} message.

(* try { body } catch (error) { handler error } *)
Definition try_catch (A : Type) (body : M A) (handler : string -> M A) : M A :=
  fun w => match body w with
           | (Ok a, w') => (Ok a, w')
           | (Throw e, w') => handler e w'
           end.

Definition query (A : Type) (q : Database -> A) : M A :=
  fun w => (Ok (q (db w)), w).

Definition exec (f : Database -> Database) : M unit :=
  fun w => (Ok tt, set_db (f (db w)) w).

Definition now : M Z := fun w => (Ok (clock w), w).

Definition emit (e : Event) : M unit := fun w => (Ok tt, log_event e w).

Declare Scope js_scope.
Delimit Scope js_scope with js.
Notation "x <- m ;; k" := (bind m (fun x => k))
  (at level 61, m at next level, right associativity) : js_scope.
Notation "m ;; k" := (bind m (fun _ => k))
  (at level 61, right associativity) : js_scope.
Open Scope js_scope.

Definition run (A : Type) (m : M A) (w : World) : Result A * World := m w.

(** ** Strings *)

(* White space and line terminators of String.prototype.trim among the
   characters up to U+00FF: tab, LF, VT, FF, CR, space, no-break space *)
Definition is_white (c : ascii) : bool :=
  match N_of_ascii c with
  | 9 | 10 | 11 | 12 | 13 | 32 | 160 => true
  | _ => false
  end%N.

Fixpoint trimStart (s : string) : string :=
  match s with
  | EmptyString => EmptyString
  | String c s' => if is_white c then trimStart s' else s
  end.

(* !s for a string: the empty string is falsy *)
Definition is_empty (s : string) : bool :=
  match s with
  | EmptyString => true
  | String _ _ => false
  end.

(** ** What the models and the tables refuse *)

(* validate: { notEmpty: true } of Sequelize: the value does not match
   /^[\s\t\r\n]*$/, that is, it is not made of white space only *)
Definition notEmpty (s : string) : bool := negb (is_empty (trimStart s)).

(* VARCHAR(n), the column of DataTypes.STRING(n): at most n characters *)
Definition fits (n : nat) (s : string) : bool := (String.length s <=? n)%nat.

(* validate: { len: [min, max] } of Sequelize: the number of characters lies
   between the two bounds, both included *)
Definition len (min max : nat) (s : string) : bool :=
  (min <=? String.length s)%nat && (String.length s <=? max)%nat.

(* the bytes of a string in utf8mb4: one for a character below U+0080, two
   for the others up to U+00FF *)
Fixpoint byte_length (s : string) : N :=
  match s with
  | EmptyString => 0
  | String c s' => (if N_of_ascii c <? 128 then 1 else 2) + byte_length s'
  end%N.

(* TEXT, the column of DataTypes.TEXT: at most 65535 bytes *)
Definition fits_text (s : string) : bool := (byte_length s <=? 65535)%N.

(* INTEGER: a signed 32-bit value *)
Definition fits_int (z : Z) : bool := (-2147483648 <=? z) && (z <=? 2147483647).

(* The messages of the errors Sequelize and MySQL raise for a refused write
   or a malformed statement.  The properties use only that they are not
   messages of the service. *)
Definition SequelizeValidationError (validator field : string) : string :=
  ("Validation error: Validation " ++ validator ++ " on " ++ field
   ++ " failed")%string.

Definition ER_DATA_TOO_LONG (column : string) : string :=
  ("Data too long for column '" ++ column ++ "' at row 1")%string.

Definition ER_WARN_DATA_OUT_OF_RANGE (column : string) : string :=
  ("Out of range value for column '" ++ column ++ "' at row 1")%string.

Definition ER_NO_REFERENCED_ROW : string :=
  "Cannot add or update a child row: a foreign key constraint fails".

Definition ER_PARSE_ERROR : string := "You have an error in your SQL syntax".

(** ** Sequelize: queries, writes and transactions *)

Definition is_null (A : Type) (o : option A) : bool :=
  match o with None => true | Some _ => false end.

(* ORDER BY key DESC, rows with equal keys kept in stored order *)
Fixpoint insert_desc (A : Type) (key : A -> Z) (x : A) (l : list A) : list A :=
  match l with
  | [] => [x]
  | y :: l' => if key y <=? key x then x :: l else y :: insert_desc key x l'
  end.

Fixpoint order_desc (A : Type) (key : A -> Z) (l : list A) : list A :=
  match l with
  | [] => []
  | x :: l' => insert_desc key x (order_desc key l')
  end.

(* Model.findOne({ where }) *)
Definition Note_findOne (where_ : Note.t -> bool) (d : Database) : option Note.t :=
  find where_ (rows (notes d)).

Definition Note_findAll (where_ : Note.t -> bool) (d : Database) : list Note.t :=
  filter where_ (rows (notes d)).

Definition NoteVersion_findOne (where_ : NoteVersion.t -> bool) (d : Database)
  : option NoteVersion.t :=
  find where_ (rows (note_versions d)).

Definition NoteShare_findAll (where_ : NoteShare.t -> bool) (d : Database)
  : list NoteShare.t :=
  filter where_ (rows (note_shares d)).

(* User.findByPk(id) *)
Definition User_findByPk (pk : Z) (d : Database) : option User.t :=
  find (fun u => User.id u =? pk) (rows (users d)).

(* "$shares.sharedWithUserId$": userId, over the joined shares of a note *)
Definition shared_with (d : Database) (n : Note.t) (userId : Z) : bool :=
  existsb (fun s => (NoteShare.noteId s =? Note.id n)
                    && (NoteShare.sharedWithUserId s =? userId))
          (rows (note_shares d)).

(* "$shares.sharedWithUserId$": userId, "$shares.permission$": "edit" *)
Definition shared_with_edit (d : Database) (n : Note.t) (userId : Z) : bool :=
  existsb (fun s => (NoteShare.noteId s =? Note.id n)
                    && (NoteShare.sharedWithUserId s =? userId)
                    && NoteShare.permission_eqb (NoteShare.permission s) NoteShare.edit)
          (rows (note_shares d)).

(* What stops Note.create: the validator of the model, run before anything
   is sent; then, on the INSERT, the widths of the columns and the foreign
   key of userId on users. *)
Definition Note_create_error (userId : Z) (title content : string)
    (d : Database) : option string :=
  if negb (notEmpty title)
  then Some (SequelizeValidationError "notEmpty" "title")
  else if negb (fits 255 title) then Some (ER_DATA_TOO_LONG "title")
  else if negb (fits_text content) then Some (ER_DATA_TOO_LONG "content")
  else if is_null (User_findByPk userId d) then Some ER_NO_REFERENCED_ROW
  else None.

(* Note.create({ userId, title, content, version }) *)
Definition Note_create (userId : Z) (title content : string) (version : Z)
  : M Note.t :=
  fun w =>
    match Note_create_error userId title content (db w) with
    | Some message => (Throw message, w)
    | None =>
        let t := notes (db w) in
        let note := Note.make (auto_increment t) userId title content version
                              None (clock w) in
        (Ok note,
         log_event (EvWrite "notes")
           (set_db (set_notes (insert (fun _ => note) t) (db w)) w))
    end.

(* What stops note.save().  Sequelize validates and sends the attributes
   that were changed since the instance was loaded: [previous] is the
   instance as loaded, [note] the instance with the assignments made. *)
Definition Note_save_error (previous note : Note.t) : option string :=
  let title_changed :=
    negb (String.eqb (Note.title note) (Note.title previous)) in
  let content_changed :=
    negb (String.eqb (Note.content note) (Note.content previous)) in
  if title_changed && negb (notEmpty (Note.title note))
  then Some (SequelizeValidationError "notEmpty" "title")
  else if title_changed && negb (fits 255 (Note.title note))
  then Some (ER_DATA_TOO_LONG "title")
  else if content_changed && negb (fits_text (Note.content note))
  then Some (ER_DATA_TOO_LONG "content")
  else None.

(* note.save(): UPDATE notes SET title, content, version WHERE id = note.id *)
Definition Note_save (previous note : Note.t) : M unit :=
  fun w =>
    match Note_save_error previous note with
    | Some message => (Throw message, w)
    | None =>
        (Ok tt,
         log_event (EvWrite "notes")
           (set_db
              (set_notes
                 (update_where (fun r => Note.id r =? Note.id note)
                    (fun r => Note.make (Note.id r) (Note.userId r)
                                (Note.title note) (Note.content note)
                                (Note.version note) (Note.deletedAt r)
                                (Note.createdAt r))
                    (notes (db w))) (db w)) w))
    end.

(* note.destroy() on a paranoid model: deletedAt receives the current time *)
Definition Note_destroy (note : Note.t) : M unit :=
  t <- now ;;
  exec (fun d =>
    set_notes
      (update_where (fun r => Note.id r =? Note.id note)
         (fun r => Note.make (Note.id r) (Note.userId r) (Note.title r)
                     (Note.content r) (Note.version r) (Some t)
                     (Note.createdAt r))
         (notes d)) d) ;;
  emit (EvWrite "notes").

(* NoteVersion.create({ noteId, title, content, version, changedBy }).  The
   model has no validator, and the service calls it right after it has
   written the same title and content to the note with that id, on behalf of
   a caller it has found as owner or as holder of a share: what the table
   could refuse (the widths, the foreign keys on notes and users) has been
   checked by then, so the INSERT is taken to succeed. *)
Definition NoteVersion_create (noteId : Z) (title content : string)
    (version changedBy : Z) : M NoteVersion.t :=
  fun w =>
    let t := note_versions (db w) in
    let row := NoteVersion.make (auto_increment t) noteId title content version
                                changedBy (clock w) in
    (Ok row,
     log_event (EvWrite "note_versions")
       (set_db (set_note_versions (insert (fun _ => row) t) (db w)) w)).

(* NoteShare.findOrCreate({ where, defaults }) *)
Definition NoteShare_findOrCreate (where_ : NoteShare.t -> bool)
    (noteId sharedWithUserId : Z) (permission : NoteShare.permission_t)
  : M (NoteShare.t * bool) :=
  fun w =>
    let t := note_shares (db w) in
    match find where_ (rows t) with
    | Some share => (Ok (share, false), w)
    | None =>
        let share := NoteShare.make (auto_increment t) noteId sharedWithUserId
                                    permission in
        (Ok (share, true),
         log_event (EvWrite "note_shares")
           (set_db (set_note_shares (insert (fun _ => share) t) (db w)) w))
    end.

(* share.save(): UPDATE note_shares SET permission WHERE id = share.id *)
Definition NoteShare_save (share : NoteShare.t) : M unit :=
  exec (fun d =>
    set_note_shares
      (update_where (fun r => NoteShare.id r =? NoteShare.id share)
         (fun r => NoteShare.make (NoteShare.id r) (NoteShare.noteId r)
                     (NoteShare.sharedWithUserId r) (NoteShare.permission share))
         (note_shares d)) d) ;;
  emit (EvWrite "note_shares").

(* What stops NoteAttachment.create: the widths of the columns filename
   VARCHAR(255), originalFilename VARCHAR(255), mimeType VARCHAR(100),
   fileSize INTEGER and filePath VARCHAR(500).  The service has found the
   note before, so the foreign key on noteId holds. *)
Definition NoteAttachment_create_error (file : File.t) : option string :=
  if negb (fits 255 (File.filename file))
  then Some (ER_DATA_TOO_LONG "filename")
  else if negb (fits 255 (File.originalname file))
  then Some (ER_DATA_TOO_LONG "originalFilename")
  else if negb (fits 100 (File.mimetype file))
  then Some (ER_DATA_TOO_LONG "mimeType")
  else if negb (fits_int (File.size file))
  then Some (ER_WARN_DATA_OUT_OF_RANGE "fileSize")
  else if negb (fits 500 (File.path file))
  then Some (ER_DATA_TOO_LONG "filePath")
  else None.

(* NoteAttachment.create({ ... }) *)
Definition NoteAttachment_create (noteId : Z) (file : File.t)
  : M NoteAttachment.t :=
  fun w =>
    match NoteAttachment_create_error file with
    | Some message => (Throw message, w)
    | None =>
        let t := note_attachments (db w) in
        let row := NoteAttachment.make (auto_increment t) noteId
                     (File.filename file) (File.originalname file)
                     (File.mimetype file) (File.size file) (File.path file) in
        (Ok row,
         log_event (EvWrite "note_attachments")
           (set_db (set_note_attachments (insert (fun _ => row) t) (db w)) w))
    end.

(* Note.sequelize.transaction(): statements issued from here on are undone
   by rollback and made permanent by commit.  A transaction that has been
   finished refuses a second commit or rollback. *)
Definition transaction : M unit :=
  fun w => (Ok tt, log_event EvBegin (set_txn (TxOpen (db w)) w)).

Definition finished_message (verb state : string) : string :=
  ("Transaction cannot be " ++ verb
   ++ " because it has been finished with state: " ++ state)%string.

Definition commit : M unit :=
  fun w =>
    match txn w with
    | TxOpen _ => (Ok tt, log_event EvCommit (set_txn (TxFinished "commit") w))
    | TxFinished st => (Throw (finished_message "committed" st), w)
    | TxNone => (Throw "No transaction"%string, w)
    end.

Definition rollback : M unit :=
  fun w =>
    match txn w with
    | TxOpen snapshot =>
        (Ok tt,
         log_event EvRollback (set_txn (TxFinished "rollback") (set_db snapshot w)))
    | TxFinished st => (Throw (finished_message "rolled back" st), w)
    | TxNone => (Throw "No transaction"%string, w)
    end.

(** ** middleware/cache.js *)

Definition null_deref (prop : string) : string :=
  ("Cannot read properties of null (reading '" ++ prop ++ "')")%string.

(* redisClient.connect() *)
Definition redis_connect : M unit :=
  fun w =>
    match redis w with
    | None => (Throw (null_deref "connect"), w)
    | Some c =>
        match connect c with
        | Some _ =>
            (Ok tt, set_redis (Some (mkRedis true (connect c) (keys c) (del c))) w)
        | None => (Throw "Connection failed"%string, w)
        end
    end.

(* redisClient.keys(pattern) *)
Definition redis_keys (pattern : string) : M (list string) :=
  fun w =>
    match redis w with
    | None => (Throw (null_deref "keys"), w)
    | Some c =>
        match keys c pattern with
        | Some ks => (Ok ks, log_event (EvKeys pattern) w)
        | None => (Throw "Redis error"%string, w)
        end
    end.

(* redisClient.del(keys) *)
Definition redis_del (ks : list string) : M Z :=
  fun w =>
    match redis w with
    | None => (Throw (null_deref "del"), w)
    | Some c =>
        match del c ks with
        | Some n => (Ok n, log_event (EvDel ks) w)
        | None => (Throw "Redis error"%string, w)
        end
    end.

(* !redisClient || !redisClient.isOpen *)
Definition needs_connect (w : World) : bool :=
  match redis w with
  | None => true
  | Some c => negb (isOpen c)
  end.

(* invalidateCache(pattern).  The inner catch returns from the function; the
   flag [connected] carries that early return.  console output is dropped. *)
Definition invalidateCache (pattern : string) : M unit :=
  emit (EvInvalidate pattern) ;;
  try_catch
    (connected <-
       (fun w =>
          if needs_connect w
          then try_catch (redis_connect ;; ret true)
                         (fun connectError => ret false) w
          else ret true w) ;;
     if (connected : bool)
     then
       ks <- redis_keys pattern ;;
       if 0 <? Z.of_nat (List.length ks)
       then redis_del ks ;; ret tt
       else ret tt
     else ret tt)
    (fun error => ret tt).

(* `cache:/api/v1/notes*:${userId}` *)
Definition notes_cache_pattern (userId : Z) : string :=
  ("cache:/api/v1/notes*:" ++ NilZero.string_of_int (Z.to_int userId))%string.

(** ** services/noteService.js *)

(* A note as a read hands it back, with its eagerly loaded associations. *)
Record NoteInstance := mkInstance {
  note : Note.t;
  owner : option User.t;
  versions : list NoteVersion.t;
  attachments : list NoteAttachment.t;
  shares : list NoteShare.t
}.

(* The share rows a read joins to a note: the WHERE clause on the joined
   column keeps every row for the owner and the caller's own rows otherwise. *)
Definition joined_shares (d : Database) (n : Note.t) (userId : Z)
  : list NoteShare.t :=
  NoteShare_findAll
    (fun s => (NoteShare.noteId s =? Note.id n)
              && ((Note.userId n =? userId)
                  || (NoteShare.sharedWithUserId s =? userId))) d.

(* include: { model: NoteVersion, as: "versions", order: [["version", "DESC"]] }:
   the version rows of the note.  The include is loaded by a join of the one
   query (it has no separate: true), and Sequelize applies an order given
   inside such an include to nothing: the rows come as the table holds them. *)
Definition include_versions (d : Database) (n : Note.t) : list NoteVersion.t :=
  filter (fun v => NoteVersion.noteId v =? Note.id n) (rows (note_versions d)).

Definition include_attachments (d : Database) (n : Note.t)
  : list NoteAttachment.t :=
  filter (fun a => NoteAttachment.noteId a =? Note.id n)
         (rows (note_attachments d)).

Definition createNote (userId : Z) (title content : string) : M Note.t :=
  note <- Note_create userId title content 1 ;;
  (* Create initial version *)
  NoteVersion_create (Note.id note) title content 1 userId ;;
  invalidateCache (notes_cache_pattern userId) ;;
  ret note.

Definition getAllNotes (userId : Z) : M (list NoteInstance) :=
  query (fun d =>
    map (fun n => mkInstance n (User_findByPk (Note.userId n) d) [] []
                             (joined_shares d n userId))
        (order_desc Note.createdAt
           (Note_findAll
              (fun n => is_null (Note.deletedAt n)
                        && ((Note.userId n =? userId) || shared_with d n userId))
              d))).

Definition getNoteById (noteId userId : Z) : M NoteInstance :=
  note <- query (fun d =>
            Note_findOne
              (fun n => (Note.id n =? noteId)
                        && ((Note.userId n =? userId) || shared_with d n userId)
                        && is_null (Note.deletedAt n)) d) ;;
  match note with
  | None => throw "Note not found or access denied"
  | Some n =>
      query (fun d => mkInstance n (User_findByPk (Note.userId n) d)
                                 (include_versions d n)
                                 (include_attachments d n)
                                 (joined_shares d n userId))
  end.

(* The keywords are spliced as they are between two single quotes of the
   statement (the Sequelize.literal of the MATCH ... AGAINST condition).
   MySQL reads the text after the opening quote as a string literal: a
   backslash takes the next character with it, two single quotes in a row
   are one quote of the string, a single quote alone ends the literal.
   [literal_body s] says that [s] is read to its end as the body of that one
   literal, so that the closing quote of the statement closes it. *)
Fixpoint literal_body (s : string) : bool :=
  match s with
  | EmptyString => true
  | String c s' =>
      if (N_of_ascii c =? 92)%N
      then match s' with
           | EmptyString => false
           | String _ s'' => literal_body s''
           end
      else if (N_of_ascii c =? 39)%N
      then match s' with
           | EmptyString => false
           | String c' s'' =>
               if (N_of_ascii c' =? 39)%N then literal_body s'' else false
           end
      else literal_body s'
  end.

Section Search.
(* MATCH(title, content) AGAINST(keywords) OR title LIKE %keywords%
   OR content LIKE %keywords%, as the database evaluates it *)
Variable keyword_match : string -> Note.t -> bool.

(* When the keywords end the literal early or leave it open, the statement
   sent is not the one written in the source; MySQL refuses it as malformed,
   unless the keywords were made to complete it into another statement, a
   case this embedding does not follow. *)
Definition searchNotesByKeywords (userId : Z) (keywords : string)
  : M (list NoteInstance) :=
  if negb (literal_body keywords) then throw ER_PARSE_ERROR
  else
  query (fun d =>
    map (fun n => mkInstance n (User_findByPk (Note.userId n) d) [] []
                    (NoteShare_findAll
                       (fun s => (NoteShare.noteId s =? Note.id n)
                                 && (NoteShare.sharedWithUserId s =? userId)) d))
        (order_desc Note.createdAt
           (Note_findAll
              (fun n => ((Note.userId n =? userId) || shared_with d n userId)
                        && is_null (Note.deletedAt n)
                        && keyword_match keywords n)
              d))).
End Search.

Definition version_conflict_message : string :=
  "Note has been modified by another user. Please refresh and try again.".

Definition updateNote (noteId userId : Z) (title content : string)
    (expectedVersion : Z) : M Note.t :=
  transaction ;;
  try_catch
    ((* Check if user has permission (owner or shared with edit permission) *)
     note <- query (Note_findOne
                      (fun n => (Note.id n =? noteId)
                                && is_null (Note.deletedAt n))) ;;
     match note with
     | None => throw "Note not found"
     | Some note =>
         shares <- query (NoteShare_findAll
                            (fun s => (NoteShare.noteId s =? Note.id note)
                                      && (NoteShare.sharedWithUserId s =? userId)
                                      && NoteShare.permission_eqb
                                           (NoteShare.permission s)
                                           NoteShare.edit)) ;;
         let isOwner := Note.userId note =? userId in
         let hasEditPermission := 0 <? Z.of_nat (List.length shares) in
         if negb isOwner && negb hasEditPermission
         then throw "Permission denied"
         else
           (* Optimistic locking: check version *)
           if negb (Note.version note =? expectedVersion)
           then throw version_conflict_message
           else
             let loaded := note in
             let note := Note.make (Note.id note) (Note.userId note) title
                           content (Note.version note + 1)
                           (Note.deletedAt note) (Note.createdAt note) in
             Note_save loaded note ;;
             NoteVersion_create (Note.id note) title content
                                (Note.version note) userId ;;
             commit ;;
             invalidateCache (notes_cache_pattern userId) ;;
             ret note
     end)
    (fun error => rollback ;; throw error).

Definition deleteNote (noteId userId : Z) : M string :=
  note <- query (Note_findOne
                   (fun n => (Note.id n =? noteId)
                             && (Note.userId n =? userId) (* Only owner can delete *)
                             && is_null (Note.deletedAt n))) ;;
  match note with
  | None => throw "Note not found or permission denied"
  | Some note =>
      Note_destroy note ;;
      invalidateCache (notes_cache_pattern userId) ;;
      ret "Note deleted successfully"%string
  end.

Definition revertToVersion (noteId userId targetVersion : Z) : M Note.t :=
  transaction ;;
  try_catch
    (note <- query (Note_findOne
                      (fun n => (Note.id n =? noteId)
                                && (Note.userId n =? userId) (* Only owner can revert *)
                                && is_null (Note.deletedAt n))) ;;
     match note with
     | None => throw "Note not found or permission denied"
     | Some note =>
         targetVersionRecord <-
           query (NoteVersion_findOne
                    (fun v => (NoteVersion.noteId v =? noteId)
                              && (NoteVersion.version v =? targetVersion))) ;;
         match targetVersionRecord with
         | None => throw "Version not found"
         | Some targetVersionRecord =>
             let loaded := note in
             let note := Note.make (Note.id note) (Note.userId note)
                           (NoteVersion.title targetVersionRecord)
                           (NoteVersion.content targetVersionRecord)
                           (Note.version note + 1)
                           (Note.deletedAt note) (Note.createdAt note) in
             Note_save loaded note ;;
             NoteVersion_create (Note.id note)
                                (NoteVersion.title targetVersionRecord)
                                (NoteVersion.content targetVersionRecord)
                                (Note.version note) userId ;;
             commit ;;
             invalidateCache (notes_cache_pattern userId) ;;
             ret note
         end
     end)
    (fun error => rollback ;; throw error).

(* permission || "read" *)
Definition or_read (permission : option NoteShare.permission_t)
  : NoteShare.permission_t :=
  match permission with
  | Some p => p
  | None => NoteShare.read
  end.

Definition shareNote (noteId ownerId sharedWithUserId : Z)
    (permission : option NoteShare.permission_t) : M NoteShare.t :=
  if ownerId =? sharedWithUserId
  then throw "Cannot share note with yourself"
  else
    note <- query (Note_findOne
                     (fun n => (Note.id n =? noteId)
                               && (Note.userId n =? ownerId)
                               && is_null (Note.deletedAt n))) ;;
    match note with
    | None => throw "Note not found or permission denied"
    | Some _ =>
        (* Check if user exists *)
        sharedUser <- query (User_findByPk sharedWithUserId) ;;
        match sharedUser with
        | None => throw "User not found"
        | Some _ =>
            (* Create or update share *)
            found <- NoteShare_findOrCreate
                       (fun s => (NoteShare.noteId s =? noteId)
                                 && (NoteShare.sharedWithUserId s
                                     =? sharedWithUserId))
                       noteId sharedWithUserId (or_read permission) ;;
            let '(share, created) := found in
            share <- (if negb created
                      then
                        let share := NoteShare.make (NoteShare.id share)
                                       (NoteShare.noteId share)
                                       (NoteShare.sharedWithUserId share)
                                       (or_read permission) in
                        NoteShare_save share ;; ret share
                      else ret share) ;;
            (* Invalidate cache for both owner and shared user *)
            invalidateCache (notes_cache_pattern ownerId) ;;
            invalidateCache (notes_cache_pattern sharedWithUserId) ;;
            ret share
        end
    end.

Definition addAttachment (noteId userId : Z) (file : File.t)
  : M NoteAttachment.t :=
  note <- query (fun d =>
            Note_findOne
              (fun n => (Note.id n =? noteId)
                        && ((Note.userId n =? userId)
                            || shared_with_edit d n userId)
                        && is_null (Note.deletedAt n)) d) ;;
  match note with
  | None => throw "Note not found or permission denied"
  | Some _ =>
      attachment <- NoteAttachment_create noteId file ;;
      invalidateCache (notes_cache_pattern userId) ;;
      ret attachment
  end.

(** ** Requests, one at a time *)

(* models/User.js: what User.create lets through.  username: len [3, 50]
   and notEmpty; email: isEmail and notEmpty, in a column of 100 characters;
   password: len [6, 255] and notEmpty, checked on the password as sent (the
   beforeCreate hook hashes it after validation, and the hash fits its
   column).  isEmail is the test of the validator package, which is not part
   of the repository: it is an argument. *)
Definition User_validate (isEmail : string -> bool)
           (username email password : string) : bool :=
  len 3 50 username && notEmpty username
  && isEmail email && notEmpty email && fits 100 email
  && len 6 255 password && notEmpty password.

(* The users table under authController.register: the lookup of a user with
   that email or that username, and User.create when none is found.  The
   database compares the strings of the lookup, as it does those of the two
   unique indexes, by the collation of the columns, which is set on the
   server and not in the repository: [collation] maps a string to the key
   the database compares (its weight string), so that two strings are taken
   for equal exactly when their keys are the same.  The answer is the user
   created; [None] stands for every answer that creates no user: the 400 of
   a name in use and the 500 of a refused User.create.  The refresh token
   the handler then stores in Redis is not part of the model. *)
Definition register (collation : string -> string) (isEmail : string -> bool)
           (username email password : string) : M (option User.t) :=
  fun w =>
    let t := users (db w) in
    match find (fun u => String.eqb (collation (User.email u))
                                    (collation email)
                         || String.eqb (collation (User.username u))
                                       (collation username)) (rows t) with
    | Some _ => (Ok None, w)
    | None =>
        if User_validate isEmail username email password then
          let user := User.make (auto_increment t) username email in
          (Ok (Some user),
           log_event (EvWrite "users")
             (set_db (set_users (insert (fun _ => user) t) (db w)) w))
        else (Ok None, w)
    end.

Inductive Request :=
| Register (collation : string -> string) (isEmail : string -> bool)
           (username email password : string)
| CreateNote (userId : Z) (title content : string)
| GetAllNotes (userId : Z)
| GetNoteById (noteId userId : Z)
| SearchNotes (keyword_match : string -> Note.t -> bool) (userId : Z)
              (keywords : string)
| UpdateNote (noteId userId : Z) (title content : string) (expectedVersion : Z)
| DeleteNote (noteId userId : Z)
| RevertToVersion (noteId userId targetVersion : Z)
| ShareNote (noteId ownerId sharedWithUserId : Z)
            (permission : option NoteShare.permission_t)
| AddAttachment (noteId userId : Z) (file : File.t)
(* the environment: time passes, the cache server comes and goes *)
| Tick (t : Z)
| RedisChange (r : option RedisClient).

Definition step (w : World) (r : Request) : World :=
  match r with
  | Register collation isEmail u e p =>
      snd (run (register collation isEmail u e p) w)
  | CreateNote u t c => snd (run (createNote u t c) w)
  | GetAllNotes u => snd (run (getAllNotes u) w)
  | GetNoteById n u => snd (run (getNoteById n u) w)
  | SearchNotes km u k => snd (run (searchNotesByKeywords km u k) w)
  | UpdateNote n u t c v => snd (run (updateNote n u t c v) w)
  | DeleteNote n u => snd (run (deleteNote n u) w)
  | RevertToVersion n u v => snd (run (revertToVersion n u v) w)
  | ShareNote n o s p => snd (run (shareNote n o s p) w)
  | AddAttachment n u f => snd (run (addAttachment n u f) w)
  | Tick t => set_clock t w
  | RedisChange r => set_redis r w
  end.

Definition initial_world (r : option RedisClient) (c : Z) : World :=
  mkWorld empty_database TxNone r c [].

Inductive reachable : World -> Prop :=
| reach_initial : forall r c, reachable (initial_world r c)
| reach_step : forall w r, reachable w -> reachable (step w r).

(** ** Vocabulary of the properties *)

(** *** Looking a note up *)

(* the row of a note, live or soft-deleted, by primary key *)
Definition note_by_id (noteId : Z) (d : Database) : option Note.t :=
  find (fun n => Note.id n =? noteId) (rows (notes d)).

(* the live note with this id: the lookup of updateNote *)
Definition live_note (noteId : Z) (d : Database) : option Note.t :=
  Note_findOne (fun n => (Note.id n =? noteId) && is_null (Note.deletedAt n)) d.

(* the live note with this id owned by this user: the lookup of revert,
   delete and share *)
Definition owned_note (noteId userId : Z) (d : Database) : option Note.t :=
  Note_findOne (fun n => (Note.id n =? noteId)
                         && (Note.userId n =? userId)
                         && is_null (Note.deletedAt n)) d.

Definition absent (d : Database) (noteId : Z) : Prop :=
  note_by_id noteId d = None.

(* every row with this id carries a deletedAt marker *)
Definition gone (noteId : Z) (d : Database) : Prop :=
  forall r, In r (rows (notes d)) -> Note.id r = noteId ->
            Note.deletedAt r <> None.

(* notes.id is the primary key *)
Definition primary_key (d : Database) : Prop :=
  NoDup (map Note.id (rows (notes d))).

(** *** Who may do what *)

Definition is_owner (n : Note.t) (userId : Z) : Prop := Note.userId n = userId.

(* Editor: a share row for (note, user) with permission edit *)
Definition has_edit_share (d : Database) (noteId userId : Z) : Prop :=
  exists s, In s (rows (note_shares d))
            /\ NoteShare.noteId s = noteId
            /\ NoteShare.sharedWithUserId s = userId
            /\ NoteShare.permission s = NoteShare.edit.

(* any share row for (note, user) *)
Definition has_share (d : Database) (noteId userId : Z) : Prop :=
  exists s, In s (rows (note_shares d))
            /\ NoteShare.noteId s = noteId
            /\ NoteShare.sharedWithUserId s = userId.

(* the test updateNote applies: isOwner || hasEditPermission *)
Definition may_update (d : Database) (n : Note.t) (userId : Z) : bool :=
  (Note.userId n =? userId)
  || (0 <? Z.of_nat (List.length
        (NoteShare_findAll
           (fun s => (NoteShare.noteId s =? Note.id n)
                     && (NoteShare.sharedWithUserId s =? userId)
                     && NoteShare.permission_eqb (NoteShare.permission s)
                                                 NoteShare.edit) d))).

(* the caller neither owns a row with this id nor holds a share on it *)
Definition no_relation (d : Database) (noteId userId : Z) : Prop :=
  (forall n, In n (rows (notes d)) -> Note.id n = noteId ->
             Note.userId n <> userId)
  /\ ~ has_share d noteId userId.

(* an operation answers a stranger the same way for a note that exists and
   for one that does not *)
Definition hides_existence (A : Type) (op : Z -> Z -> M A) : Prop :=
  forall w existing missing userId,
    note_by_id existing (db w) <> None ->
    no_relation (db w) existing userId ->
    absent (db w) missing ->
    fst (run (op existing userId) w) = fst (run (op missing userId) w).

(** *** The version ledger *)

(* the version rows of a note, oldest first *)
Definition history (noteId : Z) (d : Database) : list NoteVersion.t :=
  filter (fun v => NoteVersion.noteId v =? noteId) (rows (note_versions d)).

(* the version numbers stored for a note, in the order they were written *)
Definition stored_versions (noteId : Z) (d : Database) : list Z :=
  map NoteVersion.version (history noteId d).

(* the version row a revert targets *)
Definition version_record (noteId version : Z) (d : Database)
  : option NoteVersion.t :=
  NoteVersion_findOne (fun v => (NoteVersion.noteId v =? noteId)
                                && (NoteVersion.version v =? version)) d.

(* 1, 2, ..., k *)
Definition upto (k : Z) : list Z := map Z.of_nat (seq 1 (Z.to_nat k)).

Definition mirrors (v : NoteVersion.t) (n : Note.t) : Prop :=
  NoteVersion.title v = Note.title n
  /\ NoteVersion.content v = Note.content n
  /\ NoteVersion.version v = Note.version n.

(* newest first: every record is followed only by records whose version
   number is not larger *)
Definition newest_first (l : list NoteVersion.t) : Prop :=
  StronglySorted (fun a b => NoteVersion.version b <= NoteVersion.version a) l.

(** *** Share rows *)

(* WHERE noteId = ? AND sharedWithUserId = ? *)
Definition share_of (noteId userId : Z) (s : NoteShare.t) : bool :=
  (NoteShare.noteId s =? noteId) && (NoteShare.sharedWithUserId s =? userId).

(* the share rows of a pair (note, user) *)
Definition grants (noteId userId : Z) (d : Database) : list NoteShare.t :=
  filter (share_of noteId userId) (rows (note_shares d)).

Definition count_shares (noteId userId : Z) (d : Database) : nat :=
  List.length (grants noteId userId d).

(* the unique index on note_shares (noteId, sharedWithUserId) *)
Definition unique_note_share (d : Database) : Prop :=
  forall noteId userId, (count_shares noteId userId d <= 1)%nat.

(** *** The store and the world after each write path *)

(* the store after createNote *)
Definition created (userId : Z) (title content : string) (w : World)
  : Database :=
  let note := Note.make (auto_increment (notes (db w))) userId title content 1
                        None (clock w) in
  let d1 := set_notes (insert (fun _ => note) (notes (db w))) (db w) in
  set_note_versions
    (insert (fun _ => NoteVersion.make (auto_increment (note_versions (db w)))
                        (Note.id note) title content 1 userId (clock w))
            (note_versions d1)) d1.

(* the store after the two writes of a successful update or revert of [n] *)
Definition written (n : Note.t) (title content : string) (userId : Z)
    (w : World) : Database :=
  let n' := Note.make (Note.id n) (Note.userId n) title content
                      (Note.version n + 1) (Note.deletedAt n) (Note.createdAt n) in
  let d1 := set_notes
              (update_where (fun r => Note.id r =? Note.id n)
                 (fun r => Note.make (Note.id r) (Note.userId r) title content
                             (Note.version n + 1) (Note.deletedAt r)
                             (Note.createdAt r))
                 (notes (db w))) (db w) in
  set_note_versions
    (insert (fun _ => NoteVersion.make (auto_increment (note_versions (db w)))
                        (Note.id n') title content (Note.version n') userId
                        (clock w))
            (note_versions d1)) d1.

(* the row of a note once soft-deleted at time t *)
Definition marked_deleted (t : Z) (n : Note.t) : Note.t :=
  Note.make (Note.id n) (Note.userId n) (Note.title n) (Note.content n)
            (Note.version n) (Some t) (Note.createdAt n).

(* the store after note.destroy() *)
Definition soft_deleted (n : Note.t) (t : Z) (d : Database) : Database :=
  set_notes
    (update_where (fun r => Note.id r =? Note.id n) (marked_deleted t) (notes d))
    d.

(* the store after findOrCreate and, for a row that was found, save *)
Definition upserted (noteId userId : Z) (p : NoteShare.permission_t)
    (d : Database) : Database :=
  match find (share_of noteId userId) (rows (note_shares d)) with
  | Some s =>
      set_note_shares
        (update_where (fun r => NoteShare.id r =? NoteShare.id s)
           (fun r => NoteShare.make (NoteShare.id r) (NoteShare.noteId r)
                       (NoteShare.sharedWithUserId r) p)
           (note_shares d)) d
  | None =>
      set_note_shares
        (insert (fun _ => NoteShare.make (auto_increment (note_shares d))
                            noteId userId p)
                (note_shares d)) d
  end.

(* the world after invalidateCache has run *)
Definition invalidated (pattern : string) (w : World) : World :=
  snd (invalidateCache pattern w).

(* the world a failed transaction leaves behind *)
Definition rolled_back (w : World) : World :=
  mkWorld (db w) (TxFinished "rollback") (redis w) (clock w)
          (trace w ++ [EvBegin; EvRollback]).

(* the world after the two writes and the commit, before the cache is told *)
Definition committed (d : Database) (w : World) : World :=
  mkWorld d (TxFinished "commit") (redis w) (clock w)
          (trace w ++ [EvBegin; EvWrite "notes"; EvWrite "note_versions";
                       EvCommit]).

(* the world after rows were written to these tables outside a transaction *)
Definition stored (tables : list string) (d : Database) (w : World) : World :=
  mkWorld d (txn w) (redis w) (clock w) (trace w ++ map EvWrite tables).

(* commands sent to the cache server *)
Definition is_redis_event (e : Event) : Prop :=
  match e with
  | EvKeys _ | EvDel _ => True
  | _ => False
  end.

(** *** The invariant of the ledger *)

Record history_invariant (d : Database) : Prop := mkInvariant {
  inv_pk : primary_key d;
  inv_ids : forall n, In n (rows (notes d)) ->
                      Note.id n < auto_increment (notes d);
  inv_fk : forall v, In v (rows (note_versions d)) ->
                     NoteVersion.noteId v < auto_increment (notes d);
  inv_numbers : forall n, In n (rows (notes d)) ->
                          stored_versions (Note.id n) d = upto (Note.version n);
  inv_head : forall n, In n (rows (notes d)) ->
                       exists l v, history (Note.id n) d = l ++ [v]
                                   /\ mirrors v n
}.

(* how one request may change the notes and note_versions tables *)
Definition step_effect (w : World) (d' : Database) : Prop :=
  (notes d' = notes (db w) /\ note_versions d' = note_versions (db w))
  \/ (exists userId title content, d' = created userId title content w)
  \/ (exists n title content userId,
         In n (rows (notes (db w)))
         /\ d' = written n title content userId w)
  \/ (exists n t, d' = soft_deleted n t (db w)).

(** *** A small store to run the service on *)

(* a binary collation: a string is its own key *)
Definition utf8mb4_bin (s : string) : string := s.

(* the samples take for an email a string that holds an at sign *)
Fixpoint holds_at_sign (s : string) : bool :=
  match s with
  | EmptyString => false
  | String c s' => (N_of_ascii c =? 64)%N || holds_at_sign s'
  end.

Definition sign_up (username email : string) : Request :=
  Register utf8mb4_bin holds_at_sign username email "correct horse".

(* three users, one note owned by user 1 and shared with user 2 for editing;
   user 3 has nothing to do with it *)
Definition sample_world : World :=
  fold_left step
    [sign_up "alice" "alice@example.org";
     sign_up "bob" "bob@example.org";
     sign_up "carol" "carol@example.org";
     CreateNote 1 "Groceries" "milk";
     ShareNote 1 1 2 (Some NoteShare.edit)]
    (initial_world None 0).

Definition sample_note : Note.t :=
  Note.make 1 1 "Groceries" "milk" 1 None 0.

(* a title one character longer than its column *)
Definition overlong_title : string :=
  string_of_list_ascii (repeat "x"%char 256).

(* the sample after user 2, the editor, has changed the note once *)
Definition sample_world_v2 : World :=
  step sample_world (UpdateNote 1 2 "Groceries" "milk, eggs" 1).

(* what the owner reads back from it *)
Definition sample_read : NoteInstance :=
  mkInstance
    (Note.make 1 1 "Groceries" "milk, eggs" 2 None 0)
    (Some (User.make 1 "alice" "alice@example.org"))
    [NoteVersion.make 1 1 "Groceries" "milk" 1 1 0;
     NoteVersion.make 2 1 "Groceries" "milk, eggs" 2 2 0]
    []
    [NoteShare.make 1 1 2 NoteShare.edit].

(* the sample with a cache server that fails on every KEYS command *)
Definition sample_world_cache_down : World :=
  set_redis (Some (mkRedis true (Some tt) (fun _ => None) (fun _ => None)))
            sample_world.

(* the sample after its owner has deleted the note at time 7 *)
Definition sample_world_deleted : World :=
  step (step sample_world (Tick 7)) (DeleteNote 1 1).

(** ** Vocabulary of the further properties *)

(* the caller may read the note: owner, or holder of a share of either kind *)
Definition may_read (d : Database) (n : Note.t) (userId : Z) : Prop :=
  is_owner n userId \/ has_share d (Note.id n) userId.

(* the events of a transaction that was opened and undone *)
Definition is_tx_event (e : Event) : Prop :=
  match e with
  | EvBegin | EvRollback => True
  | _ => False
  end.


(* ORDER BY createdAt DESC *)
Definition newest_created_first (l : list Note.t) : Prop :=
  StronglySorted (fun a b => Note.createdAt b <= Note.createdAt a) l.

(* the notes of a list of read results *)
Definition notes_of (l : list NoteInstance) : list Note.t := map note l.

(* a picture taken with the phone *)
Definition sample_file : File.t :=
  File.make "1700000000-42.png" "fence.png" "image/png" 2048
            "uploads/1700000000-42.png".

(* a call that throws has left the store and the cache client as they were
   and has added nothing to the trace but the opening and the undoing of a
   transaction *)
Definition leaves_no_trace (A : Type) (m : M A) : Prop :=
  forall w msg w',
    run m w = (Throw msg, w') ->
    db w' = db w
    /\ redis w' = redis w
    /\ exists evs, trace w' = trace w ++ evs /\ Forall is_tx_event evs.

(* the sample with a cache server that is up and holds two entries of user 1 *)
Definition sample_world_cache_up : World :=
  set_redis
    (Some (mkRedis false (Some tt)
             (fun _ => Some ["cache:/api/v1/notes:1"%string;
                             "cache:/api/v1/notes/1:1"%string])
             (fun ks => Some (Z.of_nat (List.length ks)))))
    sample_world.

(* users.email and users.username are unique, users.id is the primary key *)
Record users_unique (d : Database) : Prop := mkUsersUnique {
  uu_ids : NoDup (map User.id (rows (users d)));
  uu_below : forall u, In u (rows (users d)) ->
                       User.id u < auto_increment (users d);
  uu_emails : NoDup (map User.email (rows (users d)));
  uu_usernames : NoDup (map User.username (rows (users d)))
}.

(* note_shares.id is the primary key *)
Record shares_keyed (d : Database) : Prop := mkSharesKeyed {
  sk_ids : NoDup (map NoteShare.id (rows (note_shares d)));
  sk_below : forall s, In s (rows (note_shares d)) ->
                       NoteShare.id s < auto_increment (note_shares d)
}.

(** ** middleware/cache.js: cacheMiddleware *)

(* what the middleware reads of a request; [user] is req.user?.id *)
Module Req.
Record t := make {
  method : string;
  originalUrl : string;
  user : option Z
}.
End Req.

(* ${req.user?.id || "anonymous"}: an id that is missing or 0 is falsy *)
Definition user_part (user : option Z) : string :=
  match user with
  | Some id => if id =? 0 then "anonymous"
               else NilZero.string_of_int (Z.to_int id)
  | None => "anonymous"
  end.

(* `cache:${req.originalUrl}:${req.user?.id || "anonymous"}` *)
Definition cacheKey (req : Req.t) : string :=
  ("cache:" ++ Req.originalUrl req ++ ":" ++ user_part (Req.user req))%string.

(* How the middleware leaves a request: answered from the cache with the
   parsed entry, or passed on to the route handler, res.json then being
   wrapped to store the handler's answer under a key for a duration. *)
Inductive Served (Json : Type) :=
| FromCache (data : Json)
| PassedOn (store_as : option (string * Z)).
Arguments PassedOn {Json} store_as.

(* if (cachedData): null and the empty string are falsy *)
Definition truthy (cachedData : option string) : bool :=
  match cachedData with
  | Some (String _ _) => true
  | _ => false
  end.

Section CacheMiddleware.
(* JSON.parse, [None] when it throws *)
Variable Json : Type.
Variable parse : string -> option Json.
(* redisClient.get(key): [None] rejects, [Some None] resolves to null *)
Variable get : string -> option (option string).

(* cacheMiddleware(duration)(req, res, next); every throw inside the try
   ends in the catch, which calls next() *)
Definition cacheMiddleware (duration : Z) (req : Req.t)
    (redisClient : option RedisClient) : Served Json :=
  (* Only cache GET requests *)
  if negb (String.eqb (Req.method req) "GET") then PassedOn None
  else
    match redisClient with
    | None => PassedOn None
    | Some c =>
        if negb (isOpen c) && is_null (connect c) then PassedOn None
        else
          match get (cacheKey req) with
          | None => PassedOn None
          | Some cachedData =>
              if truthy cachedData
              then match cachedData with
                   | Some s => match parse s with
                               | Some data => FromCache data
                               | None => PassedOn None
                               end
                   | None => PassedOn None
                   end
              else PassedOn (Some (cacheKey req, duration))
          end
    end.
End CacheMiddleware.

Fixpoint colon_free (s : string) : bool :=
  match s with
  | EmptyString => true
  | String c s' => negb (Ascii.eqb c ":") && colon_free s'
  end.

(* a key matches the pattern prefix*suffix, the star standing for any run of
   characters as in the KEYS command *)
Definition star_matches (prefix suffix key : string) : Prop :=
  exists middle, key = (prefix ++ middle ++ suffix)%string.

(* a GET of the notes list by user 1 *)
Definition sample_request : Req.t := Req.make "GET" "/api/v1/notes" (Some 1).

(** ** controllers/noteController.js *)

(* What a handler sends, res.status(status).json(body): the body of a
   success is reduced to the value it carries, the body of a failure is
   { error, details }.  res.json without a status sends 200. *)
Inductive Reply (A : Type) :=
| Answer (status : Z) (payload : A)
| Failure (status : Z) (error : string) (details : option string).
Arguments Failure {A} status error details.

(* String.prototype.includes *)
Definition includes (s searchString : string) : bool :=
  match String.index 0 searchString s with
  | Some _ => true
  | None => false
  end.

Fixpoint trimEnd (s : string) : string :=
  match s with
  | EmptyString => EmptyString
  | String c s' =>
      match trimEnd s' with
      | EmptyString => if is_white c then EmptyString else String c EmptyString
      | t => String c t
      end
  end.

Definition trim (s : string) : string := trimEnd (trimStart s).

(* the characters the regular expression of the handler matches: single
   quote, double quote, semicolon, backslash *)
Definition sql_char (c : ascii) : bool :=
  match N_of_ascii c with
  | 39 | 34 | 59 | 92 => true
  | _ => false
  end%N.

(* replace, with the global flag, by the empty string *)
Fixpoint remove_sql_chars (s : string) : string :=
  match s with
  | EmptyString => EmptyString
  | String c s' => if sql_char c then remove_sql_chars s'
                   else String c (remove_sql_chars s')
  end.

(* keywords.trim().replace(...).substring(0, 255) *)
Definition sanitize (keywords : string) : string :=
  substring 0 255 (remove_sql_chars (trim keywords)).

(* The handlers, from the point where the caller is authenticated.  The
   arguments are the parts of the request a handler reads, numbers already
   read as numbers (parseInt of an integer is that integer); a field of the
   body that is absent is [None].  The permission of a share request is left
   to the service, whose embedding applies the default of the handler. *)
Module noteController.

Definition createNote (userId : Z) (title content : string)
  : M (Reply Note.t) :=
  try_catch
    (note <- createNote userId title content ;;
     ret (Answer 201 note))
    (fun message =>
       ret (Failure 500 "Failed to create note" (Some message))).

Definition getAllNotes (userId : Z) : M (Reply (list NoteInstance)) :=
  try_catch
    (notes <- getAllNotes userId ;;
     ret (Answer 200 notes))
    (fun message =>
       ret (Failure 500 "Failed to retrieve notes" (Some message))).

Definition getNoteById (id userId : Z) : M (Reply NoteInstance) :=
  try_catch
    (note <- getNoteById id userId ;;
     ret (Answer 200 note))
    (fun message =>
       if String.eqb message "Note not found or access denied"
       then ret (Failure 404 message None)
       else ret (Failure 500 "Failed to retrieve note" (Some message))).

(* the answer carries the notes and their count *)
Definition searchNotes (keyword_match : string -> Note.t -> bool)
    (userId : Z) (keywords : option string)
  : M (Reply (list NoteInstance * Z)) :=
  try_catch
    (match keywords with
     | None => ret (Failure 400 "Keywords parameter is required" None)
     | Some keywords =>
         if is_empty keywords
         then ret (Failure 400 "Keywords parameter is required" None)
         else
           (* Sanitize keywords to prevent SQL injection *)
           let sanitizedKeywords := sanitize keywords in
           if is_empty sanitizedKeywords
           then ret (Failure 400 "Invalid keywords provided" None)
           else
             notes <- searchNotesByKeywords keyword_match userId
                        sanitizedKeywords ;;
             ret (Answer 200 (notes, Z.of_nat (List.length notes)))
     end)
    (fun message =>
       ret (Failure 500 "Failed to search notes" (Some message))).

Definition updateNote (id userId : Z) (title content : string)
    (version : option Z) : M (Reply Note.t) :=
  try_catch
    (match version with
     | None =>
         ret (Failure 400 "Version number is required for optimistic locking"
                      None)
     | Some version =>
         if version =? 0
         then ret (Failure 400
                     "Version number is required for optimistic locking" None)
         else
           note <- updateNote id userId title content version ;;
           ret (Answer 200 note)
     end)
    (fun message =>
       if includes message "modified by another user"
       then ret (Failure 409 message None)
       else if String.eqb message "Note not found"
               || String.eqb message "Permission denied"
       then ret (Failure 404 message None)
       else ret (Failure 500 "Failed to update note" (Some message))).

Definition deleteNote (id userId : Z) : M (Reply string) :=
  try_catch
    (result <- deleteNote id userId ;;
     ret (Answer 200 result))
    (fun message =>
       if String.eqb message "Note not found or permission denied"
       then ret (Failure 404 message None)
       else ret (Failure 500 "Failed to delete note" (Some message))).

Definition revertToVersion (id userId : Z) (version : option Z)
  : M (Reply Note.t) :=
  try_catch
    (match version with
     | None => ret (Failure 400 "Version number is required" None)
     | Some version =>
         if version =? 0
         then ret (Failure 400 "Version number is required" None)
         else
           note <- revertToVersion id userId version ;;
           ret (Answer 200 note)
     end)
    (fun message =>
       if String.eqb message "Note not found or permission denied"
          || String.eqb message "Version not found"
       then ret (Failure 404 message None)
       else ret (Failure 500 "Failed to revert note" (Some message))).

Definition shareNote (id userId : Z) (sharedWithUserId : option Z)
    (permission : option NoteShare.permission_t) : M (Reply NoteShare.t) :=
  try_catch
    (match sharedWithUserId with
     | None => ret (Failure 400 "sharedWithUserId is required" None)
     | Some sharedWithUserId =>
         if sharedWithUserId =? 0
         then ret (Failure 400 "sharedWithUserId is required" None)
         else
           share <- shareNote id userId sharedWithUserId permission ;;
           ret (Answer 200 share)
     end)
    (fun message =>
       if String.eqb message "Note not found or permission denied"
          || String.eqb message "User not found"
          || String.eqb message "Cannot share note with yourself"
       then ret (Failure 400 message None)
       else ret (Failure 500 "Failed to share note" (Some message))).

Definition addAttachment (id userId : Z) (file : option File.t)
  : M (Reply NoteAttachment.t) :=
  try_catch
    (match file with
     | None => ret (Failure 400 "File is required" None)
     | Some file =>
         attachment <- addAttachment id userId file ;;
         ret (Answer 201 attachment)
     end)
    (fun message =>
       if String.eqb message "Note not found or permission denied"
       then ret (Failure 404 message None)
       else ret (Failure 500 "Failed to add attachment" (Some message))).

End noteController.

(* The handler sends what the service returns with status [ok].  When the
   service throws a message of the table, the handler sends it as the error
   with the status the table gives; when it throws any other message, the
   handler answers 500 with its own text [generic] and puts the message in
   the details.  Either way the handler itself returns, in the world the
   service left. *)
Definition maps_errors (A : Type) (handler : M (Reply A)) (service : M A)
    (ok : Z) (table : list (string * Z)) (generic : string) : Prop :=
  forall w,
    match run service w with
    | (Ok a, w') => run handler w = (Ok (Answer ok a), w')
    | (Throw message, w') =>
        (exists status,
           In (message, status) table
           /\ run handler w = (Ok (Failure status message None), w'))
        \/ ((forall status, ~ In (message, status) table)
            /\ run handler w
               = (Ok (Failure 500 generic (Some message)), w'))
    end.

(** ** Vocabulary of the refused writes *)

(* a title and a content that Note.create and note.save() let through *)
Definition storable (title content : string) : bool :=
  notEmpty title && fits 255 title && fits_text content.

(* a file whose description fits the columns of note_attachments *)
Definition attachable (file : File.t) : bool :=
  is_null (NoteAttachment_create_error file).

(* What holds of the rows of a store that was written through the models:
   the title and the content of a note and of a version row have passed the
   validator and fit their columns, and the users a note, a version row or
   a share refers to exist. *)
Record validated (d : Database) : Prop := mkValidated {
  val_note : forall n, In n (rows (notes d)) ->
                       storable (Note.title n) (Note.content n) = true;
  val_owner : forall n, In n (rows (notes d)) ->
                        User_findByPk (Note.userId n) d <> None;
  val_version : forall v, In v (rows (note_versions d)) ->
                          storable (NoteVersion.title v) (NoteVersion.content v)
                          = true;
  val_changedBy : forall v, In v (rows (note_versions d)) ->
                            User_findByPk (NoteVersion.changedBy v) d <> None;
  val_shared : forall s, In s (rows (note_shares d)) ->
                         User_findByPk (NoteShare.sharedWithUserId s) d <> None
}.

(* oldest first: the version numbers grow along the list *)
Definition oldest_first (l : list NoteVersion.t) : Prop :=
  StronglySorted (fun a b => NoteVersion.version a < NoteVersion.version b) l.

(** ** A cache server that does not answer *)

(* A promise of the redis client: fulfilled, rejected, or pending for ever.
   The client of config/redis.js is created without a connect timeout and
   without a bound on reconnection: while the server cannot be reached,
   connect() and the commands queued behind it stay pending. *)
Inductive Promise (A : Type) :=
| Fulfilled (a : A)
| Rejected (message : string)
| Pending.
Arguments Rejected {A} message.
Arguments Pending {A}.

Record RedisSocket := mkSocket {
  socketIsOpen : bool;
  socketConnect : Promise unit;
  socketKeys : string -> Promise (list string);
  socketDel : list string -> Promise Z
}.

(* what the caller of an async function gets by awaiting it: its result or
   its error, or nothing at all *)
Inductive Awaited (A : Type) :=
| Settled (r : Result A)
| Unsettled.
Arguments Unsettled {A}.

(* an async computation over the events sent so far *)
Definition Async (A : Type) := list Event -> Awaited A * list Event.

Definition async_ret (A : Type) (a : A) : Async A :=
  fun evs => (Settled (Ok a), evs).

Definition async_bind (A B : Type) (m : Async A) (k : A -> Async B) : Async B :=
  fun evs => match m evs with
             | (Settled (Ok a), evs') => k a evs'
             | (Settled (Throw e), evs') => (Settled (Throw e), evs')
             | (Unsettled, evs') => (Unsettled, evs')
             end.

(* try { body } catch (error) { handler error }: a body that never settles
   never reaches the handler *)
Definition async_try (A : Type) (body : Async A) (handler : string -> Async A)
  : Async A :=
  fun evs => match body evs with
             | (Settled (Ok a), evs') => (Settled (Ok a), evs')
             | (Settled (Throw e), evs') => handler e evs'
             | (Unsettled, evs') => (Unsettled, evs')
             end.

(* await promise; [sent] is what a fulfilled command adds to the trace *)
Definition await (A : Type) (promise : Promise A) (sent : list Event)
  : Async A :=
  fun evs => match promise with
             | Fulfilled a => (Settled (Ok a), evs ++ sent)
             | Rejected e => (Settled (Throw e), evs)
             | Pending => (Unsettled, evs)
             end.

(* redisClient.connect(), redisClient.keys(pattern), redisClient.del(keys) *)
Definition socket_connect (redisClient : option RedisSocket) : Async unit :=
  match redisClient with
  | None => fun evs => (Settled (Throw (null_deref "connect")), evs)
  | Some c => await (socketConnect c) []
  end.

Definition socket_keys (redisClient : option RedisSocket) (pattern : string)
  : Async (list string) :=
  match redisClient with
  | None => fun evs => (Settled (Throw (null_deref "keys")), evs)
  | Some c => await (socketKeys c pattern) [EvKeys pattern]
  end.

Definition socket_del (redisClient : option RedisSocket) (ks : list string)
  : Async Z :=
  match redisClient with
  | None => fun evs => (Settled (Throw (null_deref "del")), evs)
  | Some c => await (socketDel c ks) [EvDel ks]
  end.

(* !redisClient || !redisClient.isOpen *)
Definition socket_needs_connect (redisClient : option RedisSocket) : bool :=
  match redisClient with
  | None => true
  | Some c => negb (socketIsOpen c)
  end.

(* invalidateCache(pattern) once more, for a client whose promises may stay
   pending; line by line as [invalidateCache] above *)
Definition invalidateCache_awaited (redisClient : option RedisSocket)
    (pattern : string) : Async unit :=
  async_bind (fun evs => (Settled (Ok tt), evs ++ [EvInvalidate pattern]))
    (fun _ =>
  async_try
    (async_bind
       (if socket_needs_connect redisClient
        then async_try
               (async_bind (socket_connect redisClient)
                           (fun _ => async_ret true))
               (fun connectError => async_ret false)
        else async_ret true)
       (fun connected : bool =>
          if connected
          then
            async_bind (socket_keys redisClient pattern)
              (fun ks =>
                 if 0 <? Z.of_nat (List.length ks)
                 then async_bind (socket_del redisClient ks)
                                 (fun _ => async_ret tt)
                 else async_ret tt)
          else async_ret tt))
    (fun error => async_ret tt)).

(* a client whose commands all settle, as a socket *)
Definition settling (c : RedisClient) : RedisSocket :=
  mkSocket (isOpen c)
    (match connect c with
     | Some u => Fulfilled u
     | None => Rejected "Connection failed"
     end)
    (fun pattern => match keys c pattern with
                    | Some ks => Fulfilled ks
                    | None => Rejected "Redis error"
                    end)
    (fun ks => match del c ks with
               | Some n => Fulfilled n
               | None => Rejected "Redis error"
               end).

(* the server cannot be reached: a closed client whose connect() stays
   pending, and an open one whose commands do *)
Definition unreachable_closed : RedisSocket :=
  mkSocket false Pending (fun _ => Pending) (fun _ => Pending).

Definition unreachable_open : RedisSocket :=
  mkSocket true Pending (fun _ => Pending) (fun _ => Pending).

(** ** Where the note routes are mounted *)

(* app.use("/api", routes) in app.js *)
Definition api_mount : string := "/api".

(* router.use("/notes", noteRoutes) in routes/index.js *)
Definition notes_mount : string := "/notes".

(* a letter of A to Z becomes the letter of a to z *)
Definition lower (c : ascii) : ascii :=
  let n := N_of_ascii c in
  if (65 <=? n)%N && (n <=? 90)%N then ascii_of_N (n + 32) else c.

Fixpoint lower_case (s : string) : string :=
  match s with
  | EmptyString => EmptyString
  | String c s' => String (lower c) (lower_case s')
  end.

(* the URL of a request begins with the two mounts; Express compares the
   path of a mount without regard to the case of the letters *)
Definition under_note_routes (url : string) : Prop :=
  exists mounts rest,
    url = (mounts ++ rest)%string
    /\ lower_case mounts = (api_mount ++ notes_mount)%string.

(** * Properties *)

Unset Implicit Arguments.

(** ** Cache invalidation never throws and never touches the store *)


Lemma invalidateCache_total pattern w :
  invalidateCache pattern w = (Ok tt, invalidated pattern w).
Proof.
  unfold invalidated, invalidateCache, bind, try_catch, emit, ret,
    redis_connect, redis_keys, redis_del, needs_connect.
  destruct w as [d t r c tr]; simpl.
  destruct r as [[op cn ks dl]|]; simpl; [|reflexivity].
  destruct op; simpl.
  - destruct (ks pattern) as [l|]; simpl; [|reflexivity].
    destruct (0 <? Z.of_nat (List.length l)); simpl; [|reflexivity].
    destruct (dl l); reflexivity.
  - destruct cn; simpl; [|reflexivity].
    destruct (ks pattern) as [l|]; simpl; [|reflexivity].
    destruct (0 <? Z.of_nat (List.length l)); simpl; [|reflexivity].
    destruct (dl l); reflexivity.
Qed.

Lemma invalidated_frame pattern w :
  db (invalidated pattern w) = db w
  /\ txn (invalidated pattern w) = txn w
  /\ clock (invalidated pattern w) = clock w
  /\ exists evs, trace (invalidated pattern w)
                 = trace w ++ EvInvalidate pattern :: evs
                 /\ Forall is_redis_event evs.
Proof.
  unfold invalidated, invalidateCache, bind, try_catch, emit, ret,
    redis_connect, redis_keys, redis_del, needs_connect.
  destruct w as [d t r c tr]; simpl.
  assert (E0 : forall l : list Event, (l ++ [EvInvalidate pattern])
               = l ++ EvInvalidate pattern :: []) by reflexivity.
  assert (E1 : forall (l : list Event) e, (l ++ [EvInvalidate pattern]) ++ [e]
               = l ++ EvInvalidate pattern :: [e])
    by (intros; rewrite <- app_assoc; reflexivity).
  assert (E2 : forall (l : list Event) e e',
               ((l ++ [EvInvalidate pattern]) ++ [e]) ++ [e']
               = l ++ EvInvalidate pattern :: [e; e'])
    by (intros; rewrite <- !app_assoc; reflexivity).
  destruct r as [[op cn ks dl]|]; simpl.
  2: { repeat split; eexists; split; [apply E0 | constructor]. }
  destruct op; simpl; [|destruct cn; simpl];
    try (destruct (ks pattern) as [l|]; simpl;
         [destruct (0 <? Z.of_nat (List.length l)); simpl;
          [destruct (dl l); simpl|]|]);
    repeat split; eexists;
    (split; [first [apply E2 | apply E1 | apply E0]
            | repeat constructor]).
Qed.

Lemma invalidated_db pattern w : db (invalidated pattern w) = db w.
Proof. apply invalidated_frame. Qed.

Lemma invalidated_txn pattern w : txn (invalidated pattern w) = txn w.
Proof. apply invalidated_frame. Qed.

Lemma invalidated_clock pattern w : clock (invalidated pattern w) = clock w.
Proof. apply invalidated_frame. Qed.

Lemma invalidated_trace pattern w :
  exists evs, trace (invalidated pattern w)
              = trace w ++ EvInvalidate pattern :: evs
              /\ Forall is_redis_event evs.
Proof. apply invalidated_frame. Qed.

Arguments invalidateCache : simpl never.

(** ** Running the write paths *)

Ltac unfold_monad :=
  unfold run, bind, try_catch, throw, ret, query, exec, now, emit,
    transaction, commit, rollback in *.


Lemma permission_eqb_eq p q :
  NoteShare.permission_eqb p q = true <-> p = q.
Proof. destruct p, q; simpl; split; congruence. Qed.

Lemma nonempty_filter (A : Type) (f : A -> bool) (l : list A) :
  (0 <? Z.of_nat (List.length (filter f l))) = true
  <-> exists x, In x l /\ f x = true.
Proof.
  rewrite Z.ltb_lt. split.
  - destruct (filter f l) as [|x l'] eqn:E; simpl; [lia|].
    intros _. exists x. apply filter_In. rewrite E. left. reflexivity.
  - intros (x & Hx & Hf).
    assert (Hin : In x (filter f l)) by (apply filter_In; auto).
    destruct (filter f l); simpl in *; [contradiction | lia].
Qed.

Lemma may_update_spec d n userId :
  may_update d n userId = true
  <-> is_owner n userId \/ has_edit_share d (Note.id n) userId.
Proof.
  unfold may_update, is_owner, has_edit_share, NoteShare_findAll.
  rewrite orb_true_iff, Z.eqb_eq, nonempty_filter.
  split; (intros [H|H]; [left; exact H | right]).
  - destruct H as (s & Hin & Hs).
    rewrite !andb_true_iff, !Z.eqb_eq, permission_eqb_eq in Hs.
    exists s. tauto.
  - destruct H as (s & Hin & H1 & H2 & H3). exists s. split; [exact Hin|].
    rewrite !andb_true_iff, !Z.eqb_eq, permission_eqb_eq. tauto.
Qed.

Lemma find_some_id (cond : Note.t -> bool) noteId l n :
  find (fun r => (Note.id r =? noteId) && cond r) l = Some n ->
  Note.id n = noteId.
Proof.
  intros H. apply find_some in H. destruct H as [_ H].
  apply andb_true_iff in H. apply Z.eqb_eq. tauto.
Qed.

Lemma live_note_id noteId d n : live_note noteId d = Some n -> Note.id n = noteId.
Proof. apply find_some_id. Qed.

Lemma live_note_live noteId d n :
  live_note noteId d = Some n -> Note.deletedAt n = None.
Proof.
  intros H. apply find_some in H. destruct H as [_ H].
  apply andb_true_iff in H. destruct H as [_ H].
  destruct (Note.deletedAt n); [discriminate | reflexivity].
Qed.

Lemma live_note_In noteId d n :
  live_note noteId d = Some n -> In n (rows (notes d)).
Proof. intros H. apply find_some in H. tauto. Qed.

Lemma updateNote_not_found noteId userId title content expectedVersion w :
  live_note noteId (db w) = None ->
  updateNote noteId userId title content expectedVersion w
  = (Throw "Note not found"%string, rolled_back w).
Proof.
  unfold live_note. intros H. unfold updateNote. unfold_monad. simpl.
  rewrite H. simpl. unfold rolled_back, log_event, set_txn, set_db. simpl.
  rewrite <- app_assoc. reflexivity.
Qed.

Lemma updateNote_denied noteId userId title content expectedVersion w n :
  live_note noteId (db w) = Some n ->
  may_update (db w) n userId = false ->
  updateNote noteId userId title content expectedVersion w
  = (Throw "Permission denied"%string, rolled_back w).
Proof.
  unfold live_note, may_update. intros H Hp. unfold updateNote. unfold_monad.
  simpl. rewrite H. simpl.
  apply orb_false_iff in Hp. destruct Hp as [Ho He]. rewrite Ho, He. simpl.
  unfold rolled_back, log_event, set_txn, set_db. simpl.
  rewrite <- app_assoc. reflexivity.
Qed.

Lemma updateNote_conflict noteId userId title content expectedVersion w n :
  live_note noteId (db w) = Some n ->
  may_update (db w) n userId = true ->
  Note.version n <> expectedVersion ->
  updateNote noteId userId title content expectedVersion w
  = (Throw version_conflict_message, rolled_back w).
Proof.
  unfold live_note, may_update. intros H Hp Hv. unfold updateNote. unfold_monad.
  simpl. rewrite H. simpl.
  replace (negb (Note.userId n =? userId) && _) with false
    by (symmetry; rewrite <- negb_orb, Hp; reflexivity).
  apply Z.eqb_neq in Hv. rewrite Hv. simpl.
  unfold rolled_back, log_event, set_txn, set_db. simpl.
  rewrite <- app_assoc. reflexivity.
Qed.


Lemma storable_spec title content :
  storable title content = true
  <-> notEmpty title = true /\ fits 255 title = true
      /\ fits_text content = true.
Proof. unfold storable. rewrite !andb_true_iff. tauto. Qed.

Lemma storable_saves n title content :
  storable title content = true ->
  Note_save_error n (Note.make (Note.id n) (Note.userId n) title content
                               (Note.version n + 1) (Note.deletedAt n)
                               (Note.createdAt n)) = None.
Proof.
  intros H. apply storable_spec in H. destruct H as (H1 & H2 & H3).
  unfold Note_save_error. simpl. rewrite H1, H2, H3. simpl.
  rewrite !andb_false_r. reflexivity.
Qed.

Lemma blank_title_refused n title content :
  title <> Note.title n ->
  notEmpty title = false ->
  Note_save_error n (Note.make (Note.id n) (Note.userId n) title content
                               (Note.version n + 1) (Note.deletedAt n)
                               (Note.createdAt n))
  = Some (SequelizeValidationError "notEmpty" "title").
Proof.
  intros Hne H. unfold Note_save_error. simpl.
  apply String.eqb_neq in Hne. rewrite Hne, H. reflexivity.
Qed.

Lemma long_title_refused n title content :
  title <> Note.title n ->
  fits 255 title = false ->
  exists message,
    Note_save_error n (Note.make (Note.id n) (Note.userId n) title content
                                 (Note.version n + 1) (Note.deletedAt n)
                                 (Note.createdAt n))
    = Some message.
Proof.
  intros Hne H. unfold Note_save_error. simpl.
  apply String.eqb_neq in Hne. rewrite Hne, H. simpl.
  destruct (notEmpty title); simpl; eexists; reflexivity.
Qed.

Lemma updateNote_ok noteId userId title content w n :
  live_note noteId (db w) = Some n ->
  may_update (db w) n userId = true ->
  Note_save_error n (Note.make (Note.id n) (Note.userId n) title content
                               (Note.version n + 1) (Note.deletedAt n)
                               (Note.createdAt n)) = None ->
  updateNote noteId userId title content (Note.version n) w
  = (Ok (Note.make (Note.id n) (Note.userId n) title content
                   (Note.version n + 1) (Note.deletedAt n) (Note.createdAt n)),
     invalidated (notes_cache_pattern userId)
       (committed (written n title content userId w) w)).
Proof.
  unfold live_note, may_update. intros H Hp Hs. unfold updateNote.
  unfold_monad. simpl. rewrite H. simpl.
  replace (negb (Note.userId n =? userId) && _) with false
    by (symmetry; rewrite <- negb_orb, Hp; reflexivity).
  rewrite Z.eqb_refl. simpl. unfold Note_save. rewrite Hs.
  unfold NoteVersion_create. simpl.
  rewrite invalidateCache_total.
  unfold committed, written, log_event, set_txn, set_db. simpl.
  rewrite <- !app_assoc. reflexivity.
Qed.

Lemma updateNote_refused noteId userId title content w n message :
  live_note noteId (db w) = Some n ->
  may_update (db w) n userId = true ->
  Note_save_error n (Note.make (Note.id n) (Note.userId n) title content
                               (Note.version n + 1) (Note.deletedAt n)
                               (Note.createdAt n)) = Some message ->
  updateNote noteId userId title content (Note.version n) w
  = (Throw message, rolled_back w).
Proof.
  unfold live_note, may_update. intros H Hp Hs. unfold updateNote.
  unfold_monad. simpl. rewrite H. simpl.
  replace (negb (Note.userId n =? userId) && _) with false
    by (symmetry; rewrite <- negb_orb, Hp; reflexivity).
  rewrite Z.eqb_refl. simpl. unfold Note_save. rewrite Hs. simpl.
  unfold rolled_back, log_event, set_txn, set_db. simpl.
  rewrite <- app_assoc. reflexivity.
Qed.

Lemma find_map_preserving (A : Type) (cond : A -> bool) (h : A -> A) l :
  (forall r, cond (h r) = cond r) ->
  find cond (map h l) = option_map h (find cond l).
Proof.
  intros Hh. induction l as [|r l IH]; simpl; [reflexivity|].
  rewrite Hh. destruct (cond r); [reflexivity | exact IH].
Qed.

Lemma live_note_written noteId n title content userId w :
  live_note noteId (db w) = Some n ->
  live_note noteId (written n title content userId w)
  = Some (Note.make (Note.id n) (Note.userId n) title content
                    (Note.version n + 1) (Note.deletedAt n) (Note.createdAt n)).
Proof.
  intros H. unfold live_note, Note_findOne, written. simpl.
  rewrite find_map_preserving.
  - unfold live_note, Note_findOne in H. rewrite H. simpl.
    rewrite Z.eqb_refl. reflexivity.
  - intros r. destruct (Note.id r =? Note.id n); reflexivity.
Qed.

Lemma note_by_id_written noteId n title content userId w :
  note_by_id noteId (db w) = Some n ->
  note_by_id noteId (written n title content userId w)
  = Some (Note.make (Note.id n) (Note.userId n) title content
                    (Note.version n + 1) (Note.deletedAt n) (Note.createdAt n)).
Proof.
  intros H. unfold note_by_id, written. simpl.
  rewrite find_map_preserving.
  - unfold note_by_id in H. rewrite H. simpl.
    rewrite Z.eqb_refl. reflexivity.
  - intros r. destruct (Note.id r =? Note.id n); reflexivity.
Qed.

Lemma written_versions n title content userId w :
  rows (note_versions (written n title content userId w))
  = rows (note_versions (db w))
    ++ [NoteVersion.make (auto_increment (note_versions (db w))) (Note.id n)
          title content (Note.version n + 1) userId (clock w)].
Proof. reflexivity. Qed.

(** C1, as stated, fails for a title the Note model or its table refuses:
    user 1 owns note 1 of the sample, live at version 1, and an update
    carrying version 1 is refused when its title is empty (by the validator
    of the model) and when its title has 256 characters (by the column); the
    transaction is rolled back and the store is left as it was. *)
Lemma update_refuses_some_titles :
  live_note 1 (db sample_world) = Some sample_note
  /\ is_owner sample_note 1
  /\ Note.version sample_note = 1
  /\ run (updateNote 1 1 EmptyString "milk, eggs" 1) sample_world
     = (Throw (SequelizeValidationError "notEmpty" "title"),
        rolled_back sample_world)
  /\ String.length overlong_title = 256%nat
  /\ run (updateNote 1 1 overlong_title "milk, eggs" 1) sample_world
     = (Throw (ER_DATA_TOO_LONG "title"), rolled_back sample_world)
  /\ db (rolled_back sample_world) = db sample_world.
Proof. repeat split; vm_compute; reflexivity. Qed.

(** C1, amended.  A live note at version V, an authorized caller (owner or
    holder of an edit share): an update carrying expectedVersion = V with a
    title and a content the model and the table accept (a title that is not
    blank, at most 255 characters, a content that fits its column) succeeds,
    the stored note then has version V+1 and the new title and content, and
    exactly one NoteVersion row is appended, carrying V+1, the new content
    and the caller's id; an update carrying V whose new title is blank is
    refused by the validator of the model, one whose new title is longer
    than 255 characters is refused as well, and both leave the whole store
    as it was; an update carrying any other expectedVersion fails with the
    version-conflict error and leaves the whole store as it was. *)
Theorem update_optimistic_lock :
  forall w noteId userId title content expectedVersion n,
    live_note noteId (db w) = Some n ->
    is_owner n userId \/ has_edit_share (db w) noteId userId ->
    (expectedVersion = Note.version n ->
     storable title content = true ->
     exists n' w' v,
       run (updateNote noteId userId title content expectedVersion) w
       = (Ok n', w')
       /\ live_note noteId (db w') = Some n'
       /\ Note.version n' = Note.version n + 1
       /\ Note.title n' = title /\ Note.content n' = content
       /\ rows (note_versions (db w')) = rows (note_versions (db w)) ++ [v]
       /\ NoteVersion.noteId v = noteId
       /\ NoteVersion.version v = Note.version n + 1
       /\ NoteVersion.title v = title /\ NoteVersion.content v = content
       /\ NoteVersion.changedBy v = userId)
    /\ (expectedVersion = Note.version n ->
        title <> Note.title n ->
        notEmpty title = false ->
        exists w',
          run (updateNote noteId userId title content expectedVersion) w
          = (Throw (SequelizeValidationError "notEmpty" "title"), w')
          /\ db w' = db w)
    /\ (expectedVersion = Note.version n ->
        title <> Note.title n ->
        fits 255 title = false ->
        exists message w',
          run (updateNote noteId userId title content expectedVersion) w
          = (Throw message, w')
          /\ db w' = db w)
    /\ (expectedVersion <> Note.version n ->
        exists w',
          run (updateNote noteId userId title content expectedVersion) w
          = (Throw version_conflict_message, w')
          /\ db w' = db w).
Proof.
  intros w noteId userId title content expectedVersion n Hn Hauth.
  pose proof (live_note_id _ _ _ Hn) as Hid.
  assert (Hp : may_update (db w) n userId = true)
    by (apply may_update_spec; rewrite Hid; exact Hauth).
  split; [|split; [|split]].
  - intros -> Hs. unfold run.
    rewrite (@updateNote_ok noteId userId title content w n Hn Hp
               (storable_saves n title content Hs)).
    do 3 eexists. split; [reflexivity|].
    rewrite invalidated_db. change (db (committed ?d _)) with d.
    split; [apply live_note_written; exact Hn|].
    rewrite written_versions. simpl. repeat split; auto.
  - intros -> Hne Hblank. unfold run.
    rewrite (@updateNote_refused noteId userId title content w n _ Hn Hp
               (blank_title_refused n title content Hne Hblank)).
    eexists. split; reflexivity.
  - intros -> Hne Hlong. unfold run.
    destruct (long_title_refused n title content Hne Hlong) as (message & He).
    rewrite (@updateNote_refused noteId userId title content w n _ Hn Hp He).
    do 2 eexists. split; reflexivity.
  - intros Hv. unfold run.
    rewrite (@updateNote_conflict noteId userId title content expectedVersion w n Hn Hp (not_eq_sym Hv)).
    eexists. split; reflexivity.
Qed.

Lemma update_optimistic_lock_witness :
  (exists n' w',
     run (updateNote 1 2 "Groceries" "milk, eggs" 1) sample_world = (Ok n', w')
     /\ Note.version n' = 2)
  /\ exists w',
       run (updateNote 1 2 "  " "milk, eggs" 1) sample_world
       = (Throw (SequelizeValidationError "notEmpty" "title"), w')
       /\ db w' = db sample_world.
Proof.
  destruct (@update_optimistic_lock sample_world 1 2 "Groceries" "milk, eggs" 1
              sample_note eq_refl) as (H & _).
  { right. eexists. split; [left; reflexivity|]. repeat split. }
  destruct (@update_optimistic_lock sample_world 1 2 "  " "milk, eggs" 1
              sample_note eq_refl) as (_ & H' & _).
  { right. eexists. split; [left; reflexivity|]. repeat split. }
  split.
  - destruct (H eq_refl eq_refl) as (n' & w' & v & Hrun & _ & Hv & _).
    exists n', w'. split; [exact Hrun | exact Hv].
  - apply H'; [reflexivity | discriminate | reflexivity].
Defined.

(** ** Revert *)

Lemma find_unique (A : Type) (key : A -> Z) (p : A -> bool) l x :
  NoDup (map key l) ->
  In x l -> p x = true ->
  (forall r, p r = true -> key r = key x) ->
  find p l = Some x.
Proof.
  intros Hnd Hin Hp Hkey. induction l as [|r l IH]; simpl in *; [contradiction|].
  inversion Hnd as [|? ? Hnotin Hnd']; subst.
  destruct (p r) eqn:Hr.
  - destruct Hin as [->|Hin]; [reflexivity|].
    exfalso. apply Hnotin. rewrite (Hkey r Hr). apply in_map. exact Hin.
  - destruct Hin as [->|Hin]; [congruence|]. apply IH; assumption.
Qed.

Lemma find_none_unique (A : Type) (key : A -> Z) (p : A -> bool) l x :
  NoDup (map key l) ->
  In x l -> p x = false ->
  (forall r, p r = true -> key r = key x) ->
  find p l = None.
Proof.
  intros Hnd Hin Hp Hkey. destruct (find p l) as [m|] eqn:E; [|reflexivity].
  exfalso. apply find_some in E. destruct E as [Hm Hpm].
  pose proof (@find_unique A key p l m Hnd Hm Hpm) as Hfm.
  assert (Hk : key m = key x) by (apply Hkey; exact Hpm).
  assert (Hx : m = x).
  { clear Hfm Hp Hpm Hkey. induction l as [|r l IH]; simpl in *; [contradiction|].
    inversion Hnd as [|? ? Hnotin Hnd']; subst.
    destruct Hin as [->|Hin], Hm as [->|Hm].
    - reflexivity.
    - exfalso. apply Hnotin. rewrite <- Hk. apply in_map. exact Hm.
    - exfalso. apply Hnotin. rewrite Hk. apply in_map. exact Hin.
    - apply IH; assumption. }
  congruence.
Qed.

Lemma find_strengthen (A : Type) (p q : A -> bool) l x :
  find p l = Some x -> q x = true ->
  (forall r, q r = true -> p r = true) ->
  find q l = Some x.
Proof.
  intros Hf Hq Himp. induction l as [|r l IH]; simpl in *; [discriminate|].
  destruct (p r) eqn:Hr.
  - injection Hf as ->. rewrite Hq. reflexivity.
  - destruct (q r) eqn:Hqr; [rewrite (Himp r Hqr) in Hr; discriminate|].
    apply IH. exact Hf.
Qed.

Lemma find_app_some (A : Type) (p : A -> bool) l l' x :
  find p l = Some x -> find p (l ++ l') = Some x.
Proof.
  induction l as [|r l IH]; simpl; [discriminate|].
  destruct (p r); auto.
Qed.

Lemma note_by_id_In noteId d n :
  note_by_id noteId d = Some n -> In n (rows (notes d)) /\ Note.id n = noteId.
Proof.
  intros H. apply find_some in H. rewrite Z.eqb_eq in H. exact H.
Qed.

Lemma owned_note_spec noteId userId d n :
  owned_note noteId userId d = Some n ->
  In n (rows (notes d)) /\ Note.id n = noteId /\ Note.userId n = userId
  /\ Note.deletedAt n = None.
Proof.
  intros H. apply find_some in H. destruct H as [Hin H].
  rewrite !andb_true_iff, !Z.eqb_eq in H. destruct H as [[H1 H2] H3].
  repeat split; auto. destruct (Note.deletedAt n); [discriminate|reflexivity].
Qed.

(* under the primary key, the lookups agree on the row they find *)
Lemma live_note_of_row noteId d n :
  primary_key d -> note_by_id noteId d = Some n ->
  Note.deletedAt n = None ->
  live_note noteId d = Some n.
Proof.
  intros Hpk Hn Hl. apply note_by_id_In in Hn. destruct Hn as [Hin Hid].
  apply find_unique with (key := Note.id); auto.
  - rewrite Hid, Hl, !Z.eqb_refl. reflexivity.
  - intros r Hr. rewrite !andb_true_iff, !Z.eqb_eq in Hr. intuition congruence.
Qed.

Lemma owned_note_none_not_owner noteId userId d n :
  primary_key d -> note_by_id noteId d = Some n ->
  Note.userId n <> userId ->
  owned_note noteId userId d = None.
Proof.
  intros Hpk Hn Ho. apply note_by_id_In in Hn. destruct Hn as [Hin Hid].
  apply find_none_unique with (key := Note.id) (x := n); auto.
  - apply Z.eqb_neq in Ho. rewrite Ho, andb_false_r. reflexivity.
  - intros r Hr. rewrite !andb_true_iff, !Z.eqb_eq in Hr. intuition congruence.
Qed.

Lemma revert_denied noteId userId targetVersion w :
  owned_note noteId userId (db w) = None ->
  revertToVersion noteId userId targetVersion w
  = (Throw "Note not found or permission denied"%string, rolled_back w).
Proof.
  unfold owned_note. intros H. unfold revertToVersion. unfold_monad. simpl.
  rewrite H. simpl. unfold rolled_back, log_event, set_txn, set_db. simpl.
  rewrite <- app_assoc. reflexivity.
Qed.

Lemma revert_version_not_found noteId userId targetVersion w n :
  owned_note noteId userId (db w) = Some n ->
  version_record noteId targetVersion (db w) = None ->
  revertToVersion noteId userId targetVersion w
  = (Throw "Version not found"%string, rolled_back w).
Proof.
  unfold owned_note, version_record. intros H Hv.
  unfold revertToVersion. unfold_monad. simpl.
  rewrite H. simpl. rewrite Hv. simpl.
  unfold rolled_back, log_event, set_txn, set_db. simpl.
  rewrite <- app_assoc. reflexivity.
Qed.

Lemma revert_ok noteId userId targetVersion w n tv :
  owned_note noteId userId (db w) = Some n ->
  version_record noteId targetVersion (db w) = Some tv ->
  Note_save_error n (Note.make (Note.id n) (Note.userId n)
                               (NoteVersion.title tv) (NoteVersion.content tv)
                               (Note.version n + 1) (Note.deletedAt n)
                               (Note.createdAt n)) = None ->
  revertToVersion noteId userId targetVersion w
  = (Ok (Note.make (Note.id n) (Note.userId n) (NoteVersion.title tv)
                   (NoteVersion.content tv) (Note.version n + 1)
                   (Note.deletedAt n) (Note.createdAt n)),
     invalidated (notes_cache_pattern userId)
       (committed (written n (NoteVersion.title tv) (NoteVersion.content tv)
                           userId w) w)).
Proof.
  unfold owned_note, version_record. intros H Hv Hs.
  unfold revertToVersion. unfold_monad. simpl.
  rewrite H. simpl. rewrite Hv. simpl.
  unfold Note_save. rewrite Hs. unfold NoteVersion_create. simpl.
  rewrite invalidateCache_total.
  unfold committed, written, log_event, set_txn, set_db. simpl.
  rewrite <- !app_assoc. reflexivity.
Qed.

Lemma revert_refused noteId userId targetVersion w n tv message :
  owned_note noteId userId (db w) = Some n ->
  version_record noteId targetVersion (db w) = Some tv ->
  Note_save_error n (Note.make (Note.id n) (Note.userId n)
                               (NoteVersion.title tv) (NoteVersion.content tv)
                               (Note.version n + 1) (Note.deletedAt n)
                               (Note.createdAt n)) = Some message ->
  revertToVersion noteId userId targetVersion w
  = (Throw message, rolled_back w).
Proof.
  unfold owned_note, version_record. intros H Hv Hs.
  unfold revertToVersion. unfold_monad. simpl.
  rewrite H. simpl. rewrite Hv. simpl.
  unfold Note_save. rewrite Hs. simpl.
  unfold rolled_back, log_event, set_txn, set_db. simpl.
  rewrite <- app_assoc. reflexivity.
Qed.

Lemma owned_note_of_live noteId userId d n :
  live_note noteId d = Some n -> is_owner n userId ->
  owned_note noteId userId d = Some n.
Proof.
  intros Hn Ho. unfold owned_note, Note_findOne.
  apply find_strengthen with (p := fun r => (Note.id r =? noteId)
                                           && is_null (Note.deletedAt r)).
  - exact Hn.
  - rewrite (live_note_id _ _ _ Hn), (live_note_live _ _ _ Hn), Ho, !Z.eqb_refl.
    reflexivity.
  - intros r Hr. rewrite !andb_true_iff in *. tauto.
Qed.

(** ** Editors update, owners revert *)

(** C4, as stated, fails for a title the Note model or its table refuses:
    user 2 holds an edit share on note 1 of the sample, live at version 1,
    and does not own it; the update user 2 sends with version 1 is refused
    when its title is empty and when its title has 256 characters, and the
    store is left as it was. *)
Lemma editor_update_refuses_some_titles :
  has_edit_share (db sample_world) 1 2
  /\ ~ is_owner sample_note 2
  /\ live_note 1 (db sample_world) = Some sample_note
  /\ run (updateNote 1 2 EmptyString "milk, eggs" (Note.version sample_note))
         sample_world
     = (Throw (SequelizeValidationError "notEmpty" "title"),
        rolled_back sample_world)
  /\ run (updateNote 1 2 overlong_title "milk, eggs"
                     (Note.version sample_note)) sample_world
     = (Throw (ER_DATA_TOO_LONG "title"), rolled_back sample_world)
  /\ db (rolled_back sample_world) = db sample_world.
Proof.
  split.
  { eexists. split; [left; reflexivity|]. repeat split. }
  split; [unfold is_owner; simpl; discriminate|].
  repeat split; vm_compute; reflexivity.
Qed.

(** C4, amended.  A caller who holds an edit share on a note and is not its
    owner: an update carrying the note's current version, with a title and a
    content the model and the table accept (a title that is not blank, at
    most 255 characters, a content that fits its column), succeeds (the note
    being live), whereas every revert fails with "Note not found or
    permission denied" and leaves the store as it was; and whenever a revert
    succeeds, the caller owns a live note with that id. *)
Theorem editor_updates_only_owner_reverts :
  (forall w noteId userId n,
     primary_key (db w) ->
     note_by_id noteId (db w) = Some n ->
     has_edit_share (db w) noteId userId ->
     ~ is_owner n userId ->
     (Note.deletedAt n = None ->
      forall title content,
      storable title content = true ->
      exists n' w',
        run (updateNote noteId userId title content (Note.version n)) w
        = (Ok n', w')
        /\ live_note noteId (db w') = Some n'
        /\ Note.version n' = Note.version n + 1
        /\ Note.title n' = title /\ Note.content n' = content)
     /\ (forall targetVersion,
         exists w',
           run (revertToVersion noteId userId targetVersion) w
           = (Throw "Note not found or permission denied"%string, w')
           /\ db w' = db w))
  /\ (forall w noteId userId targetVersion n' w',
        run (revertToVersion noteId userId targetVersion) w = (Ok n', w') ->
        exists n, In n (rows (notes (db w)))
                  /\ Note.id n = noteId /\ Note.deletedAt n = None
                  /\ is_owner n userId).
Proof.
  split.
  - intros w noteId userId n Hpk Hn Hshare Hnot. split.
    + intros Hlive title content Hs.
      pose proof (live_note_of_row _ _ _ Hpk Hn Hlive) as Hl.
      assert (Hp : may_update (db w) n userId = true).
      { apply may_update_spec. right.
        rewrite (live_note_id _ _ _ Hl). exact Hshare. }
      unfold run.
      rewrite (updateNote_ok noteId userId title content w n Hl Hp
                 (storable_saves n title content Hs)).
      do 2 eexists. split; [reflexivity|].
      rewrite invalidated_db. change (db (committed ?d _)) with d.
      split; [apply live_note_written; exact Hl|]. repeat split.
    + intros targetVersion. unfold run.
      rewrite revert_denied
        by (apply owned_note_none_not_owner with (n := n); assumption).
      eexists. split; reflexivity.
  - intros w noteId userId targetVersion n' w' Hrun. unfold run in Hrun.
    destruct (owned_note noteId userId (db w)) as [n|] eqn:E.
    + apply owned_note_spec in E. exists n. unfold is_owner. tauto.
    + rewrite (revert_denied _ _ _ _ E) in Hrun. discriminate.
Qed.

Lemma editor_updates_only_owner_reverts_witness :
  (exists n' w',
     run (updateNote 1 2 "Groceries" "milk, eggs" 1) sample_world = (Ok n', w')
     /\ Note.version n' = 2)
  /\ (exists w',
        run (revertToVersion 1 2 1) sample_world
        = (Throw "Note not found or permission denied"%string, w')
        /\ db w' = db sample_world).
Proof.
  destruct editor_updates_only_owner_reverts as [H _].
  destruct (H sample_world 1 2 sample_note) as [Hu Hr].
  - repeat constructor; simpl; intuition discriminate.
  - reflexivity.
  - eexists. split; [left; reflexivity|]. repeat split.
  - unfold is_owner. simpl. discriminate.
  - split.
    + destruct (Hu eq_refl "Groceries"%string "milk, eggs"%string eq_refl)
        as (n' & w' & Hrun & _ & Hv & _).
      exists n', w'. split; assumption.
    + exact (Hr 1).
Defined.

(** ** Commit first, then the cache *)

Lemma updateNote_cases noteId userId title content expectedVersion w :
  (exists msg,
     updateNote noteId userId title content expectedVersion w
     = (Throw msg, rolled_back w))
  \/ (exists n,
        live_note noteId (db w) = Some n
        /\ may_update (db w) n userId = true
        /\ expectedVersion = Note.version n
        /\ updateNote noteId userId title content expectedVersion w
           = (Ok (Note.make (Note.id n) (Note.userId n) title content
                            (Note.version n + 1) (Note.deletedAt n)
                            (Note.createdAt n)),
              invalidated (notes_cache_pattern userId)
                (committed (written n title content userId w) w))).
Proof.
  destruct (live_note noteId (db w)) as [n|] eqn:Hn.
  - destruct (may_update (db w) n userId) eqn:Hp.
    + destruct (Z.eq_dec (Note.version n) expectedVersion) as [<-|Hv].
      * destruct (Note_save_error n
                    (Note.make (Note.id n) (Note.userId n) title content
                               (Note.version n + 1) (Note.deletedAt n)
                               (Note.createdAt n))) as [message|] eqn:Hs.
        -- left. eexists. eapply updateNote_refused; eassumption.
        -- right. exists n.
           do 3 (split; [first [reflexivity | assumption]|]).
           apply updateNote_ok; assumption.
      * left. eexists. eapply updateNote_conflict; eassumption.
    + left. eexists. eapply updateNote_denied; eassumption.
  - left. eexists. apply updateNote_not_found; assumption.
Qed.

Lemma revert_cases noteId userId targetVersion w :
  (exists msg,
     revertToVersion noteId userId targetVersion w
     = (Throw msg, rolled_back w))
  \/ (exists n tv,
        owned_note noteId userId (db w) = Some n
        /\ version_record noteId targetVersion (db w) = Some tv
        /\ revertToVersion noteId userId targetVersion w
           = (Ok (Note.make (Note.id n) (Note.userId n) (NoteVersion.title tv)
                            (NoteVersion.content tv) (Note.version n + 1)
                            (Note.deletedAt n) (Note.createdAt n)),
              invalidated (notes_cache_pattern userId)
                (committed (written n (NoteVersion.title tv)
                                    (NoteVersion.content tv) userId w) w))).
Proof.
  destruct (owned_note noteId userId (db w)) as [n|] eqn:Hn.
  - destruct (version_record noteId targetVersion (db w)) as [tv|] eqn:Hv.
    + destruct (Note_save_error n
                  (Note.make (Note.id n) (Note.userId n)
                             (NoteVersion.title tv) (NoteVersion.content tv)
                             (Note.version n + 1) (Note.deletedAt n)
                             (Note.createdAt n))) as [message|] eqn:Hs.
      * left. eexists. eapply revert_refused; eassumption.
      * right. exists n, tv.
        do 2 (split; [first [reflexivity | assumption]|]).
        apply revert_ok; assumption.
    + left. eexists. eapply revert_version_not_found; eassumption.
  - left. eexists. apply revert_denied; assumption.
Qed.

Lemma committed_trace p d w :
  exists evs,
    trace (invalidated p (committed d w))
    = trace w ++ EvBegin :: EvWrite "notes" :: EvWrite "note_versions"
              :: EvCommit :: EvInvalidate p :: evs
    /\ Forall is_redis_event evs.
Proof.
  destruct (invalidated_trace p (committed d w)) as (evs & Ht & Hevs).
  exists evs. split; [|exact Hevs]. rewrite Ht. simpl.
  rewrite <- app_assoc. reflexivity.
Qed.

Lemma updateNote_redis r noteId userId title content expectedVersion w :
  fst (updateNote noteId userId title content expectedVersion (set_redis r w))
  = fst (updateNote noteId userId title content expectedVersion w)
  /\ db (snd (updateNote noteId userId title content expectedVersion
                         (set_redis r w)))
     = db (snd (updateNote noteId userId title content expectedVersion w)).
Proof.
  destruct (live_note noteId (db w)) as [n|] eqn:Hn.
  - destruct (may_update (db w) n userId) eqn:Hp.
    + destruct (Z.eq_dec (Note.version n) expectedVersion) as [<-|Hv].
      * destruct (Note_save_error n
                    (Note.make (Note.id n) (Note.userId n) title content
                               (Note.version n + 1) (Note.deletedAt n)
                               (Note.createdAt n))) as [message|] eqn:Hs.
        -- rewrite !(updateNote_refused _ _ _ _ _ n message) by assumption.
           split; reflexivity.
        -- rewrite !updateNote_ok by assumption. simpl.
           rewrite !invalidated_db. split; reflexivity.
      * rewrite !(updateNote_conflict _ _ _ _ _ _ n) by assumption.
        split; reflexivity.
    + rewrite !(updateNote_denied _ _ _ _ _ _ n) by assumption.
      split; reflexivity.
  - rewrite !updateNote_not_found by assumption. split; reflexivity.
Qed.

Lemma revert_redis r noteId userId targetVersion w :
  fst (revertToVersion noteId userId targetVersion (set_redis r w))
  = fst (revertToVersion noteId userId targetVersion w)
  /\ db (snd (revertToVersion noteId userId targetVersion (set_redis r w)))
     = db (snd (revertToVersion noteId userId targetVersion w)).
Proof.
  destruct (owned_note noteId userId (db w)) as [n|] eqn:Hn.
  - destruct (version_record noteId targetVersion (db w)) as [tv|] eqn:Hv.
    + destruct (Note_save_error n
                  (Note.make (Note.id n) (Note.userId n)
                             (NoteVersion.title tv) (NoteVersion.content tv)
                             (Note.version n + 1) (Note.deletedAt n)
                             (Note.createdAt n))) as [message|] eqn:Hs.
      * rewrite !(revert_refused _ _ _ _ n tv message) by assumption.
        split; reflexivity.
      * rewrite !(revert_ok _ _ _ _ n tv) by assumption. simpl.
        rewrite !invalidated_db. split; reflexivity.
    + rewrite !(revert_version_not_found _ _ _ _ n) by assumption.
      split; reflexivity.
  - rewrite !revert_denied by assumption. split; reflexivity.
Qed.

(** ** A cache server that does not answer *)

Ltac unfold_async :=
  unfold invalidateCache_awaited, async_bind, async_try, async_ret, await,
    socket_connect, socket_keys, socket_del, socket_needs_connect.

(* whatever the promises of the client do, the call does not throw *)
Lemma invalidateCache_awaited_cases redisClient pattern evs :
  exists evs',
    invalidateCache_awaited redisClient pattern evs = (Settled (Ok tt), evs')
    \/ invalidateCache_awaited redisClient pattern evs = (Unsettled, evs').
Proof.
  unfold_async.
  destruct redisClient as [[op cn ks dl]|]; simpl; [|eauto].
  destruct op; simpl; [|destruct cn; simpl; eauto];
    (destruct (ks pattern) as [l| |]; simpl; eauto;
     destruct (0 <? Z.of_nat (List.length l)); simpl; eauto;
     destruct (dl l); simpl; eauto).
Qed.

(* on a client whose commands settle it is [invalidateCache] *)
Lemma invalidateCache_awaited_settling pattern w :
  invalidateCache_awaited (option_map settling (redis w)) pattern (trace w)
  = (Settled (Ok tt), trace (invalidated pattern w)).
Proof.
  unfold invalidated, invalidateCache, bind, try_catch, emit, ret,
    redis_connect, redis_keys, redis_del, needs_connect.
  unfold_async.
  destruct w as [d t r c tr]; simpl.
  destruct r as [[op cn ks dl]|]; simpl; [|reflexivity].
  destruct op; simpl.
  - destruct (ks pattern) as [l|]; simpl; [|reflexivity].
    destruct (0 <? Z.of_nat (List.length l)); simpl; [|reflexivity].
    destruct (dl l); reflexivity.
  - destruct cn; simpl; [|reflexivity].
    rewrite app_nil_r.
    destruct (ks pattern) as [l|]; simpl; [|reflexivity].
    destruct (0 <? Z.of_nat (List.length l)); simpl; [|reflexivity].
    destruct (dl l); reflexivity.
Qed.

(** C5.  Whenever an update or a revert succeeds, the transaction is in state
    "commit" and the effects it added to the trace are, in this order: begin,
    the write of the note, the write of the version row, commit, the call of
    invalidateCache, and then only commands sent to the cache server: the
    cache is told strictly after the commit of both writes.  Whatever a
    cache client whose commands settle does (absent, closed, refusing to
    connect, failing on KEYS or DEL), the result returned to the caller and
    the store left behind are the same.  invalidateCache itself, followed
    with promises that may stay pending, never throws, and on a client whose
    commands settle it returns; but while the server cannot be reached the
    client's connect(), or its KEYS when the socket counts as open, stays
    pending, and then the call of invalidateCache never settles: the update
    that awaits it, committed as it is, reports nothing to its caller. *)
Theorem cache_invalidation_follows_commit :
  (forall w noteId userId title content expectedVersion n' w',
     run (updateNote noteId userId title content expectedVersion) w
     = (Ok n', w') ->
     txn w' = TxFinished "commit"
     /\ exists evs,
          trace w' = trace w ++ EvBegin :: EvWrite "notes"
                             :: EvWrite "note_versions" :: EvCommit
                             :: EvInvalidate (notes_cache_pattern userId) :: evs
          /\ Forall is_redis_event evs)
  /\ (forall w noteId userId targetVersion n' w',
        run (revertToVersion noteId userId targetVersion) w = (Ok n', w') ->
        txn w' = TxFinished "commit"
        /\ exists evs,
             trace w' = trace w ++ EvBegin :: EvWrite "notes"
                                :: EvWrite "note_versions" :: EvCommit
                                :: EvInvalidate (notes_cache_pattern userId) :: evs
             /\ Forall is_redis_event evs)
  /\ (forall w r noteId userId title content expectedVersion,
        let cached := run (updateNote noteId userId title content expectedVersion)
                          (set_redis r w) in
        let plain := run (updateNote noteId userId title content expectedVersion)
                         w in
        fst cached = fst plain /\ db (snd cached) = db (snd plain))
  /\ (forall w r noteId userId targetVersion,
        let cached := run (revertToVersion noteId userId targetVersion)
                          (set_redis r w) in
        let plain := run (revertToVersion noteId userId targetVersion) w in
        fst cached = fst plain /\ db (snd cached) = db (snd plain))
  /\ (forall redisClient pattern evs message,
        fst (invalidateCache_awaited redisClient pattern evs)
        <> Settled (Throw message))
  /\ (forall w pattern,
        run (invalidateCache pattern) w = (Ok tt, invalidated pattern w)
        /\ invalidateCache_awaited (option_map settling (redis w)) pattern
                                   (trace w)
           = (Settled (Ok tt), trace (invalidated pattern w)))
  /\ (forall userId evs,
        fst (invalidateCache_awaited (Some unreachable_closed)
                                     (notes_cache_pattern userId) evs)
        = Unsettled
        /\ fst (invalidateCache_awaited (Some unreachable_open)
                                        (notes_cache_pattern userId) evs)
           = Unsettled).
Proof.
  split; [|split; [|split; [|split; [|split; [|split]]]]].
  - intros w noteId userId title content expectedVersion n' w' H.
    unfold run in H.
    destruct (updateNote_cases noteId userId title content expectedVersion w)
      as [(msg & E)|(n & _ & _ & _ & E)]; rewrite E in H; [discriminate|].
    injection H as _ <-. rewrite invalidated_txn.
    split; [reflexivity | apply committed_trace].
  - intros w noteId userId targetVersion n' w' H. unfold run in H.
    destruct (revert_cases noteId userId targetVersion w)
      as [(msg & E)|(n & tv & _ & _ & E)]; rewrite E in H; [discriminate|].
    injection H as _ <-. rewrite invalidated_txn.
    split; [reflexivity | apply committed_trace].
  - intros w r noteId userId title content expectedVersion. simpl.
    apply updateNote_redis.
  - intros w r noteId userId targetVersion. simpl. apply revert_redis.
  - intros redisClient pattern evs message.
    destruct (invalidateCache_awaited_cases redisClient pattern evs)
      as (evs' & [E|E]); rewrite E; discriminate.
  - intros w pattern. split.
    + apply invalidateCache_total.
    + apply invalidateCache_awaited_settling.
  - intros userId evs. split; reflexivity.
Qed.

Lemma cache_invalidation_follows_commit_witness :
  (exists n' w' evs,
     run (updateNote 1 1 "Groceries" "bread" 1) sample_world_cache_down
     = (Ok n', w')
     /\ trace w' = trace sample_world_cache_down
                   ++ EvBegin :: EvWrite "notes" :: EvWrite "note_versions"
                      :: EvCommit
                      :: EvInvalidate "cache:/api/v1/notes*:1" :: evs)
  /\ fst (invalidateCache_awaited (Some unreachable_closed)
                                  (notes_cache_pattern 1)
                                  [EvBegin; EvWrite "notes";
                                   EvWrite "note_versions"; EvCommit])
     = Unsettled.
Proof.
  destruct cache_invalidation_follows_commit
    as (H & _ & _ & _ & _ & _ & Hpending).
  split; [|exact (proj1 (Hpending 1 _))].
  assert (Hrun : run (updateNote 1 1 "Groceries" "bread" 1)
                     sample_world_cache_down
                 = (Ok (Note.make 1 1 "Groceries" "bread" 2 None 0),
                    snd (run (updateNote 1 1 "Groceries" "bread" 1)
                             sample_world_cache_down)))
    by (vm_compute; reflexivity).
  destruct (H _ _ _ _ _ _ _ _ Hrun) as (_ & evs & Ht & _).
  do 3 eexists. split; [exact Hrun | exact Ht].
Defined.

(** ** What a stranger learns *)

Lemma find_all_false (A : Type) (p : A -> bool) l :
  (forall x, In x l -> p x = false) -> find p l = None.
Proof.
  induction l as [|r l IH]; simpl; intros H; [reflexivity|].
  rewrite (H r (or_introl eq_refl)). apply IH. intros x Hx. apply H. auto.
Qed.

Lemma existsb_all_false (A : Type) (p : A -> bool) l :
  (forall x, In x l -> p x = false) -> existsb p l = false.
Proof.
  induction l as [|r l IH]; simpl; intros H; [reflexivity|].
  rewrite (H r (or_introl eq_refl)). apply IH. intros x Hx. apply H. auto.
Qed.

Lemma absent_no_row d noteId n :
  absent d noteId -> In n (rows (notes d)) -> (Note.id n =? noteId) = false.
Proof.
  intros Ha Hin. apply (find_none _ _ Ha n Hin).
Qed.

Lemma stranger_not_shared d n userId :
  ~ has_share d (Note.id n) userId -> shared_with d n userId = false.
Proof.
  intros Hs. apply existsb_all_false. intros s Hin.
  destruct ((NoteShare.noteId s =? Note.id n)
            && (NoteShare.sharedWithUserId s =? userId)) eqn:E; [|reflexivity].
  exfalso. apply Hs. exists s. rewrite andb_true_iff, !Z.eqb_eq in E. tauto.
Qed.

Lemma stranger_not_shared_edit d n userId :
  ~ has_share d (Note.id n) userId -> shared_with_edit d n userId = false.
Proof.
  intros Hs. apply existsb_all_false. intros s Hin. cbv beta.
  destruct ((NoteShare.noteId s =? Note.id n)
            && (NoteShare.sharedWithUserId s =? userId)) eqn:E;
    [|reflexivity].
  exfalso. apply Hs. exists s. rewrite andb_true_iff, !Z.eqb_eq in E. tauto.
Qed.

Lemma owned_note_absent d noteId userId :
  absent d noteId -> owned_note noteId userId d = None.
Proof.
  intros Ha. apply find_all_false. intros n Hin.
  rewrite (absent_no_row _ _ _ Ha Hin). reflexivity.
Qed.

Lemma owned_note_stranger d noteId userId :
  no_relation d noteId userId -> owned_note noteId userId d = None.
Proof.
  intros [Hno _]. apply find_all_false. intros n Hin.
  destruct (Note.id n =? noteId) eqn:E; [|reflexivity].
  apply Z.eqb_eq in E. apply (Hno n Hin) in E. apply Z.eqb_neq in E.
  rewrite E. reflexivity.
Qed.

Lemma live_note_absent d noteId :
  absent d noteId -> live_note noteId d = None.
Proof.
  intros Ha. apply find_all_false. intros n Hin.
  rewrite (absent_no_row _ _ _ Ha Hin). reflexivity.
Qed.

Lemma getNoteById_hidden noteId userId w :
  absent (db w) noteId \/ no_relation (db w) noteId userId ->
  run (getNoteById noteId userId) w
  = (Throw "Note not found or access denied"%string, w).
Proof.
  intros H. unfold getNoteById. unfold_monad. unfold Note_findOne.
  rewrite find_all_false; [reflexivity|].
  intros n Hin. destruct H as [Ha|[Hno Hs]].
  - rewrite (absent_no_row _ _ _ Ha Hin). reflexivity.
  - destruct (Note.id n =? noteId) eqn:E; [|reflexivity].
    apply Z.eqb_eq in E. subst noteId.
    rewrite (stranger_not_shared _ _ _ Hs).
    pose proof (Hno n Hin eq_refl) as Hne. apply Z.eqb_neq in Hne.
    rewrite Hne. reflexivity.
Qed.

Lemma addAttachment_hidden noteId userId file w :
  absent (db w) noteId \/ no_relation (db w) noteId userId ->
  run (addAttachment noteId userId file) w
  = (Throw "Note not found or permission denied"%string, w).
Proof.
  intros H. unfold addAttachment. unfold_monad. unfold Note_findOne.
  rewrite find_all_false; [reflexivity|].
  intros n Hin. destruct H as [Ha|[Hno Hs]].
  - rewrite (absent_no_row _ _ _ Ha Hin). reflexivity.
  - destruct (Note.id n =? noteId) eqn:E; [|reflexivity].
    apply Z.eqb_eq in E. subst noteId.
    rewrite (stranger_not_shared_edit _ _ _ Hs).
    pose proof (Hno n Hin eq_refl) as Hne. apply Z.eqb_neq in Hne.
    rewrite Hne. reflexivity.
Qed.

Lemma deleteNote_denied noteId userId w :
  owned_note noteId userId (db w) = None ->
  run (deleteNote noteId userId) w
  = (Throw "Note not found or permission denied"%string, w).
Proof.
  unfold owned_note. intros H. unfold deleteNote. unfold_monad.
  rewrite H. reflexivity.
Qed.

Lemma shareNote_self noteId userId permission w :
  run (shareNote noteId userId userId permission) w
  = (Throw "Cannot share note with yourself"%string, w).
Proof.
  unfold shareNote, run. rewrite Z.eqb_refl. reflexivity.
Qed.

Lemma shareNote_denied noteId ownerId sharedWithUserId permission w :
  ownerId <> sharedWithUserId ->
  owned_note noteId ownerId (db w) = None ->
  run (shareNote noteId ownerId sharedWithUserId permission) w
  = (Throw "Note not found or permission denied"%string, w).
Proof.
  unfold owned_note. intros Hne H. unfold shareNote.
  apply Z.eqb_neq in Hne. rewrite Hne. unfold_monad. rewrite H. reflexivity.
Qed.

Lemma may_update_stranger d noteId userId n :
  live_note noteId d = Some n ->
  no_relation d noteId userId ->
  may_update d n userId = false.
Proof.
  intros Hn [Hno Hs].
  destruct (may_update d n userId) eqn:E; [|reflexivity]. exfalso.
  apply may_update_spec in E. rewrite (live_note_id _ _ _ Hn) in E.
  destruct E as [Ho|(s & Hin & H1 & H2 & _)].
  - exact (Hno n (live_note_In _ _ _ Hn) (live_note_id _ _ _ Hn) Ho).
  - apply Hs. exists s. tauto.
Qed.

Lemma sample_stranger : no_relation (db sample_world) 1 3.
Proof.
  split.
  - simpl. intros n [<-|[]] _. discriminate.
  - intros (s & Hin & _ & H2). simpl in Hin. destruct Hin as [<-|[]].
    discriminate.
Qed.

(** C6, as stated, fails on the update path: user 3 has no relation to note 1
    of the sample, and an update of note 1 is answered "Permission denied"
    while an update of note 99, which does not exist, is answered
    "Note not found". *)
Lemma update_tells_forbidden_from_missing :
  fst (run (updateNote 1 3 "x" "y" 1) sample_world)
  = Throw "Permission denied"%string
  /\ fst (run (updateNote 99 3 "x" "y" 1) sample_world)
     = Throw "Note not found"%string
  /\ ~ hides_existence (fun noteId userId => updateNote noteId userId "x" "y" 1).
Proof.
  split; [reflexivity|]. split; [reflexivity|].
  intros H. specialize (H sample_world 1 99 3).
  assert (E : fst (run (updateNote 1 3 "x" "y" 1) sample_world)
              = fst (run (updateNote 99 3 "x" "y" 1) sample_world)).
  { apply H.
    - discriminate.
    - exact sample_stranger.
    - reflexivity. }
  vm_compute in E. discriminate.
Qed.

(** C6, amended.  To a caller with no owner, editor or viewer relation to a
    note, a read by id, a delete, a revert, a share and an attachment upload
    answer with the same error whether the note exists or not; an update does
    not: on a live note it answers "Permission denied", on a note that does
    not exist "Note not found". *)
Theorem stranger_cannot_probe_except_by_update :
  hides_existence getNoteById
  /\ hides_existence deleteNote
  /\ (forall targetVersion,
        hides_existence (fun noteId userId =>
                           revertToVersion noteId userId targetVersion))
  /\ (forall sharedWithUserId permission,
        hides_existence (fun noteId userId =>
                           shareNote noteId userId sharedWithUserId permission))
  /\ (forall file,
        hides_existence (fun noteId userId => addAttachment noteId userId file))
  /\ (forall w noteId userId title content expectedVersion,
        no_relation (db w) noteId userId ->
        live_note noteId (db w) <> None ->
        fst (run (updateNote noteId userId title content expectedVersion) w)
        = Throw "Permission denied"%string)
  /\ (forall w noteId userId title content expectedVersion,
        absent (db w) noteId ->
        fst (run (updateNote noteId userId title content expectedVersion) w)
        = Throw "Note not found"%string).
Proof.
  repeat split.
  - intros w existing missing userId _ Hno Ha.
    rewrite !getNoteById_hidden by tauto. reflexivity.
  - intros w existing missing userId _ Hno Ha.
    rewrite !deleteNote_denied
      by first [apply owned_note_stranger; assumption
               | apply owned_note_absent; assumption].
    reflexivity.
  - intros targetVersion w existing missing userId _ Hno Ha. unfold run.
    rewrite !revert_denied
      by first [apply owned_note_stranger; assumption
               | apply owned_note_absent; assumption].
    reflexivity.
  - intros sharedWithUserId permission w existing missing userId _ Hno Ha.
    destruct (Z.eq_dec userId sharedWithUserId) as [E|Hne].
    + rewrite <- E, !shareNote_self. reflexivity.
    + rewrite !shareNote_denied
        by first [assumption | apply owned_note_stranger; assumption
                 | apply owned_note_absent; assumption].
      reflexivity.
  - intros file w existing missing userId _ Hno Ha.
    rewrite !addAttachment_hidden by tauto. reflexivity.
  - intros w noteId userId title content expectedVersion Hno Hlive. unfold run.
    destruct (live_note noteId (db w)) as [n|] eqn:Hn; [|congruence].
    rewrite (updateNote_denied _ _ _ _ _ _ n Hn
               (may_update_stranger _ _ _ _ Hn Hno)).
    reflexivity.
  - intros w noteId userId title content expectedVersion Ha. unfold run.
    rewrite updateNote_not_found by (apply live_note_absent; exact Ha).
    reflexivity.
Qed.

Lemma stranger_cannot_probe_except_by_update_witness :
  fst (run (getNoteById 1 3) sample_world)
  = fst (run (getNoteById 99 3) sample_world)
  /\ fst (run (updateNote 1 3 "x" "y" 1) sample_world)
     = Throw "Permission denied"%string.
Proof.
  destruct stranger_cannot_probe_except_by_update
    as (Hget & _ & _ & _ & _ & Hupd & _).
  split.
  - apply (Hget sample_world 1 99 3).
    + discriminate.
    + exact sample_stranger.
    + reflexivity.
  - apply (Hupd sample_world 1 3).
    + exact sample_stranger.
    + discriminate.
Defined.

(** ** Sharing *)

Lemma shareNote_no_user noteId ownerId sharedWithUserId permission w n :
  ownerId <> sharedWithUserId ->
  owned_note noteId ownerId (db w) = Some n ->
  User_findByPk sharedWithUserId (db w) = None ->
  run (shareNote noteId ownerId sharedWithUserId permission) w
  = (Throw "User not found"%string, w).
Proof.
  unfold owned_note. intros Hne H Hu. unfold shareNote.
  apply Z.eqb_neq in Hne. rewrite Hne. unfold_monad. rewrite H, Hu. reflexivity.
Qed.

Lemma shareNote_ok noteId ownerId sharedWithUserId permission w n u :
  ownerId <> sharedWithUserId ->
  owned_note noteId ownerId (db w) = Some n ->
  User_findByPk sharedWithUserId (db w) = Some u ->
  exists share,
    run (shareNote noteId ownerId sharedWithUserId permission) w
    = (Ok share,
       invalidated (notes_cache_pattern sharedWithUserId)
         (invalidated (notes_cache_pattern ownerId)
            (stored ["note_shares"%string]
               (upserted noteId sharedWithUserId (or_read permission)
                         (db w)) w)))
    /\ NoteShare.noteId share = noteId
    /\ NoteShare.sharedWithUserId share = sharedWithUserId
    /\ NoteShare.permission share = or_read permission.
Proof.
  unfold owned_note. intros Hne H Hu. unfold shareNote.
  apply Z.eqb_neq in Hne. rewrite Hne. unfold_monad. rewrite H, Hu.
  unfold NoteShare_findOrCreate, upserted, share_of.
  destruct (find _ (rows (note_shares (db w)))) as [s|] eqn:E.
  - simpl. unfold NoteShare_save, exec, bind, emit. simpl.
    rewrite !invalidateCache_total.
    eexists. split; [reflexivity|]. simpl.
    apply find_some in E. destruct E as [_ E].
    rewrite andb_true_iff, !Z.eqb_eq in E. tauto.
  - simpl. rewrite !invalidateCache_total.
    eexists. split; [reflexivity|]. simpl. auto.
Qed.

Lemma find_head_of_filter (A : Type) (p : A -> bool) l x :
  find p l = Some x -> exists l', filter p l = x :: l'.
Proof.
  induction l as [|r l IH]; simpl; [discriminate|].
  destruct (p r) eqn:E.
  - intros [= ->]. eexists. reflexivity.
  - exact IH.
Qed.

Lemma find_none_filter (A : Type) (p : A -> bool) l :
  find p l = None -> filter p l = [].
Proof.
  induction l as [|r l IH]; simpl; [reflexivity|].
  destruct (p r); [discriminate | exact IH].
Qed.

Lemma filter_map_preserving (A : Type) (p : A -> bool) (h : A -> A) l :
  (forall r, p (h r) = p r) ->
  filter p (map h l) = map h (filter p l).
Proof.
  intros Hh. induction l as [|r l IH]; simpl; [reflexivity|].
  rewrite Hh. destruct (p r); simpl; rewrite IH; reflexivity.
Qed.

(* after the upsert the pair has exactly one row, with the permission granted *)
Lemma upserted_grants noteId userId p d :
  (count_shares noteId userId d <= 1)%nat ->
  exists row,
    grants noteId userId (upserted noteId userId p d) = [row]
    /\ NoteShare.permission row = p.
Proof.
  unfold count_shares, grants, upserted. intros Hle.
  destruct (find (share_of noteId userId) (rows (note_shares d))) as [s|] eqn:E.
  - destruct (find_head_of_filter _ _ _ _ E) as (l' & Hf). rewrite Hf in Hle.
    destruct l' as [|? ?]; [|simpl in Hle; lia].
    simpl. rewrite filter_map_preserving.
    + rewrite Hf. simpl. rewrite Z.eqb_refl. eexists. split; reflexivity.
    + intros r. destruct (NoteShare.id r =? NoteShare.id s); reflexivity.
  - simpl. rewrite filter_app, (find_none_filter _ _ _ E). simpl.
    unfold share_of. simpl. rewrite !Z.eqb_refl. simpl.
    eexists. split; reflexivity.
Qed.

Lemma upserted_notes noteId userId p d :
  notes (upserted noteId userId p d) = notes d
  /\ users (upserted noteId userId p d) = users d
  /\ note_versions (upserted noteId userId p d) = note_versions d.
Proof.
  unfold upserted.
  destruct (find (share_of noteId userId) (rows (note_shares d)));
    repeat split.
Qed.

(** C7.  The owner of a live note N shares it with an existing user U at
    read and then again at edit: both calls succeed, and afterwards the
    NoteShare rows for (N, U) are exactly one row, whose permission is edit.
    The table is assumed to satisfy its unique index on
    (noteId, sharedWithUserId) for that pair beforehand. *)
Theorem share_twice_keeps_one_row :
  forall w noteId ownerId sharedWithUserId n u,
    live_note noteId (db w) = Some n ->
    is_owner n ownerId ->
    ownerId <> sharedWithUserId ->
    User_findByPk sharedWithUserId (db w) = Some u ->
    (count_shares noteId sharedWithUserId (db w) <= 1)%nat ->
    exists s1 w1 s2 w2 row,
      run (shareNote noteId ownerId sharedWithUserId (Some NoteShare.read)) w
      = (Ok s1, w1)
      /\ run (shareNote noteId ownerId sharedWithUserId (Some NoteShare.edit)) w1
         = (Ok s2, w2)
      /\ grants noteId sharedWithUserId (db w2) = [row]
      /\ NoteShare.permission row = NoteShare.edit
      /\ count_shares noteId sharedWithUserId (db w2) = 1%nat.
Proof.
  intros w noteId ownerId sharedWithUserId n u Hn Ho Hne Hu Hle.
  pose proof (owned_note_of_live _ _ _ _ Hn Ho) as Hown.
  destruct (shareNote_ok noteId ownerId sharedWithUserId (Some NoteShare.read)
              w n u Hne Hown Hu) as (s1 & Hrun1 & _).
  set (w1 := invalidated _ (invalidated _ _)) in Hrun1.
  assert (Hdb1 : db w1 = upserted noteId sharedWithUserId NoteShare.read (db w))
    by (unfold w1; rewrite !invalidated_db; reflexivity).
  destruct (upserted_notes noteId sharedWithUserId NoteShare.read (db w))
    as (Hnotes & Husers & _).
  assert (Hown1 : owned_note noteId ownerId (db w1) = Some n).
  { unfold owned_note, Note_findOne in *. rewrite Hdb1, Hnotes. exact Hown. }
  assert (Hu1 : User_findByPk sharedWithUserId (db w1) = Some u).
  { unfold User_findByPk in *. rewrite Hdb1, Husers. exact Hu. }
  destruct (upserted_grants noteId sharedWithUserId NoteShare.read (db w) Hle)
    as (row1 & Hg1 & _).
  destruct (shareNote_ok noteId ownerId sharedWithUserId (Some NoteShare.edit)
              w1 n u Hne Hown1 Hu1) as (s2 & Hrun2 & _).
  set (w2 := invalidated _ (invalidated _ _)) in Hrun2.
  assert (Hdb2 : db w2 = upserted noteId sharedWithUserId NoteShare.edit (db w1))
    by (unfold w2; rewrite !invalidated_db; reflexivity).
  destruct (upserted_grants noteId sharedWithUserId NoteShare.edit (db w1))
    as (row & Hg2 & Hperm).
  { unfold count_shares. rewrite Hdb1, Hg1. simpl. lia. }
  exists s1, w1, s2, w2, row.
  split; [exact Hrun1|]. split; [exact Hrun2|].
  rewrite Hdb2. split; [exact Hg2|]. split; [exact Hperm|].
  unfold count_shares. rewrite Hg2. reflexivity.
Qed.

Lemma share_twice_keeps_one_row_witness :
  exists s1 w1 s2 w2 row,
    run (shareNote 1 1 3 (Some NoteShare.read)) sample_world = (Ok s1, w1)
    /\ run (shareNote 1 1 3 (Some NoteShare.edit)) w1 = (Ok s2, w2)
    /\ grants 1 3 (db w2) = [row]
    /\ NoteShare.permission row = NoteShare.edit
    /\ count_shares 1 3 (db w2) = 1%nat.
Proof.
  apply (share_twice_keeps_one_row sample_world 1 1 3 sample_note
           (User.make 3 "carol" "carol@example.org")).
  - reflexivity.
  - reflexivity.
  - discriminate.
  - reflexivity.
  - vm_compute. lia.
Defined.

(** C8.  shareNote throws and leaves the world exactly as it was (no
    NoteShare row created or changed, nothing written at all) in each of
    three cases: the target is the caller ("Cannot share note with
    yourself"); the caller does not own the note; the target is not the id of
    a user.  With distinct caller and target, a caller who is not the owner
    is told "Note not found or permission denied", and an owner naming a
    target that does not exist is told "User not found". *)
Theorem share_rejections_write_nothing :
  (forall w noteId userId permission,
     run (shareNote noteId userId userId permission) w
     = (Throw "Cannot share note with yourself"%string, w))
  /\ (forall w noteId ownerId sharedWithUserId permission n,
        primary_key (db w) ->
        note_by_id noteId (db w) = Some n ->
        ~ is_owner n ownerId ->
        (exists msg,
           run (shareNote noteId ownerId sharedWithUserId permission) w
           = (Throw msg, w))
        /\ (ownerId <> sharedWithUserId ->
            run (shareNote noteId ownerId sharedWithUserId permission) w
            = (Throw "Note not found or permission denied"%string, w)))
  /\ (forall w noteId ownerId sharedWithUserId permission,
        User_findByPk sharedWithUserId (db w) = None ->
        (exists msg,
           run (shareNote noteId ownerId sharedWithUserId permission) w
           = (Throw msg, w))
        /\ (forall n,
              ownerId <> sharedWithUserId ->
              live_note noteId (db w) = Some n ->
              is_owner n ownerId ->
              run (shareNote noteId ownerId sharedWithUserId permission) w
              = (Throw "User not found"%string, w))).
Proof.
  split; [|split].
  - intros. apply shareNote_self.
  - intros w noteId ownerId sharedWithUserId permission n Hpk Hn Hno.
    pose proof (owned_note_none_not_owner _ _ _ _ Hpk Hn Hno) as Hown.
    split.
    + destruct (Z.eq_dec ownerId sharedWithUserId) as [<-|Hne].
      * eexists. apply shareNote_self.
      * eexists. apply shareNote_denied; assumption.
    + intros Hne. apply shareNote_denied; assumption.
  - intros w noteId ownerId sharedWithUserId permission Hu. split.
    + destruct (Z.eq_dec ownerId sharedWithUserId) as [<-|Hne].
      * eexists. apply shareNote_self.
      * destruct (owned_note noteId ownerId (db w)) as [n|] eqn:Hown.
        -- eexists. eapply shareNote_no_user; eassumption.
        -- eexists. apply shareNote_denied; assumption.
    + intros n Hne Hn Ho.
      apply shareNote_no_user with (n := n); auto.
      apply owned_note_of_live; assumption.
Qed.

Lemma share_rejections_write_nothing_witness :
  run (shareNote 1 2 3 (Some NoteShare.edit)) sample_world
  = (Throw "Note not found or permission denied"%string, sample_world)
  /\ run (shareNote 1 1 42 (Some NoteShare.read)) sample_world
     = (Throw "User not found"%string, sample_world).
Proof.
  destruct share_rejections_write_nothing as (_ & Hown & Huser). split.
  - apply (Hown sample_world 1 2 3 (Some NoteShare.edit) sample_note).
    + repeat constructor; simpl; intuition discriminate.
    + reflexivity.
    + unfold is_owner. simpl. discriminate.
    + discriminate.
  - apply (proj2 (Huser sample_world 1 1 42 (Some NoteShare.read) eq_refl)
             sample_note).
    + discriminate.
    + reflexivity.
    + reflexivity.
Defined.

(** ** Reading the history *)

Section OrderDesc.
Variable A : Type.
Variable key : A -> Z.

Lemma insert_desc_perm x l : Permutation (x :: l) (insert_desc key x l).
Proof.
  induction l as [|y l IH]; simpl; [reflexivity|].
  destruct (key y <=? key x); [reflexivity|].
  rewrite perm_swap. apply perm_skip. exact IH.
Qed.

Lemma order_desc_perm l : Permutation l (order_desc key l).
Proof.
  induction l as [|x l IH]; simpl; [reflexivity|].
  rewrite <- insert_desc_perm. apply perm_skip. exact IH.
Qed.

Lemma order_desc_In x l : In x (order_desc key l) <-> In x l.
Proof.
  split; apply Permutation_in;
    [symmetry|]; apply order_desc_perm.
Qed.

Lemma insert_desc_sorted x l :
  StronglySorted (fun a b => key b <= key a) l ->
  StronglySorted (fun a b => key b <= key a) (insert_desc key x l).
Proof.
  induction l as [|y l IH]; simpl; intros Hs.
  - repeat constructor.
  - inversion Hs as [|? ? Hl Hall]; subst.
    destruct (Z.leb_spec (key y) (key x)) as [Hle|Hgt].
    + constructor; [exact Hs|]. constructor; [exact Hle|].
      eapply Forall_impl; [|exact Hall]. simpl. intros b Hb. lia.
    + constructor; [apply IH; exact Hl|].
      eapply Permutation_Forall; [apply insert_desc_perm|].
      constructor; [lia | exact Hall].
Qed.

Lemma order_desc_sorted l :
  StronglySorted (fun a b => key b <= key a) (order_desc key l).
Proof.
  induction l as [|x l IH]; simpl; [constructor|].
  apply insert_desc_sorted. exact IH.
Qed.
End OrderDesc.

Lemma getNoteById_cases noteId userId w :
  run (getNoteById noteId userId) w
  = (Throw "Note not found or access denied"%string, w)
  \/ exists n,
       In n (rows (notes (db w))) /\ Note.id n = noteId
       /\ Note.deletedAt n = None
       /\ run (getNoteById noteId userId) w
          = (Ok (mkInstance n (User_findByPk (Note.userId n) (db w))
                            (include_versions (db w) n)
                            (include_attachments (db w) n)
                            (joined_shares (db w) n userId)), w).
Proof.
  unfold getNoteById. unfold_monad.
  destruct (Note_findOne _ (db w)) as [n|] eqn:E; [right|left; reflexivity].
  exists n. apply find_some in E. destruct E as [Hin E].
  rewrite !andb_true_iff, Z.eqb_eq in E. destruct E as [[Hid _] Hlive].
  repeat split; auto. destruct (Note.deletedAt n); [discriminate|reflexivity].
Qed.

(** ** Soft delete *)

Lemma deleteNote_ok noteId userId w n :
  owned_note noteId userId (db w) = Some n ->
  run (deleteNote noteId userId) w
  = (Ok "Note deleted successfully"%string,
     invalidated (notes_cache_pattern userId)
       (stored ["notes"%string] (soft_deleted n (clock w) (db w)) w)).
Proof.
  unfold owned_note. intros H. unfold deleteNote. unfold_monad.
  rewrite H. unfold Note_destroy. unfold_monad.
  rewrite invalidateCache_total. reflexivity.
Qed.

Lemma soft_deleted_gone n t d : gone (Note.id n) (soft_deleted n t d).
Proof.
  intros r Hin Hid. unfold soft_deleted in Hin. simpl in Hin.
  apply in_map_iff in Hin. destruct Hin as (r0 & <- & _).
  destruct (Note.id r0 =? Note.id n) eqn:E; [discriminate|].
  exfalso. apply Z.eqb_neq in E. exact (E Hid).
Qed.

Lemma gone_not_live noteId d (cond : Note.t -> bool) :
  gone noteId d ->
  (forall r, cond r = true ->
             Note.id r = noteId /\ Note.deletedAt r = None) ->
  Note_findOne cond d = None /\ Note_findAll cond d = [].
Proof.
  intros Hg Hc.
  assert (Hall : forall r, In r (rows (notes d)) -> cond r = false).
  { intros r Hin. destruct (cond r) eqn:E; [|reflexivity].
    destruct (Hc r E) as [Hid Hl]. exfalso. exact (Hg r Hin Hid Hl). }
  split.
  - apply find_all_false. exact Hall.
  - unfold Note_findAll. induction (rows (notes d)) as [|r l IH]; simpl;
      [reflexivity|].
    rewrite (Hall r (or_introl eq_refl)). apply IH. intros x Hx. apply Hall.
    right. exact Hx.
Qed.

Lemma is_null_none (A : Type) (o : option A) : is_null o = true -> o = None.
Proof. destruct o; [discriminate | reflexivity]. Qed.

Lemma gone_live_note noteId d : gone noteId d -> live_note noteId d = None.
Proof.
  intros Hg. apply (gone_not_live noteId d _ Hg). intros r Hr.
  rewrite andb_true_iff, Z.eqb_eq in Hr. split; [tauto|].
  apply is_null_none. tauto.
Qed.

Lemma gone_owned_note noteId userId d :
  gone noteId d -> owned_note noteId userId d = None.
Proof.
  intros Hg. apply (gone_not_live noteId d _ Hg). intros r Hr.
  rewrite !andb_true_iff, Z.eqb_eq in Hr. split; [tauto|].
  apply is_null_none. tauto.
Qed.

Lemma gone_getNoteById noteId userId w :
  gone noteId (db w) ->
  run (getNoteById noteId userId) w
  = (Throw "Note not found or access denied"%string, w).
Proof.
  intros Hg. unfold getNoteById. unfold_monad.
  replace (Note_findOne _ (db w)) with (@None Note.t); [reflexivity|].
  symmetry. apply (gone_not_live noteId (db w) _ Hg). intros r Hr.
  rewrite !andb_true_iff, Z.eqb_eq in Hr. split; [tauto|].
  apply is_null_none. tauto.
Qed.

Lemma live_rows_exclude_gone noteId d (cond : Note.t -> bool) n :
  gone noteId d ->
  (forall r, cond r = true -> Note.deletedAt r = None) ->
  In n (order_desc Note.createdAt (Note_findAll cond d)) ->
  Note.id n <> noteId.
Proof.
  intros Hg Hc Hin Hid. apply order_desc_In in Hin.
  apply filter_In in Hin. destruct Hin as [Hin Hcond].
  exact (Hg n Hin Hid (Hc n Hcond)).
Qed.

Lemma gone_getAllNotes noteId userId w inst :
  gone noteId (db w) ->
  In inst (match fst (run (getAllNotes userId) w) with
           | Ok l => l
           | Throw _ => []
           end) ->
  Note.id (note inst) <> noteId.
Proof.
  intros Hg. unfold getAllNotes. unfold_monad. simpl. intros Hin.
  apply in_map_iff in Hin. destruct Hin as (n & <- & Hin). simpl.
  eapply (live_rows_exclude_gone noteId (db w)); [exact Hg| |exact Hin].
  intros r Hr. apply is_null_none. rewrite andb_true_iff in Hr. tauto.
Qed.

Lemma gone_search noteId keyword_match userId keywords w inst :
  gone noteId (db w) ->
  In inst (match fst (run (searchNotesByKeywords keyword_match userId keywords)
                          w) with
           | Ok l => l
           | Throw _ => []
           end) ->
  Note.id (note inst) <> noteId.
Proof.
  intros Hg. unfold searchNotesByKeywords. unfold_monad.
  destruct (literal_body keywords); simpl; intros Hin; [|contradiction].
  apply in_map_iff in Hin. destruct Hin as (n & <- & Hin). simpl.
  eapply (live_rows_exclude_gone noteId (db w)); [exact Hg| |exact Hin].
  intros r Hr. apply is_null_none. rewrite !andb_true_iff in Hr. tauto.
Qed.

Lemma gone_addAttachment noteId userId file w :
  gone noteId (db w) ->
  run (addAttachment noteId userId file) w
  = (Throw "Note not found or permission denied"%string, w).
Proof.
  intros Hg. unfold addAttachment. unfold_monad.
  replace (Note_findOne _ (db w)) with (@None Note.t); [reflexivity|].
  symmetry. apply (gone_not_live noteId (db w) _ Hg). intros r Hr.
  rewrite !andb_true_iff, Z.eqb_eq in Hr. split; [tauto|].
  apply is_null_none. tauto.
Qed.

Lemma soft_deleted_row noteId userId n t d :
  owned_note noteId userId d = Some n ->
  exists n0,
    note_by_id noteId d = Some n0
    /\ note_by_id noteId (soft_deleted n t d) = Some (marked_deleted t n0).
Proof.
  intros Hown. apply owned_note_spec in Hown. destruct Hown as (Hin & Hid & _).
  destruct (note_by_id noteId d) as [n0|] eqn:E.
  - exists n0. split; [reflexivity|].
    unfold note_by_id, soft_deleted in *. simpl.
    rewrite find_map_preserving.
    + rewrite E. simpl. apply find_some in E. destruct E as [_ E].
      apply Z.eqb_eq in E. rewrite E, Hid, Z.eqb_refl. reflexivity.
    + intros r. destruct (Note.id r =? Note.id n); reflexivity.
  - exfalso. pose proof (find_none _ _ E n Hin) as Hf. cbv beta in Hf.
    rewrite Hid, Z.eqb_refl in Hf. discriminate.
Qed.

Lemma soft_deleted_ids n t d :
  map Note.id (rows (notes (soft_deleted n t d)))
  = map Note.id (rows (notes d)).
Proof.
  unfold soft_deleted. simpl. rewrite map_map. apply map_ext.
  intros r. destruct (Note.id r =? Note.id n); reflexivity.
Qed.

(** C10.  A caller who is not the owner (an edit-share holder included)
    cannot delete: deleteNote throws and the world is as it was.  When
    deleteNote succeeds, the caller owns a live note with that id, and
    afterwards the row of the note is still stored, now with
    deletedAt set to the time of the call, no note row was added or removed,
    and the NoteVersion table is untouched; from then on the note is not
    found by a read by id, is not listed by getAllNotes or by a search, and
    update, share, revert and attachment upload on it all fail. *)
Theorem only_owner_soft_deletes :
  (forall w noteId userId n,
     primary_key (db w) ->
     note_by_id noteId (db w) = Some n ->
     ~ is_owner n userId ->
     run (deleteNote noteId userId) w
     = (Throw "Note not found or permission denied"%string, w))
  /\ (forall w noteId userId msg w',
        run (deleteNote noteId userId) w = (Ok msg, w') ->
        (exists r, In r (rows (notes (db w)))
                   /\ Note.id r = noteId /\ Note.deletedAt r = None
                   /\ is_owner r userId)
        /\ (exists n,
              note_by_id noteId (db w) = Some n
              /\ note_by_id noteId (db w') = Some (marked_deleted (clock w) n))
        /\ map Note.id (rows (notes (db w')))
           = map Note.id (rows (notes (db w)))
        /\ note_versions (db w') = note_versions (db w)
        /\ (forall u,
              run (getNoteById noteId u) w'
              = (Throw "Note not found or access denied"%string, w'))
        /\ (forall u l w'',
              run (getAllNotes u) w' = (Ok l, w'') ->
              forall inst, In inst l -> Note.id (note inst) <> noteId)
        /\ (forall keyword_match u keywords l w'',
              run (searchNotesByKeywords keyword_match u keywords) w'
              = (Ok l, w'') ->
              forall inst, In inst l -> Note.id (note inst) <> noteId)
        /\ (forall u title content expectedVersion,
              fst (run (updateNote noteId u title content expectedVersion) w')
              = Throw "Note not found"%string)
        /\ (forall ownerId sharedWithUserId permission,
              exists m,
                run (shareNote noteId ownerId sharedWithUserId permission) w'
                = (Throw m, w'))
        /\ (forall u targetVersion,
              fst (run (revertToVersion noteId u targetVersion) w')
              = Throw "Note not found or permission denied"%string)
        /\ (forall u file,
              run (addAttachment noteId u file) w'
              = (Throw "Note not found or permission denied"%string, w'))).
Proof.
  split.
  - intros w noteId userId n Hpk Hn Hno. apply deleteNote_denied.
    apply owned_note_none_not_owner with (n := n); assumption.
  - intros w noteId userId msg w' Hrun.
    destruct (owned_note noteId userId (db w)) as [n|] eqn:Hown;
      [|rewrite (deleteNote_denied _ _ _ Hown) in Hrun; discriminate].
    rewrite (deleteNote_ok _ _ _ _ Hown) in Hrun. injection Hrun as _ <-.
    assert (Hid : Note.id n = noteId) by (apply owned_note_spec in Hown; tauto).
    assert (Hg : gone noteId
                   (db (invalidated (notes_cache_pattern userId)
                          (stored ["notes"%string] (soft_deleted n (clock w) (db w)) w)))).
    { rewrite invalidated_db. simpl. rewrite <- Hid. apply soft_deleted_gone. }
    split; [|split; [|split; [|split; [|split; [|split; [|split; [|split;
      [|split; [|split]]]]]]]]].
    + exists n. apply owned_note_spec in Hown. unfold is_owner. tauto.
    + rewrite invalidated_db. simpl.
      exact (soft_deleted_row _ _ _ _ _ Hown).
    + rewrite invalidated_db. simpl. apply soft_deleted_ids.
    + rewrite invalidated_db. reflexivity.
    + intros u. apply gone_getNoteById. exact Hg.
    + intros u l w'' Hl inst Hin.
      apply (gone_getAllNotes noteId u _ inst Hg). rewrite Hl. exact Hin.
    + intros km u keywords l w'' Hl inst Hin.
      apply (gone_search noteId km u keywords _ inst Hg). rewrite Hl. exact Hin.
    + intros u title content expectedVersion. unfold run.
      rewrite updateNote_not_found by (apply gone_live_note; exact Hg).
      reflexivity.
    + intros ownerId sharedWithUserId permission.
      destruct (Z.eq_dec ownerId sharedWithUserId) as [<-|Hne].
      * eexists. apply shareNote_self.
      * eexists. apply shareNote_denied; [exact Hne|].
        apply gone_owned_note. exact Hg.
    + intros u targetVersion. unfold run.
      rewrite revert_denied by (apply gone_owned_note; exact Hg). reflexivity.
    + intros u file. apply gone_addAttachment. exact Hg.
Qed.

Lemma only_owner_soft_deletes_witness :
  run (deleteNote 1 2) sample_world
  = (Throw "Note not found or permission denied"%string, sample_world)
  /\ note_by_id 1 (db sample_world_deleted)
     = Some (marked_deleted 7 sample_note)
  /\ fst (run (updateNote 1 1 "Groceries" "tea" 1) sample_world_deleted)
     = Throw "Note not found"%string.
Proof.
  destruct only_owner_soft_deletes as [Hdenied Hdeleted]. split.
  - apply (Hdenied sample_world 1 2 sample_note).
    + repeat constructor; simpl; intuition discriminate.
    + reflexivity.
    + unfold is_owner. simpl. discriminate.
  - assert (Hrun : run (deleteNote 1 1) (step sample_world (Tick 7))
                   = (Ok "Note deleted successfully"%string,
                      sample_world_deleted))
      by (vm_compute; reflexivity).
    destruct (Hdeleted _ _ _ _ _ Hrun)
      as (_ & _ & _ & _ & _ & _ & _ & Hupd & _).
    split; [reflexivity|]. apply Hupd.
Defined.

(** ** The version ledger *)

Lemma upto_snoc k : 0 <= k -> upto (k + 1) = upto k ++ [k + 1].
Proof.
  intros Hk. unfold upto.
  replace (Z.to_nat (k + 1)) with (S (Z.to_nat k)) by lia.
  rewrite seq_S, map_app. simpl. f_equal. f_equal. lia.
Qed.

Lemma In_upto k V : In k (upto V) <-> 1 <= k <= V.
Proof.
  unfold upto. rewrite in_map_iff. split.
  - intros (m & <- & Hm). apply in_seq in Hm. lia.
  - intros Hk. exists (Z.to_nat k). split; [lia|]. apply in_seq. lia.
Qed.

Lemma NoDup_upto V : NoDup (upto V).
Proof.
  unfold upto. apply Finite.Injective_map_NoDup; [|apply seq_NoDup].
  intros a b. apply Nat2Z.inj.
Qed.

Lemma upto_nonempty V (l : list Z) x : upto V = l ++ [x] -> 1 <= V.
Proof.
  intros H. assert (Hin : In x (upto V)) by (rewrite H; apply in_or_app; simpl; auto).
  apply In_upto in Hin. lia.
Qed.

Lemma history_snoc noteId d row :
  history noteId
    (set_note_versions (insert (fun _ => row) (note_versions d)) d)
  = history noteId d
    ++ (if NoteVersion.noteId row =? noteId then [row] else []).
Proof.
  unfold history. simpl. rewrite filter_app. simpl.
  destruct (NoteVersion.noteId row =? noteId); reflexivity.
Qed.

Lemma NoDup_map_inj (A : Type) (key : A -> Z) l a b :
  NoDup (map key l) -> In a l -> In b l -> key a = key b -> a = b.
Proof.
  induction l as [|r l IH]; simpl; [contradiction|].
  intros Hnd Ha Hb Hk. inversion Hnd as [|? ? Hnotin Hnd']; subst.
  destruct Ha as [->|Ha], Hb as [->|Hb].
  - reflexivity.
  - exfalso. apply Hnotin. rewrite Hk. apply in_map. exact Hb.
  - exfalso. apply Hnotin. rewrite <- Hk. apply in_map. exact Ha.
  - apply IH; assumption.
Qed.

Lemma history_invariant_ext d d' :
  notes d' = notes d -> note_versions d' = note_versions d ->
  history_invariant d -> history_invariant d'.
Proof.
  intros Hn Hv [Hpk Hids Hfk Hnum Hhead].
  constructor; unfold primary_key, stored_versions, history in *;
    rewrite ?Hn, ?Hv; assumption.
Qed.

Lemma history_invariant_empty : history_invariant empty_database.
Proof.
  constructor; simpl; try contradiction. constructor.
Qed.

Lemma written_invariant n title content userId w :
  history_invariant (db w) ->
  In n (rows (notes (db w))) ->
  history_invariant (written n title content userId w).
Proof.
  intros [Hpk Hids Hfk Hnum Hhead] Hin.
  set (h := fun r : Note.t =>
              if Note.id r =? Note.id n
              then Note.make (Note.id r) (Note.userId r) title content
                             (Note.version n + 1) (Note.deletedAt r)
                             (Note.createdAt r)
              else r).
  assert (Hrows : rows (notes (written n title content userId w))
                  = map h (rows (notes (db w)))) by reflexivity.
  assert (Hid : forall r, Note.id (h r) = Note.id r)
    by (intros r; unfold h; destruct (Note.id r =? Note.id n); reflexivity).
  assert (Hhist : forall k,
             history k (written n title content userId w)
             = history k (db w)
               ++ (if Note.id n =? k
                   then [NoteVersion.make
                           (auto_increment (note_versions (db w))) (Note.id n)
                           title content (Note.version n + 1) userId (clock w)]
                   else [])).
  { intros k. unfold written. rewrite history_snoc. reflexivity. }
  constructor.
  - unfold primary_key. rewrite Hrows, map_map.
    rewrite (map_ext _ Note.id Hid). exact Hpk.
  - intros r'. rewrite Hrows, in_map_iff. intros (r & <- & Hr).
    rewrite Hid. exact (Hids r Hr).
  - intros v. rewrite written_versions, in_app_iff. intros [Hv|[<-|[]]].
    + exact (Hfk v Hv).
    + simpl. exact (Hids n Hin).
  - intros r'. rewrite Hrows, in_map_iff. intros (r & <- & Hr).
    unfold stored_versions. rewrite Hid, Hhist.
    destruct (Z.eqb_spec (Note.id n) (Note.id r)) as [E|E].
    + assert (r = n) by (apply (NoDup_map_inj _ Note.id _ _ _ Hpk Hr Hin);
                         symmetry; exact E).
      subst r. unfold h. rewrite Z.eqb_refl. simpl.
      rewrite map_app. simpl. fold (stored_versions (Note.id n) (db w)).
      rewrite (Hnum n Hin). symmetry. apply upto_snoc.
      destruct (Hhead n Hin) as (l & v & Hl & _).
      pose proof (Hnum n Hin) as Hu. unfold stored_versions in Hu.
      rewrite Hl, map_app in Hu. symmetry in Hu.
      apply upto_nonempty in Hu. lia.
    + rewrite app_nil_r. unfold h.
      destruct (Z.eqb_spec (Note.id r) (Note.id n)) as [E'|_]; [congruence|].
      exact (Hnum r Hr).
  - intros r'. rewrite Hrows, in_map_iff. intros (r & <- & Hr).
    rewrite Hid, Hhist.
    destruct (Z.eqb_spec (Note.id n) (Note.id r)) as [E|E].
    + assert (r = n) by (apply (NoDup_map_inj _ Note.id _ _ _ Hpk Hr Hin);
                         symmetry; exact E).
      subst r. unfold h. rewrite Z.eqb_refl.
      eexists. eexists. split; [reflexivity|]. repeat split.
    + rewrite app_nil_r. unfold h.
      destruct (Z.eqb_spec (Note.id r) (Note.id n)) as [E'|_]; [congruence|].
      exact (Hhead r Hr).
Qed.

Lemma created_invariant userId title content w :
  history_invariant (db w) ->
  history_invariant (created userId title content w).
Proof.
  intros [Hpk Hids Hfk Hnum Hhead].
  set (ai := auto_increment (notes (db w))).
  set (note := Note.make ai userId title content 1 None (clock w)).
  set (row := NoteVersion.make (auto_increment (note_versions (db w))) ai title
                               content 1 userId (clock w)).
  assert (Hrows : rows (notes (created userId title content w))
                  = rows (notes (db w)) ++ [note]) by reflexivity.
  assert (Hvers : rows (note_versions (created userId title content w))
                  = rows (note_versions (db w)) ++ [row]) by reflexivity.
  assert (Hai : auto_increment (notes (created userId title content w))
                = ai + 1) by reflexivity.
  assert (Hhist : forall k,
             history k (created userId title content w)
             = history k (db w) ++ (if ai =? k then [row] else [])).
  { intros k. unfold created. rewrite history_snoc. reflexivity. }
  assert (Hfresh : history ai (db w) = []).
  { unfold history. apply find_none_filter, find_all_false.
    intros v Hv. apply Z.eqb_neq. pose proof (Hfk v Hv). fold ai in H. lia. }
  constructor.
  - unfold primary_key. rewrite Hrows, map_app. simpl.
    apply NoDup_app; [exact Hpk | repeat constructor; simpl; tauto |].
    intros k Hk [<-|[]]. apply in_map_iff in Hk. destruct Hk as (r & Hr & Hin).
    pose proof (Hids r Hin). fold ai in H. lia.
  - intros r. rewrite Hrows, Hai, in_app_iff. intros [Hr|[<-|[]]].
    + pose proof (Hids r Hr). fold ai in H. lia.
    + simpl. lia.
  - intros v. rewrite Hvers, Hai, in_app_iff. intros [Hv|[<-|[]]].
    + pose proof (Hfk v Hv). fold ai in H. lia.
    + simpl. lia.
  - intros r. rewrite Hrows, in_app_iff. unfold stored_versions. rewrite Hhist.
    intros [Hr|[<-|[]]].
    + destruct (Z.eqb_spec ai (Note.id r)) as [E|_].
      * pose proof (Hids r Hr). fold ai in H. lia.
      * rewrite app_nil_r. exact (Hnum r Hr).
    + simpl. rewrite Z.eqb_refl, Hfresh. reflexivity.
  - intros r. rewrite Hrows, in_app_iff. rewrite Hhist.
    intros [Hr|[<-|[]]].
    + destruct (Z.eqb_spec ai (Note.id r)) as [E|_].
      * pose proof (Hids r Hr). fold ai in H. lia.
      * rewrite app_nil_r. exact (Hhead r Hr).
    + simpl. rewrite Z.eqb_refl, Hfresh. exists [], row. repeat split.
Qed.

Lemma soft_deleted_invariant n t d :
  history_invariant d -> history_invariant (soft_deleted n t d).
Proof.
  intros [Hpk Hids Hfk Hnum Hhead].
  set (h := fun r : Note.t =>
              if Note.id r =? Note.id n then marked_deleted t r else r).
  assert (Hrows : rows (notes (soft_deleted n t d)) = map h (rows (notes d)))
    by reflexivity.
  assert (Hsame : forall r, Note.id (h r) = Note.id r
                            /\ Note.version (h r) = Note.version r
                            /\ Note.title (h r) = Note.title r
                            /\ Note.content (h r) = Note.content r).
  { intros r. unfold h. destruct (Note.id r =? Note.id n); repeat split. }
  constructor.
  - unfold primary_key. rewrite soft_deleted_ids. exact Hpk.
  - intros r'. rewrite Hrows, in_map_iff. intros (r & <- & Hr).
    destruct (Hsame r) as (-> & _). exact (Hids r Hr).
  - exact Hfk.
  - intros r'. rewrite Hrows, in_map_iff. intros (r & <- & Hr).
    destruct (Hsame r) as (-> & -> & _). exact (Hnum r Hr).
  - intros r'. rewrite Hrows, in_map_iff. intros (r & <- & Hr).
    destruct (Hsame r) as (Hi & Hv & Ht & Hc). rewrite Hi.
    destruct (Hhead r Hr) as (l & v & Hl & Hm).
    exists l, v. split; [exact Hl|].
    unfold mirrors in *. rewrite Hv, Ht, Hc. exact Hm.
Qed.

Lemma createNote_run userId title content w :
  Note_create_error userId title content (db w) = None ->
  run (createNote userId title content) w
  = (Ok (Note.make (auto_increment (notes (db w))) userId title content 1 None
                   (clock w)),
     invalidated (notes_cache_pattern userId)
       (stored ["notes"%string; "note_versions"%string]
               (created userId title content w) w)).
Proof.
  intros He. unfold createNote, Note_create, NoteVersion_create. unfold_monad.
  rewrite He. simpl. rewrite invalidateCache_total.
  unfold stored, created, log_event, set_db. simpl.
  rewrite <- app_assoc. reflexivity.
Qed.

Lemma createNote_refused userId title content w message :
  Note_create_error userId title content (db w) = Some message ->
  run (createNote userId title content) w = (Throw message, w).
Proof.
  intros He. unfold createNote, Note_create. unfold_monad.
  rewrite He. reflexivity.
Qed.

Lemma createNote_cases userId title content w :
  (exists message,
     Note_create_error userId title content (db w) = Some message
     /\ run (createNote userId title content) w = (Throw message, w))
  \/ (Note_create_error userId title content (db w) = None
      /\ run (createNote userId title content) w
         = (Ok (Note.make (auto_increment (notes (db w))) userId title content
                          1 None (clock w)),
            invalidated (notes_cache_pattern userId)
              (stored ["notes"%string; "note_versions"%string]
                      (created userId title content w) w))).
Proof.
  destruct (Note_create_error userId title content (db w)) as [message|] eqn:He.
  - left. exists message. split; [reflexivity|].
    apply createNote_refused. exact He.
  - right. split; [reflexivity|]. apply createNote_run. exact He.
Qed.

Lemma createNote_db_cases userId title content w :
  snd (run (createNote userId title content) w) = w
  \/ (Note_create_error userId title content (db w) = None
      /\ db (snd (run (createNote userId title content) w))
         = created userId title content w).
Proof.
  destruct (createNote_cases userId title content w)
    as [(message & _ & ->)|(He & ->)]; [left; reflexivity|].
  right. split; [exact He|]. simpl. apply invalidated_db.
Qed.

Lemma search_world keyword_match userId keywords w :
  snd (run (searchNotesByKeywords keyword_match userId keywords) w) = w.
Proof.
  unfold searchNotesByKeywords, run, throw, query.
  destruct (literal_body keywords); reflexivity.
Qed.

Lemma Note_create_accepts userId title content d :
  Note_create_error userId title content d = None
  <-> storable title content = true /\ User_findByPk userId d <> None.
Proof.
  unfold Note_create_error. rewrite storable_spec.
  destruct (notEmpty title), (fits 255 title), (fits_text content),
    (User_findByPk userId d); simpl; split; intros H;
    try discriminate; try reflexivity; intuition congruence.
Qed.

Lemma addAttachment_cases noteId userId file w :
  (exists message,
     run (addAttachment noteId userId file) w = (Throw message, w))
  \/ (exists n,
        Note_findOne
          (fun n => (Note.id n =? noteId)
                    && ((Note.userId n =? userId)
                        || shared_with_edit (db w) n userId)
                    && is_null (Note.deletedAt n)) (db w) = Some n
        /\ NoteAttachment_create_error file = None
        /\ run (addAttachment noteId userId file) w
           = (Ok (NoteAttachment.make (auto_increment (note_attachments (db w)))
                    noteId (File.filename file) (File.originalname file)
                    (File.mimetype file) (File.size file) (File.path file)),
              invalidated (notes_cache_pattern userId)
                (stored ["note_attachments"%string]
                   (set_note_attachments
                      (insert
                         (fun _ =>
                            NoteAttachment.make
                              (auto_increment (note_attachments (db w)))
                              noteId (File.filename file)
                              (File.originalname file) (File.mimetype file)
                              (File.size file) (File.path file))
                         (note_attachments (db w))) (db w)) w))).
Proof.
  unfold addAttachment, NoteAttachment_create. unfold_monad.
  destruct (Note_findOne _ (db w)) as [n|]; [|left; eexists; reflexivity].
  destruct (NoteAttachment_create_error file) as [message|] eqn:He.
  - left. eexists. reflexivity.
  - right. exists n. split; [reflexivity|]. split; [reflexivity|].
    rewrite invalidateCache_total. reflexivity.
Qed.

Lemma shareNote_tables noteId ownerId sharedWithUserId permission w :
  notes (db (snd (run (shareNote noteId ownerId sharedWithUserId permission) w)))
  = notes (db w)
  /\ note_versions
       (db (snd (run (shareNote noteId ownerId sharedWithUserId permission) w)))
     = note_versions (db w).
Proof.
  destruct (Z.eq_dec ownerId sharedWithUserId) as [<-|Hne].
  - rewrite shareNote_self. split; reflexivity.
  - destruct (owned_note noteId ownerId (db w)) as [n|] eqn:Hown.
    + destruct (User_findByPk sharedWithUserId (db w)) as [u|] eqn:Hu.
      * destruct (shareNote_ok noteId ownerId sharedWithUserId permission w n u
                    Hne Hown Hu) as (share & -> & _).
        simpl. rewrite !invalidated_db. simpl.
        destruct (upserted_notes noteId sharedWithUserId (or_read permission)
                    (db w)) as (-> & _ & ->).
        split; reflexivity.
      * rewrite (shareNote_no_user _ _ _ _ _ n) by assumption.
        split; reflexivity.
    + rewrite shareNote_denied by assumption. split; reflexivity.
Qed.

Lemma addAttachment_tables noteId userId file w :
  notes (db (snd (run (addAttachment noteId userId file) w))) = notes (db w)
  /\ note_versions (db (snd (run (addAttachment noteId userId file) w)))
     = note_versions (db w).
Proof.
  destruct (addAttachment_cases noteId userId file w)
    as [(message & ->)|(n & _ & _ & ->)]; simpl; [split; reflexivity|].
  rewrite invalidated_db. split; reflexivity.
Qed.

Lemma register_tables collation isEmail username email password w :
  notes (db (snd (run (register collation isEmail username email password)
                      w))) = notes (db w)
  /\ note_versions
       (db (snd (run (register collation isEmail username email password) w)))
     = note_versions (db w).
Proof.
  unfold register, run.
  destruct (find _ _); [|destruct (User_validate _ _ _ _)]; split; reflexivity.
Qed.

Lemma step_db_cases w r : step_effect w (db (step w r)).
Proof.
  destruct r; simpl; rewrite ?search_world.
  - left. apply register_tables.
  - destruct (createNote_cases userId title content w)
      as [(message & _ & ->)|(_ & ->)].
    + left. split; reflexivity.
    + right. left. simpl. rewrite invalidated_db. do 3 eexists. reflexivity.
  - left. split; reflexivity.
  - left. destruct (getNoteById_cases noteId userId w)
      as [->|(n & _ & _ & _ & ->)]; split; reflexivity.
  - left. split; reflexivity.
  - unfold run.
    destruct (updateNote_cases noteId userId title content expectedVersion w)
      as [(msg & ->)|(n & Hn & _ & _ & ->)].
    + left. split; reflexivity.
    + right. right. left. simpl. rewrite invalidated_db.
      exists n, title, content, userId.
      split; [exact (live_note_In _ _ _ Hn) | reflexivity].
  - destruct (owned_note noteId userId (db w)) as [n|] eqn:Hown.
    + right. right. right. rewrite (deleteNote_ok _ _ _ _ Hown). simpl.
      rewrite invalidated_db. do 2 eexists. reflexivity.
    + left. rewrite (deleteNote_denied _ _ _ Hown). split; reflexivity.
  - unfold run.
    destruct (revert_cases noteId userId targetVersion w)
      as [(msg & ->)|(n & tv & Hn & _ & ->)].
    + left. split; reflexivity.
    + right. right. left. simpl. rewrite invalidated_db.
      exists n, (NoteVersion.title tv), (NoteVersion.content tv), userId.
      split; [|reflexivity]. apply owned_note_spec in Hn. tauto.
  - left. apply shareNote_tables.
  - left. apply addAttachment_tables.
  - left. split; reflexivity.
  - left. split; reflexivity.
Qed.

Lemma step_effect_invariant w d' :
  step_effect w d' -> history_invariant (db w) -> history_invariant d'.
Proof.
  intros [[Hn Hv]|[(u & t & c & ->)|[(n & t & c & u & Hin & ->)|(n & t & ->)]]]
         Hinv.
  - exact (history_invariant_ext _ _ Hn Hv Hinv).
  - apply created_invariant. exact Hinv.
  - apply written_invariant; assumption.
  - apply soft_deleted_invariant. exact Hinv.
Qed.

Lemma reachable_invariant w : reachable w -> history_invariant (db w).
Proof.
  induction 1 as [r c|w r _ IH].
  - apply history_invariant_empty.
  - exact (step_effect_invariant _ _ (step_db_cases w r) IH).
Qed.

Lemma step_effect_appends w d' :
  step_effect w d' ->
  exists added,
    rows (note_versions d') = rows (note_versions (db w)) ++ added.
Proof.
  intros [[_ ->]|[(u & t & c & ->)|[(n & t & c & u & _ & ->)|(n & t & ->)]]].
  - exists []. rewrite app_nil_r. reflexivity.
  - eexists. reflexivity.
  - eexists. reflexivity.
  - exists []. rewrite app_nil_r. reflexivity.
Qed.

Lemma step_effect_version w d' noteId n :
  history_invariant (db w) ->
  step_effect w d' ->
  note_by_id noteId (db w) = Some n ->
  exists n',
    note_by_id noteId d' = Some n'
    /\ (Note.version n' = Note.version n
        \/ Note.version n' = Note.version n + 1).
Proof.
  intros Hinv Heff Hn.
  destruct (note_by_id_In _ _ _ Hn) as [Hin Hid].
  destruct Heff
    as [[Hnotes _]|[(u & t & c & ->)|[(m & t & c & u & Hm & ->)|(m & t & ->)]]].
  - exists n. split; [|left; reflexivity].
    unfold note_by_id in *. rewrite Hnotes. exact Hn.
  - exists n. split; [|left; reflexivity].
    unfold note_by_id, created. simpl. apply find_app_some. exact Hn.
  - unfold note_by_id, written. simpl. rewrite find_map_preserving.
    + unfold note_by_id in Hn. rewrite Hn. simpl.
      destruct (Z.eqb_spec (Note.id n) (Note.id m)) as [E|_].
      * eexists. split; [reflexivity|]. right. simpl.
        rewrite (NoDup_map_inj _ Note.id _ _ _ (inv_pk Hinv) Hin Hm E).
        reflexivity.
      * exists n. split; [reflexivity | left; reflexivity].
    + intros r. destruct (Note.id r =? Note.id m); reflexivity.
  - unfold note_by_id, soft_deleted. simpl. rewrite find_map_preserving.
    + unfold note_by_id in Hn. rewrite Hn. simpl.
      eexists. split; [reflexivity|]. left.
      destruct (Note.id n =? Note.id m); reflexivity.
    + intros r. destruct (Note.id r =? Note.id m); reflexivity.
Qed.

Lemma reachable_fold rs w : reachable w -> reachable (fold_left step rs w).
Proof.
  revert w. induction rs as [|r rs IH]; simpl; intros w Hw; [exact Hw|].
  apply IH. apply reach_step. exact Hw.
Qed.

Lemma sample_reachable : reachable sample_world_v2.
Proof.
  unfold sample_world_v2. apply reach_step.
  unfold sample_world. apply reachable_fold. apply reach_initial.
Qed.

(** C2.  In every world reached from the empty store by any sequence of
    requests, for every note: the version numbers stored for it are exactly
    the integers from 1 to the note's version, each stored once, and the
    newest of its NoteVersion rows carries the note's title, content and
    version.  A request only ever appends to the NoteVersion table: the rows
    present before are all still there, unchanged and in place.  Across a
    request a note's version stays or grows by one, and it grows by exactly
    one across every successful update and every successful revert. *)
Theorem version_ledger_invariant :
  (forall w, reachable w ->
     forall n, In n (rows (notes (db w))) ->
       (forall k, In k (stored_versions (Note.id n) (db w))
                  <-> 1 <= k <= Note.version n)
       /\ NoDup (stored_versions (Note.id n) (db w))
       /\ exists older v,
            history (Note.id n) (db w) = older ++ [v] /\ mirrors v n)
  /\ (forall w r,
        exists added,
          rows (note_versions (db (step w r)))
          = rows (note_versions (db w)) ++ added)
  /\ (forall w r noteId n,
        reachable w ->
        note_by_id noteId (db w) = Some n ->
        exists n',
          note_by_id noteId (db (step w r)) = Some n'
          /\ (Note.version n' = Note.version n
              \/ Note.version n' = Note.version n + 1))
  /\ (forall w noteId userId title content expectedVersion n n' w',
        reachable w ->
        note_by_id noteId (db w) = Some n ->
        run (updateNote noteId userId title content expectedVersion) w
        = (Ok n', w') ->
        note_by_id noteId (db w') = Some n'
        /\ Note.version n' = Note.version n + 1)
  /\ (forall w noteId userId targetVersion n n' w',
        reachable w ->
        note_by_id noteId (db w) = Some n ->
        run (revertToVersion noteId userId targetVersion) w = (Ok n', w') ->
        note_by_id noteId (db w') = Some n'
        /\ Note.version n' = Note.version n + 1).
Proof.
  split; [|split; [|split; [|split]]].
  - intros w Hw n Hin. pose proof (reachable_invariant w Hw) as Hinv.
    rewrite (inv_numbers Hinv n Hin).
    split; [intros k; apply In_upto|]. split; [apply NoDup_upto|].
    exact (inv_head Hinv n Hin).
  - intros w r. apply step_effect_appends. apply step_db_cases.
  - intros w r noteId n Hw Hn.
    exact (step_effect_version w _ noteId n (reachable_invariant w Hw)
             (step_db_cases w r) Hn).
  - intros w noteId userId title content expectedVersion n n' w' Hw Hn Hrun.
    pose proof (inv_pk (reachable_invariant w Hw)) as Hpk.
    unfold run in Hrun.
    destruct (updateNote_cases noteId userId title content expectedVersion w)
      as [(msg & E)|(n0 & Hn0 & _ & _ & E)]; rewrite E in Hrun; [discriminate|].
    injection Hrun as <- <-.
    assert (n0 = n).
    { destruct (note_by_id_In _ _ _ Hn) as [Hin Hid].
      apply (NoDup_map_inj _ Note.id _ _ _ Hpk (live_note_In _ _ _ Hn0) Hin).
      rewrite Hid. exact (live_note_id _ _ _ Hn0). }
    subst n0. rewrite invalidated_db. change (db (committed ?d _)) with d.
    split; [apply note_by_id_written; exact Hn | reflexivity].
  - intros w noteId userId targetVersion n n' w' Hw Hn Hrun.
    pose proof (inv_pk (reachable_invariant w Hw)) as Hpk.
    unfold run in Hrun.
    destruct (revert_cases noteId userId targetVersion w)
      as [(msg & E)|(n0 & tv & Hn0 & _ & E)]; rewrite E in Hrun; [discriminate|].
    injection Hrun as <- <-.
    assert (n0 = n).
    { destruct (note_by_id_In _ _ _ Hn) as [Hin Hid].
      apply owned_note_spec in Hn0. destruct Hn0 as (Hin0 & Hid0 & _).
      apply (NoDup_map_inj _ Note.id _ _ _ Hpk Hin0 Hin). congruence. }
    subst n0. rewrite invalidated_db. change (db (committed ?d _)) with d.
    split; [apply note_by_id_written; exact Hn | reflexivity].
Qed.

Lemma version_ledger_invariant_witness :
  stored_versions 1 (db sample_world_v2) = [1; 2]
  /\ (forall k, In k (stored_versions 1 (db sample_world_v2)) <-> 1 <= k <= 2)
  /\ exists older v,
       history 1 (db sample_world_v2) = older ++ [v]
       /\ NoteVersion.content v = "milk, eggs"%string.
Proof.
  destruct version_ledger_invariant as [H _].
  destruct (H sample_world_v2 sample_reachable
              (Note.make 1 1 "Groceries" "milk, eggs" 2 None 0))
    as (Hk & _ & older & v & Hh & _ & Hc & _).
  - simpl. left. reflexivity.
  - split; [reflexivity|]. split; [exact Hk|].
    exists older, v. split; [exact Hh | exact Hc].
Defined.

(** ** The versions a read returns *)

Lemma seq_sorted a n : StronglySorted Z.lt (map Z.of_nat (seq a n)).
Proof.
  revert a. induction n as [|n IH]; intros a; simpl; constructor.
  - apply IH.
  - apply Forall_forall. intros x Hx. apply in_map_iff in Hx.
    destruct Hx as (m & <- & Hm). apply in_seq in Hm. lia.
Qed.

Lemma sorted_by_key (A : Type) (key : A -> Z) (R : Z -> Z -> Prop) l :
  StronglySorted R (map key l) ->
  StronglySorted (fun a b => R (key a) (key b)) l.
Proof.
  induction l as [|a l IH]; simpl; intros H; constructor;
    inversion H as [|? ? Hs Hf]; subst.
  - apply IH. exact Hs.
  - rewrite Forall_map in Hf. exact Hf.
Qed.

Lemma upto_positive k : upto k <> [] -> 1 <= k.
Proof.
  unfold upto. destruct k; simpl; try congruence. lia.
Qed.

Lemma upto_two k : 2 <= k -> exists l, upto k = 1 :: 2 :: l.
Proof.
  intros Hk. unfold upto.
  destruct (Z.to_nat k) as [|[|m]] eqn:E; try lia.
  eexists. reflexivity.
Qed.

(** C9.  The versions returned with a note read are the NoteVersion records
    of that note, each exactly once, as a finite list, and the read leaves
    the world untouched, so that enumerating again yields the same list.
    They do not come newest first: the order asked for inside the include
    is not applied, and the records come in the order they were stored,
    oldest first.  In a reachable world their numbers are 1, 2, ..., V for a
    note at version V, and the list is newest first only when the note has a
    single version. *)
Theorem versions_listed_in_stored_order :
  forall w noteId userId inst w',
    reachable w ->
    run (getNoteById noteId userId) w = (Ok inst, w') ->
    versions inst = history noteId (db w)
    /\ map NoteVersion.version (versions inst)
       = upto (Note.version (note inst))
    /\ oldest_first (versions inst)
    /\ (newest_first (versions inst) <-> Note.version (note inst) = 1)
    /\ Note.id (note inst) = noteId
    /\ w' = w
    /\ run (getNoteById noteId userId) w' = (Ok inst, w').
Proof.
  intros w noteId userId inst w' Hw Hrun.
  destruct (getNoteById_cases noteId userId w)
    as [E|(n & Hin & Hid & _ & E)]; rewrite E in Hrun; [discriminate|].
  injection Hrun as <- <-. simpl.
  pose proof (reachable_invariant w Hw) as Hinv.
  assert (Hh : include_versions (db w) n = history noteId (db w))
    by (unfold include_versions, history; rewrite Hid; reflexivity).
  assert (Hnum : map NoteVersion.version (include_versions (db w) n)
                 = upto (Note.version n)).
  { rewrite Hh, <- Hid. exact (inv_numbers Hinv n Hin). }
  assert (Hpos : 1 <= Note.version n).
  { apply upto_positive. rewrite <- Hnum, Hh, <- Hid.
    destruct (inv_head Hinv n Hin) as (l & v & -> & _).
    rewrite map_app. intros Hnil. apply app_eq_nil in Hnil.
    destruct Hnil as [_ Hnil]. discriminate. }
  split; [exact Hh|]. split; [exact Hnum|]. split; [|split].
  - unfold oldest_first. apply sorted_by_key. rewrite Hnum. apply seq_sorted.
  - split.
    + intros Hnew.
      destruct (Z.eq_dec (Note.version n) 1) as [E1|Hne]; [exact E1|].
      destruct (upto_two (Note.version n)) as (l & Hl); [lia|].
      rewrite Hl in Hnum.
      destruct (include_versions (db w) n) as [|a [|b rest]];
        try discriminate.
      simpl in Hnum. injection Hnum as Ha Hb _.
      inversion Hnew as [|? ? _ Hf]; subst.
      inversion Hf as [|? ? Hab _]; subst. lia.
    + intros E1. rewrite E1 in Hnum.
      destruct (include_versions (db w) n) as [|a [|b rest]];
        try discriminate.
      repeat constructor.
  - split; [exact Hid|]. split; [reflexivity | exact E].
Qed.

Lemma versions_listed_in_stored_order_witness :
  run (getNoteById 1 1) sample_world_v2 = (Ok sample_read, sample_world_v2)
  /\ map NoteVersion.version (versions sample_read) = [1; 2]
  /\ ~ newest_first (versions sample_read).
Proof.
  assert (Hreach : reachable sample_world_v2).
  { unfold sample_world_v2, sample_world. apply reach_step.
    apply reachable_fold. apply reach_initial. }
  assert (Hrun : run (getNoteById 1 1) sample_world_v2
                 = (Ok sample_read, sample_world_v2))
    by (vm_compute; reflexivity).
  destruct (versions_listed_in_stored_order sample_world_v2 1 1 _ _
              Hreach Hrun) as (_ & Hnum & _ & Hnew & _).
  split; [exact Hrun|]. split; [exact Hnum|].
  intros H. apply Hnew in H. discriminate H.
Defined.

(** ** The keys of reachable stores *)

(* The hypotheses [primary_key] and "at most one grant per pair" used above
   are not extra assumptions on the service: they hold in every world the
   requests can reach. *)

Lemma reachable_primary_key w : reachable w -> primary_key (db w).
Proof. intros Hw. exact (inv_pk (reachable_invariant w Hw)). Qed.

Lemma upserted_unique noteId userId p d :
  unique_note_share d -> unique_note_share (upserted noteId userId p d).
Proof.
  intros Hu noteId' userId'. pose proof (Hu noteId' userId') as Hle.
  unfold count_shares, grants, upserted in *.
  destruct (find (share_of noteId userId) (rows (note_shares d))) as [s|] eqn:E.
  - simpl. rewrite filter_map_preserving.
    + rewrite length_map. exact Hle.
    + intros r. destruct (NoteShare.id r =? NoteShare.id s); reflexivity.
  - simpl. rewrite filter_app, length_app. simpl.
    destruct (share_of noteId' userId' _) eqn:Hnew; simpl.
    + unfold share_of in Hnew. simpl in Hnew.
      rewrite andb_true_iff, !Z.eqb_eq in Hnew. destruct Hnew as [-> ->].
      rewrite (find_none_filter _ _ _ E). simpl. lia.
    + lia.
Qed.

Lemma step_shares_cases w r :
  note_shares (db (step w r)) = note_shares (db w)
  \/ exists noteId userId p,
       note_shares (db (step w r))
       = note_shares (upserted noteId userId p (db w)).
Proof.
  destruct r; simpl; rewrite ?search_world.
  - left. unfold register, run.
    destruct (find _ _); [|destruct (User_validate _ _ _ _)]; reflexivity.
  - left. destruct (createNote_db_cases userId title content w)
      as [->|(_ & ->)]; reflexivity.
  - left. reflexivity.
  - left. destruct (getNoteById_cases noteId userId w)
      as [->|(n & _ & _ & _ & ->)]; reflexivity.
  - left. reflexivity.
  - left. unfold run.
    destruct (updateNote_cases noteId userId title content expectedVersion w)
      as [(msg & ->)|(n & _ & _ & _ & ->)]; [reflexivity|].
    simpl. rewrite invalidated_db. reflexivity.
  - left. destruct (owned_note noteId userId (db w)) as [n|] eqn:Hown.
    + rewrite (deleteNote_ok _ _ _ _ Hown). simpl. rewrite invalidated_db.
      reflexivity.
    + rewrite (deleteNote_denied _ _ _ Hown). reflexivity.
  - left. unfold run.
    destruct (revert_cases noteId userId targetVersion w)
      as [(msg & ->)|(n & tv & _ & _ & ->)]; [reflexivity|].
    simpl. rewrite invalidated_db. reflexivity.
  - destruct (Z.eq_dec ownerId sharedWithUserId) as [<-|Hne].
    + left. rewrite shareNote_self. reflexivity.
    + destruct (owned_note noteId ownerId (db w)) as [n|] eqn:Hown.
      * destruct (User_findByPk sharedWithUserId (db w)) as [u|] eqn:Hu.
        -- right.
           destruct (shareNote_ok noteId ownerId sharedWithUserId permission
                       w n u Hne Hown Hu) as (share & -> & _).
           simpl. rewrite !invalidated_db. simpl.
           do 3 eexists. reflexivity.
        -- left. rewrite (shareNote_no_user _ _ _ _ _ n) by assumption.
           reflexivity.
      * left. rewrite shareNote_denied by assumption. reflexivity.
  - left. destruct (addAttachment_cases noteId userId file w)
      as [(message & ->)|(n & _ & _ & ->)]; [reflexivity|].
    simpl. rewrite invalidated_db. reflexivity.
  - left. reflexivity.
  - left. reflexivity.
Qed.

Lemma reachable_unique_note_share w : reachable w -> unique_note_share (db w).
Proof.
  induction 1 as [r c|w r _ IH].
  - intros noteId userId. unfold count_shares, grants. simpl. lia.
  - intros noteId userId. unfold count_shares, grants.
    destruct (step_shares_cases w r) as [->|(n & u & p & ->)].
    + exact (IH noteId userId).
    + exact (upserted_unique n u p (db w) IH noteId userId).
Qed.

(** ** A run of the whole service *)

(* A note is created, updated, updated again with the version token of the
   first update, and reverted to its first version. *)
Example create_update_conflict_revert :
  let w0 := step (initial_world None 0) (sign_up "alice" "alice@example.org") in
  let w1 := step w0 (CreateNote 1 "Title" "first") in
  let w2 := step w1 (UpdateNote 1 1 "Title" "second" 1) in
  let w3 := step w2 (UpdateNote 1 1 "Title" "third" 1) in
  let w4 := step w3 (RevertToVersion 1 1 1) in
  stored_versions 1 (db w1) = [1]
  /\ option_map Note.version (note_by_id 1 (db w2)) = Some 2
  /\ stored_versions 1 (db w2) = [1; 2]
  /\ fst (run (updateNote 1 1 "Title" "third" 1) w2)
     = Throw version_conflict_message
  /\ db w3 = db w2
  /\ option_map Note.version (note_by_id 1 (db w4)) = Some 3
  /\ option_map Note.content (note_by_id 1 (db w4)) = Some "first"%string
  /\ map NoteVersion.content (history 1 (db w4))
     = ["first"; "second"; "first"]%string.
Proof. vm_compute. repeat split. Qed.

(** * Further properties of the service *)

(** ** Creating a note and reading it back *)

Lemma find_app_none (A : Type) (p : A -> bool) l l' :
  find p l = None -> find p (l ++ l') = find p l'.
Proof.
  induction l as [|r l IH]; simpl; [reflexivity|].
  destruct (p r); [discriminate | exact IH].
Qed.

Lemma fresh_id_absent d :
  history_invariant d -> absent d (auto_increment (notes d)).
Proof.
  intros Hinv. apply find_all_false. intros n Hin.
  apply Z.eqb_neq. pose proof (inv_ids Hinv n Hin). lia.
Qed.

Lemma fresh_id_no_history d :
  history_invariant d -> history (auto_increment (notes d)) d = [].
Proof.
  intros Hinv. unfold history. apply find_none_filter, find_all_false.
  intros v Hv. apply Z.eqb_neq. pose proof (inv_fk Hinv v Hv). lia.
Qed.

(** X1.  In a reachable world createNote succeeds when the title and the
    content are ones the model and the table accept and the caller is the id
    of a user.  The note it returns carries a fresh id (no row had it), the
    caller as owner, version 1 and no deletion mark; its history is one
    NoteVersion row with version 1, the same title and content, written by
    the caller; every other note is found as before; and the owner reads the
    note back at once, with exactly that one version.  With a blank title, a
    title of more than 255 characters, a content that does not fit its
    column, or a caller that is no user, createNote throws and the world is
    as it was. *)
Theorem createNote_read_back :
  forall w userId title content,
    reachable w ->
    (storable title content = true ->
     User_findByPk userId (db w) <> None ->
     exists n0 w' v inst,
      run (createNote userId title content) w = (Ok n0, w')
      /\ absent (db w) (Note.id n0)
      /\ n0 = Note.make (auto_increment (notes (db w))) userId title content
                        1 None (clock w)
      /\ history (Note.id n0) (db w') = [v]
      /\ mirrors v n0
      /\ NoteVersion.changedBy v = userId
      /\ (forall noteId, noteId <> Note.id n0 ->
            note_by_id noteId (db w') = note_by_id noteId (db w)
            /\ history noteId (db w') = history noteId (db w))
      /\ run (getNoteById (Note.id n0) userId) w' = (Ok inst, w')
      /\ note inst = n0
      /\ versions inst = [v])
    /\ (storable title content = false \/ User_findByPk userId (db w) = None ->
        exists message,
          run (createNote userId title content) w = (Throw message, w)).
Proof.
  intros w userId title content Hw. split.
  2: { intros Hbad.
       destruct (Note_create_error userId title content (db w))
         as [message|] eqn:He.
       - exists message. apply createNote_refused. exact He.
       - apply Note_create_accepts in He. destruct He as [Hs Hu].
         destruct Hbad as [Hbad|Hbad]; congruence. }
  intros Hstorable Huser.
  assert (Haccept : Note_create_error userId title content (db w) = None)
    by (apply Note_create_accepts; split; assumption).
  pose proof (reachable_invariant w Hw) as Hinv.
  set (ai := auto_increment (notes (db w))).
  set (n0 := Note.make ai userId title content 1 None (clock w)).
  set (v := NoteVersion.make (auto_increment (note_versions (db w))) ai title
                             content 1 userId (clock w)).
  set (w' := invalidated (notes_cache_pattern userId)
               (stored ["notes"%string; "note_versions"%string]
               (created userId title content w) w)).
  assert (Hdb : db w' = created userId title content w)
    by (unfold w'; rewrite invalidated_db; reflexivity).
  assert (Hhist : forall k, history k (db w')
                            = history k (db w) ++ (if ai =? k then [v] else [])).
  { intros k. rewrite Hdb. unfold created. rewrite history_snoc. reflexivity. }
  assert (Hfind : Note_findOne
                    (fun n => (Note.id n =? ai)
                              && ((Note.userId n =? userId)
                                  || shared_with (db w') n userId)
                              && is_null (Note.deletedAt n)) (db w')
                  = Some n0).
  { unfold Note_findOne. rewrite Hdb. simpl. rewrite find_app_none.
    - simpl. rewrite !Z.eqb_refl. reflexivity.
    - apply find_all_false. intros n Hin.
      replace (Note.id n =? ai) with false; [reflexivity|].
      symmetry. apply Z.eqb_neq. pose proof (inv_ids Hinv n Hin).
      fold ai in H. lia. }
  exists n0, w', v.
  exists (mkInstance n0 (User_findByPk userId (db w'))
                     (include_versions (db w') n0)
                     (include_attachments (db w') n0)
                     (joined_shares (db w') n0 userId)).
  assert (Hv : history ai (db w') = [v]).
  { rewrite Hhist, Z.eqb_refl. unfold ai. rewrite (fresh_id_no_history _ Hinv).
    reflexivity. }
  split; [apply createNote_run; exact Haccept|].
  split; [exact (fresh_id_absent _ Hinv)|].
  split; [reflexivity|]. split; [exact Hv|].
  split; [repeat split|]. split; [reflexivity|].
  split.
  { intros noteId Hne. simpl in Hne.
    assert (Hneq : (ai =? noteId) = false) by (apply Z.eqb_neq; congruence).
    split.
    - rewrite Hdb. unfold note_by_id, created. simpl.
      destruct (find (fun n => Note.id n =? noteId) (rows (notes (db w))))
        eqn:E.
      + apply find_app_some. exact E.
      + rewrite (find_app_none _ _ _ _ E). simpl. fold ai. rewrite Hneq.
        reflexivity.
    - rewrite Hhist, Hneq. apply app_nil_r. }
  split.
  { unfold getNoteById. unfold_monad. change (Note.id n0) with ai.
    cbv beta. rewrite Hfind. reflexivity. }
  split; [reflexivity|].
  simpl. unfold include_versions. change (Note.id n0) with ai.
  fold (history ai (db w')). rewrite Hv. reflexivity.
Qed.

Lemma createNote_read_back_witness :
  (exists n0 w' inst,
     run (createNote 2 "Plans" "paint the fence") sample_world_v2 = (Ok n0, w')
     /\ Note.id n0 = 2
     /\ run (getNoteById 2 2) w' = (Ok inst, w')
     /\ map NoteVersion.version (versions inst) = [1])
  /\ (exists message,
        run (createNote 2 "" "paint the fence") sample_world_v2
        = (Throw message, sample_world_v2))
  /\ (exists message,
        run (createNote 9 "Plans" "paint the fence") sample_world_v2
        = (Throw message, sample_world_v2)).
Proof.
  split; [|split].
  - destruct (createNote_read_back sample_world_v2 2 "Plans" "paint the fence"
                sample_reachable) as [H _].
    destruct H
      as (n0 & w' & v & inst & Hrun & _ & Hnote & _ & Hm & _ & _ & Hget & _ & Hv);
      [reflexivity | discriminate |].
    exists n0, w', inst. split; [exact Hrun|].
    split; [rewrite Hnote; reflexivity|].
    split; [rewrite Hnote in Hget; exact Hget|].
    rewrite Hv. simpl. destruct Hm as (_ & _ & Hver). rewrite Hver, Hnote.
    reflexivity.
  - apply (createNote_read_back sample_world_v2 2 "" "paint the fence"
             sample_reachable).
    left. reflexivity.
  - apply (createNote_read_back sample_world_v2 9 "Plans" "paint the fence"
             sample_reachable).
    right. reflexivity.
Defined.

(** ** A version token is good for one write *)

Lemma may_update_written n title content userId w m u :
  may_update (written n title content userId w) m u = may_update (db w) m u.
Proof. reflexivity. Qed.

(** X2.  After an update has succeeded with expectedVersion V, every further
    update that still carries V is rejected, whoever sends it and whatever
    it contains, and the store stays as the first update left it, with the
    note at V+1; sent again by a caller allowed to update, the rejection is
    the version conflict. *)
Theorem stale_token_is_rejected :
  forall w noteId userId title content expectedVersion n1 w1,
    run (updateNote noteId userId title content expectedVersion) w
    = (Ok n1, w1) ->
    live_note noteId (db w1) = Some n1
    /\ Note.version n1 = expectedVersion + 1
    /\ (forall userId2 title2 content2,
          exists msg,
            run (updateNote noteId userId2 title2 content2 expectedVersion) w1
            = (Throw msg, rolled_back w1)
            /\ (may_update (db w1) n1 userId2 = true ->
                msg = version_conflict_message))
    /\ run (updateNote noteId userId title content expectedVersion) w1
       = (Throw version_conflict_message, rolled_back w1).
Proof.
  intros w noteId userId title content expectedVersion n1 w1 Hrun.
  unfold run in *.
  destruct (updateNote_cases noteId userId title content expectedVersion w)
    as [(msg & E)|(n & Hn & Hp & -> & E)]; rewrite E in Hrun; [discriminate|].
  injection Hrun as <- <-.
  set (w1 := invalidated _ _).
  assert (Hdb : db w1 = written n title content userId w)
    by (unfold w1; rewrite invalidated_db; reflexivity).
  set (n1 := Note.make _ _ _ _ _ _ _).
  assert (Hn1 : live_note noteId (db w1) = Some n1)
    by (rewrite Hdb; apply live_note_written; exact Hn).
  assert (Hv : Note.version n1 <> Note.version n) by (simpl; lia).
  split; [exact Hn1|]. split; [reflexivity|]. split.
  - intros userId2 title2 content2.
    destruct (may_update (db w1) n1 userId2) eqn:Hp2.
    + eexists. split; [|reflexivity].
      apply updateNote_conflict with (n := n1); assumption.
    + eexists. split; [|discriminate].
      apply updateNote_denied with (n := n1); assumption.
  - apply updateNote_conflict with (n := n1); try assumption.
    rewrite Hdb, may_update_written. exact Hp.
Qed.

Lemma stale_token_is_rejected_witness :
  run (updateNote 1 1 "Groceries" "bread" 1) sample_world_v2
  = (Throw version_conflict_message, rolled_back sample_world_v2).
Proof.
  assert (Hrun : run (updateNote 1 2 "Groceries" "milk, eggs" 1) sample_world
                 = (Ok (Note.make 1 1 "Groceries" "milk, eggs" 2 None 0),
                    sample_world_v2))
    by (vm_compute; reflexivity).
  destruct (stale_token_is_rejected _ _ _ _ _ _ _ _ Hrun)
    as (_ & _ & Hany & _).
  destruct (Hany 1 "Groceries"%string "bread"%string) as (msg & Hrun2 & Hmsg).
  rewrite Hrun2. rewrite Hmsg; [reflexivity|]. reflexivity.
Defined.

(** ** Who can read *)

Lemma shared_with_spec d n userId :
  shared_with d n userId = true <-> has_share d (Note.id n) userId.
Proof.
  unfold shared_with, has_share. rewrite existsb_exists.
  split; intros (s & Hin & Hs); exists s; (split; [exact Hin|]).
  - rewrite andb_true_iff, !Z.eqb_eq in Hs. exact Hs.
  - rewrite andb_true_iff, !Z.eqb_eq. exact Hs.
Qed.

Lemma shared_with_edit_spec d n userId :
  shared_with_edit d n userId = true <-> has_edit_share d (Note.id n) userId.
Proof.
  unfold shared_with_edit, has_edit_share. rewrite existsb_exists.
  split; intros (s & Hin & Hs); exists s; (split; [exact Hin|]).
  - rewrite !andb_true_iff, !Z.eqb_eq, permission_eqb_eq in Hs. tauto.
  - rewrite !andb_true_iff, !Z.eqb_eq, permission_eqb_eq. tauto.
Qed.

Lemma getNoteById_ok noteId userId w n :
  primary_key (db w) ->
  note_by_id noteId (db w) = Some n ->
  Note.deletedAt n = None ->
  may_read (db w) n userId ->
  run (getNoteById noteId userId) w
  = (Ok (mkInstance n (User_findByPk (Note.userId n) (db w))
                    (include_versions (db w) n)
                    (include_attachments (db w) n)
                    (joined_shares (db w) n userId)), w).
Proof.
  intros Hpk Hn Hlive Hread. apply note_by_id_In in Hn.
  destruct Hn as [Hin Hid].
  unfold getNoteById. unfold_monad. unfold Note_findOne.
  rewrite (find_unique _ Note.id _ _ n Hpk Hin); [reflexivity| |].
  - rewrite Hid, Hlive, Z.eqb_refl. simpl. rewrite andb_true_r.
    apply orb_true_iff. destruct Hread as [Ho|Hs].
    + left. apply Z.eqb_eq. exact Ho.
    + right. apply shared_with_spec. exact Hs.
  - intros r Hr. rewrite !andb_true_iff, Z.eqb_eq in Hr. intuition congruence.
Qed.

Lemma getNoteById_ok_inv noteId userId w inst w' :
  run (getNoteById noteId userId) w = (Ok inst, w') ->
  In (note inst) (rows (notes (db w)))
  /\ Note.id (note inst) = noteId
  /\ Note.deletedAt (note inst) = None
  /\ may_read (db w) (note inst) userId.
Proof.
  unfold getNoteById. unfold_monad.
  destruct (Note_findOne _ (db w)) as [n|] eqn:E; [|discriminate].
  intros [= <- _]. simpl. apply find_some in E. destruct E as [Hin E].
  rewrite !andb_true_iff, Z.eqb_eq, orb_true_iff, Z.eqb_eq in E.
  destruct E as [[Hid Hacc] Hlive].
  repeat split; auto; [apply is_null_none; exact Hlive|].
  destruct Hacc as [Ho|Hs]; [left; exact Ho|].
  right. apply shared_with_spec. exact Hs.
Qed.

(** X3.  Under the primary key, a read by id hands back the note with that
    id exactly when the note is live and the caller owns it or holds a share
    on it, of either permission; in every other case the read fails. *)
Theorem read_access_iff :
  forall w noteId userId n,
    primary_key (db w) ->
    note_by_id noteId (db w) = Some n ->
    (exists inst,
       run (getNoteById noteId userId) w = (Ok inst, w) /\ note inst = n)
    <-> (Note.deletedAt n = None /\ may_read (db w) n userId).
Proof.
  intros w noteId userId n Hpk Hn. split.
  - intros (inst & Hrun & <-).
    destruct (getNoteById_ok_inv _ _ _ _ _ Hrun) as (_ & _ & Hl & Hr).
    split; assumption.
  - intros [Hl Hr]. eexists. split.
    + apply getNoteById_ok; eassumption.
    + reflexivity.
Qed.

Lemma read_access_iff_witness :
  (exists inst,
     run (getNoteById 1 2) sample_world = (Ok inst, sample_world)
     /\ note inst = sample_note)
  /\ ~ (exists inst,
          run (getNoteById 1 3) sample_world = (Ok inst, sample_world)
          /\ note inst = sample_note).
Proof.
  assert (Hpk : primary_key (db sample_world))
    by (repeat constructor; simpl; intuition discriminate).
  split.
  - apply (read_access_iff sample_world 1 2 sample_note Hpk eq_refl).
    split; [reflexivity|]. right. eexists. split; [left; reflexivity|].
    split; reflexivity.
  - intros H.
    apply (read_access_iff sample_world 1 3 sample_note Hpk eq_refl) in H.
    destruct H as [_ [Ho|(s & Hin & _ & Hs)]].
    + discriminate.
    + simpl in Hin. destruct Hin as [<-|[]]. discriminate.
Defined.

(** ** A viewer only reads *)

Lemma may_update_false d n userId :
  ~ is_owner n userId -> ~ has_edit_share d (Note.id n) userId ->
  may_update d n userId = false.
Proof.
  intros Ho He. destruct (may_update d n userId) eqn:E; [|reflexivity].
  apply may_update_spec in E. tauto.
Qed.




(** ** Listing and searching *)

Lemma getAllNotes_run userId w :
  run (getAllNotes userId) w
  = (Ok (map (fun n => mkInstance n (User_findByPk (Note.userId n) (db w))
                                  [] [] (joined_shares (db w) n userId))
             (order_desc Note.createdAt
                (Note_findAll
                   (fun n => is_null (Note.deletedAt n)
                             && ((Note.userId n =? userId)
                                 || shared_with (db w) n userId))
                   (db w)))), w).
Proof. reflexivity. Qed.

Lemma is_null_spec (A : Type) (o : option A) : is_null o = true <-> o = None.
Proof. destruct o; simpl; split; congruence. Qed.

Lemma NoDup_map_filter (A : Type) (key : A -> Z) (p : A -> bool) l :
  NoDup (map key l) -> NoDup (map key (filter p l)).
Proof.
  induction l as [|r l IH]; simpl; intros Hnd; [constructor|].
  inversion Hnd as [|? ? Hnotin Hnd']; subst.
  destruct (p r); simpl; [|apply IH; exact Hnd'].
  constructor; [|apply IH; exact Hnd'].
  intros Hin. apply Hnotin. apply in_map_iff in Hin.
  destruct Hin as (x & Hx & Hin). apply filter_In in Hin.
  rewrite <- Hx. apply in_map. tauto.
Qed.

(** X5.  getAllNotes never fails and changes nothing.  It lists exactly the
    live notes the caller owns or holds a share on, newest created first;
    under the primary key no note is listed twice, and a note is listed
    exactly when a read by id of it succeeds for the same caller. *)
Theorem list_is_what_can_be_read :
  forall w userId,
    exists l,
      run (getAllNotes userId) w = (Ok l, w)
      /\ (forall n, In n (notes_of l)
                    <-> In n (rows (notes (db w)))
                        /\ Note.deletedAt n = None
                        /\ may_read (db w) n userId)
      /\ newest_created_first (notes_of l)
      /\ (primary_key (db w) ->
          NoDup (map Note.id (notes_of l))
          /\ forall noteId,
               In noteId (map Note.id (notes_of l))
               <-> exists inst,
                     run (getNoteById noteId userId) w = (Ok inst, w)).
Proof.
  intros w userId. eexists. split; [apply getAllNotes_run|].
  unfold notes_of. rewrite map_map. simpl. rewrite map_id.
  assert (Hmem : forall n,
            In n (order_desc Note.createdAt
                    (Note_findAll
                       (fun n => is_null (Note.deletedAt n)
                                 && ((Note.userId n =? userId)
                                     || shared_with (db w) n userId)) (db w)))
            <-> In n (rows (notes (db w)))
                /\ Note.deletedAt n = None /\ may_read (db w) n userId).
  { intros n. rewrite order_desc_In. unfold Note_findAll.
    rewrite filter_In, andb_true_iff, orb_true_iff, is_null_spec, Z.eqb_eq,
      shared_with_spec. unfold may_read, is_owner. tauto. }
  split; [exact Hmem|]. split; [apply order_desc_sorted|].
  intros Hpk. split.
  - eapply Permutation_NoDup.
    + apply Permutation_map. apply order_desc_perm.
    + apply NoDup_map_filter. exact Hpk.
  - intros noteId. rewrite in_map_iff. split.
    + intros (n & Hid & Hin). apply Hmem in Hin.
      destruct Hin as (Hin & Hl & Hr). eexists.
      apply getNoteById_ok with (n := n); auto.
      apply find_unique with (key := Note.id); auto.
      * apply Z.eqb_eq. exact Hid.
      * intros r Hr'. apply Z.eqb_eq in Hr'. congruence.
    + intros (inst & Hrun).
      destruct (getNoteById_ok_inv _ _ _ _ _ Hrun) as (Hin & Hid & Hl & Hr).
      exists (note inst). split; [exact Hid|]. apply Hmem. tauto.
Qed.

Lemma list_is_what_can_be_read_witness :
  exists l,
    run (getAllNotes 2) sample_world = (Ok l, sample_world)
    /\ map Note.id (notes_of l) = [1]
    /\ exists inst, run (getNoteById 1 2) sample_world = (Ok inst, sample_world).
Proof.
  destruct (list_is_what_can_be_read sample_world 2)
    as (l & Hrun & _ & _ & Hpk).
  destruct Hpk as [_ Hiff].
  - repeat constructor; simpl; intuition discriminate.
  - exists l. split; [exact Hrun|].
    assert (Hids : map Note.id (notes_of l) = [1]).
    { rewrite getAllNotes_run in Hrun. injection Hrun as <-.
      vm_compute. reflexivity. }
    split; [exact Hids|]. apply Hiff. rewrite Hids. left. reflexivity.
Defined.

Lemma search_run keyword_match userId keywords w :
  literal_body keywords = true ->
  run (searchNotesByKeywords keyword_match userId keywords) w
  = (Ok (map (fun n => mkInstance n (User_findByPk (Note.userId n) (db w)) [] []
                         (NoteShare_findAll
                            (fun s => (NoteShare.noteId s =? Note.id n)
                                      && (NoteShare.sharedWithUserId s
                                          =? userId)) (db w)))
             (order_desc Note.createdAt
                (Note_findAll
                   (fun n => ((Note.userId n =? userId)
                              || shared_with (db w) n userId)
                             && is_null (Note.deletedAt n)
                             && keyword_match keywords n)
                   (db w)))), w).
Proof.
  intros H. unfold searchNotesByKeywords, run. rewrite H. reflexivity.
Qed.

(** X6.  When the keywords are read by the database as the body of the one
    string literal they are spliced into (as they are once the handler has
    taken the quotes and the backslashes out), then, whatever its keyword
    matching decides, a search succeeds, changes nothing, and every note it
    returns is one getAllNotes lists for the same caller: live, and owned by
    or shared with the caller.  The results come newest created first. *)
Theorem search_stays_within_the_list :
  forall keyword_match w userId keywords,
    literal_body keywords = true ->
    exists found listed,
      run (searchNotesByKeywords keyword_match userId keywords) w
      = (Ok found, w)
      /\ run (getAllNotes userId) w = (Ok listed, w)
      /\ incl (notes_of found) (notes_of listed)
      /\ newest_created_first (notes_of found)
      /\ Forall (fun n => keyword_match keywords n = true) (notes_of found).
Proof.
  intros keyword_match w userId keywords Hsafe.
  do 2 eexists. split; [apply search_run; exact Hsafe|].
  split; [apply getAllNotes_run|].
  unfold notes_of. rewrite !map_map. simpl. rewrite !map_id.
  split; [|split].
  - intros n Hin. apply order_desc_In. apply order_desc_In in Hin.
    unfold Note_findAll in *. apply filter_In in Hin. apply filter_In.
    destruct Hin as [Hin Hc]. split; [exact Hin|].
    rewrite !andb_true_iff in *. tauto.
  - apply order_desc_sorted.
  - apply Forall_forall. intros n Hin. apply order_desc_In in Hin.
    apply filter_In in Hin. destruct Hin as [_ Hc].
    rewrite !andb_true_iff in Hc. tauto.
Qed.

Lemma search_stays_within_the_list_witness :
  exists found,
    run (searchNotesByKeywords (fun _ _ => true) 2 "milk") sample_world
    = (Ok found, sample_world)
    /\ map Note.id (notes_of found) = [1].
Proof.
  destruct (search_stays_within_the_list (fun _ _ => true) sample_world 2
              "milk" eq_refl) as (found & listed & Hrun & _).
  exists found. split; [exact Hrun|].
  rewrite search_run in Hrun by reflexivity. injection Hrun as <-.
  vm_compute. reflexivity.
Defined.

(** ** Attachments *)

Lemma find_exists (A : Type) (p : A -> bool) l x :
  In x l -> p x = true -> exists m, find p l = Some m.
Proof.
  intros Hin Hp. destruct (find p l) as [m|] eqn:E; [exists m; reflexivity|].
  rewrite (find_none _ _ E x Hin) in Hp. discriminate.
Qed.

Lemma has_edit_share_has_share d noteId userId :
  has_edit_share d noteId userId -> has_share d noteId userId.
Proof. intros (s & Hin & H1 & H2 & _). exists s. tauto. Qed.

(** X7.  The owner of a live note, or a holder of an edit share on it, adds
    an attachment whose description fits the columns of the table (names of
    at most 255 characters, a mime type of at most 100, a path of at most
    500, a size within the INTEGER range): the call succeeds and appends
    exactly one row to the attachments table, carrying the note id and the
    uploaded file's name, original name, mime type, size and path; notes,
    versions, shares and users are untouched (an attachment does not create
    a version); and a read by id by the same caller then shows the
    attachment.  A description that does not fit is refused by the table:
    the call throws and the world is as it was. *)
Theorem attachment_is_added_not_versioned :
  forall w noteId userId file n,
    live_note noteId (db w) = Some n ->
    is_owner n userId \/ has_edit_share (db w) noteId userId ->
    (attachable file = false ->
     exists message,
       run (addAttachment noteId userId file) w = (Throw message, w))
    /\
    (attachable file = true ->
    exists a w' inst,
      run (addAttachment noteId userId file) w = (Ok a, w')
      /\ a = NoteAttachment.make (auto_increment (note_attachments (db w)))
               noteId (File.filename file) (File.originalname file)
               (File.mimetype file) (File.size file) (File.path file)
      /\ rows (note_attachments (db w')) = rows (note_attachments (db w)) ++ [a]
      /\ notes (db w') = notes (db w)
      /\ note_versions (db w') = note_versions (db w)
      /\ note_shares (db w') = note_shares (db w)
      /\ users (db w') = users (db w)
      /\ run (getNoteById noteId userId) w' = (Ok inst, w')
      /\ In a (attachments inst)).
Proof.
  intros w noteId userId file n Hn Hauth. split.
  { intros Hbad.
    destruct (addAttachment_cases noteId userId file w)
      as [(message & E)|(m & _ & He & _)]; [exists message; exact E|].
    unfold attachable in Hbad. rewrite He in Hbad. discriminate. }
  intros Hfits.
  assert (Hnone : NoteAttachment_create_error file = None)
    by (apply is_null_none; exact Hfits).
  pose proof (live_note_id _ _ _ Hn) as Hid.
  pose proof (live_note_live _ _ _ Hn) as Hlive.
  pose proof (live_note_In _ _ _ Hn) as Hin.
  assert (Hfind : exists m,
            Note_findOne
              (fun r => (Note.id r =? noteId)
                        && ((Note.userId r =? userId)
                            || shared_with_edit (db w) r userId)
                        && is_null (Note.deletedAt r)) (db w) = Some m).
  { apply find_exists with (x := n); [exact Hin|].
    rewrite Hid, Hlive, Z.eqb_refl. simpl. rewrite andb_true_r.
    apply orb_true_iff. destruct Hauth as [Ho|He].
    - left. apply Z.eqb_eq. exact Ho.
    - right. apply shared_with_edit_spec. rewrite Hid. exact He. }
  destruct Hfind as (m & Hm).
  set (a := NoteAttachment.make (auto_increment (note_attachments (db w)))
              noteId (File.filename file) (File.originalname file)
              (File.mimetype file) (File.size file) (File.path file)).
  set (d' := set_note_attachments
               (insert (fun _ => a) (note_attachments (db w))) (db w)).
  set (w' := invalidated (notes_cache_pattern userId)
               (stored ["note_attachments"%string] d' w)).
  assert (Hdb : db w' = d') by (unfold w'; rewrite invalidated_db; reflexivity).
  assert (Hrun : run (addAttachment noteId userId file) w = (Ok a, w')).
  { unfold addAttachment, NoteAttachment_create. unfold_monad.
    rewrite Hm, Hnone. rewrite invalidateCache_total. reflexivity. }
  assert (Hread : exists m',
            Note_findOne
              (fun r => (Note.id r =? noteId)
                        && ((Note.userId r =? userId)
                            || shared_with (db w') r userId)
                        && is_null (Note.deletedAt r)) (db w') = Some m').
  { unfold Note_findOne. rewrite Hdb. simpl.
    apply find_exists with (x := n); [exact Hin|].
    rewrite Hid, Hlive, Z.eqb_refl. simpl. rewrite andb_true_r.
    apply orb_true_iff. destruct Hauth as [Ho|He].
    - left. apply Z.eqb_eq. exact Ho.
    - right. apply shared_with_spec. rewrite Hid.
      apply has_edit_share_has_share in He.
      destruct He as (s & Hs). exists s. exact Hs. }
  destruct Hread as (m' & Hm').
  assert (Hid' : Note.id m' = noteId).
  { apply find_some in Hm'. destruct Hm' as [_ Hp].
    rewrite !andb_true_iff, Z.eqb_eq in Hp. tauto. }
  exists a, w'.
  exists (mkInstance m' (User_findByPk (Note.userId m') (db w'))
                     (include_versions (db w') m')
                     (include_attachments (db w') m')
                     (joined_shares (db w') m' userId)).
  split; [exact Hrun|]. split; [reflexivity|].
  rewrite Hdb. split; [reflexivity|]. repeat (split; [reflexivity|]).
  split.
  - unfold getNoteById. unfold_monad. rewrite Hm'. rewrite Hdb. reflexivity.
  - simpl. unfold include_attachments. apply filter_In. split.
    + simpl. apply in_or_app. right. left. reflexivity.
    + simpl. rewrite Hid'. apply Z.eqb_refl.
Qed.

Lemma attachment_is_added_not_versioned_witness :
  (exists a w' inst,
     run (addAttachment 1 2 sample_file) sample_world = (Ok a, w')
     /\ NoteAttachment.originalFilename a = "fence.png"%string
     /\ stored_versions 1 (db w') = [1]
     /\ run (getNoteById 1 2) w' = (Ok inst, w')
     /\ In a (attachments inst))
  /\ exists message,
       run (addAttachment 1 2 (File.make "1700000000-42.png" "fence.png"
                                         "image/png" 4294967296
                                         "uploads/1700000000-42.png"))
           sample_world
       = (Throw message, sample_world).
Proof.
  assert (Hauth : is_owner sample_note 2 \/ has_edit_share (db sample_world) 1 2).
  { right. eexists. split; [left; reflexivity|]. repeat split. }
  split.
  - destruct (attachment_is_added_not_versioned sample_world 1 2 sample_file
                sample_note eq_refl Hauth) as [_ H].
    destruct (H eq_refl)
      as (a & w' & inst & Hrun & Ha & _ & _ & Hv & _ & _ & Hget & Hin).
    exists a, w', inst. split; [exact Hrun|].
    split; [rewrite Ha; reflexivity|].
    split; [unfold stored_versions, history; rewrite Hv; reflexivity|].
    split; assumption.
  - apply (attachment_is_added_not_versioned sample_world 1 2 _
             sample_note eq_refl Hauth).
    reflexivity.
Defined.

(** ** What a share grants *)

Lemma shareNote_grant noteId ownerId sharedWithUserId permission w n u :
  ownerId <> sharedWithUserId ->
  owned_note noteId ownerId (db w) = Some n ->
  User_findByPk sharedWithUserId (db w) = Some u ->
  (count_shares noteId sharedWithUserId (db w) <= 1)%nat ->
  exists share,
    run (shareNote noteId ownerId sharedWithUserId permission) w
    = (Ok share,
       invalidated (notes_cache_pattern sharedWithUserId)
         (invalidated (notes_cache_pattern ownerId)
            (stored ["note_shares"%string]
               (upserted noteId sharedWithUserId (or_read permission)
                         (db w)) w)))
    /\ grants noteId sharedWithUserId
         (upserted noteId sharedWithUserId (or_read permission) (db w))
       = [share]
    /\ NoteShare.permission share = or_read permission.
Proof.
  unfold owned_note. intros Hne H Hu Hle. unfold shareNote.
  apply Z.eqb_neq in Hne. rewrite Hne. unfold_monad. rewrite H, Hu.
  unfold NoteShare_findOrCreate, upserted, count_shares, grants in *.
  fold (share_of noteId sharedWithUserId).
  destruct (find (share_of noteId sharedWithUserId)
                 (rows (note_shares (db w)))) as [s|] eqn:E.
  - simpl. unfold NoteShare_save, exec, bind, emit. simpl.
    rewrite !invalidateCache_total.
    eexists. split; [reflexivity|]. split; [|reflexivity].
    destruct (find_head_of_filter _ _ _ _ E) as (l' & Hf). rewrite Hf in Hle.
    destruct l' as [|? ?]; [|simpl in Hle; lia].
    simpl. rewrite filter_map_preserving.
    + rewrite Hf. simpl. rewrite Z.eqb_refl. reflexivity.
    + intros r. destruct (NoteShare.id r =? NoteShare.id s); reflexivity.
  - simpl. rewrite !invalidateCache_total.
    eexists. split; [reflexivity|]. split; [|reflexivity].
    simpl. rewrite filter_app, (find_none_filter _ _ _ E). simpl.
    unfold share_of. simpl. rewrite !Z.eqb_refl. reflexivity.
Qed.

Lemma grants_In noteId userId d s :
  In s (grants noteId userId d)
  <-> In s (rows (note_shares d))
      /\ NoteShare.noteId s = noteId /\ NoteShare.sharedWithUserId s = userId.
Proof.
  unfold grants, share_of. rewrite filter_In, andb_true_iff, !Z.eqb_eq.
  reflexivity.
Qed.

(** X8.  When the owner of a live note shares it with an existing other
    user (the pair having at most one row before), the call succeeds and the
    pair's only row is the share it returns, with the permission asked for,
    or read when none was given: the last grant wins, so a share without a
    permission turns an earlier edit grant into a read grant.  The target
    can then read the note; granted edit, the target's update carrying the
    current version, with a title and a content the model and the table
    accept, succeeds; granted read, every update by the target is answered
    "Permission denied". *)
Theorem share_sets_the_grant :
  forall w noteId ownerId sharedWithUserId permission n u,
    live_note noteId (db w) = Some n ->
    is_owner n ownerId ->
    ownerId <> sharedWithUserId ->
    User_findByPk sharedWithUserId (db w) = Some u ->
    (count_shares noteId sharedWithUserId (db w) <= 1)%nat ->
    exists share w',
      run (shareNote noteId ownerId sharedWithUserId permission) w
      = (Ok share, w')
      /\ grants noteId sharedWithUserId (db w') = [share]
      /\ NoteShare.permission share = or_read permission
      /\ (exists inst,
            run (getNoteById noteId sharedWithUserId) w' = (Ok inst, w'))
      /\ (or_read permission = NoteShare.edit ->
          forall title content,
          storable title content = true ->
          exists n' w'',
            run (updateNote noteId sharedWithUserId title content
                            (Note.version n)) w' = (Ok n', w''))
      /\ (or_read permission = NoteShare.read ->
          forall title content expectedVersion,
            run (updateNote noteId sharedWithUserId title content
                            expectedVersion) w'
            = (Throw "Permission denied"%string, rolled_back w')).
Proof.
  intros w noteId ownerId sharedWithUserId permission n u Hn Ho Hne Hu Hle.
  pose proof (owned_note_of_live _ _ _ _ Hn Ho) as Hown.
  pose proof (live_note_id _ _ _ Hn) as Hid.
  destruct (shareNote_grant noteId ownerId sharedWithUserId permission w n u
              Hne Hown Hu Hle) as (share & Hrun & Hg & Hperm).
  set (w' := invalidated _ (invalidated _ _)) in Hrun.
  assert (Hdb : db w' = upserted noteId sharedWithUserId (or_read permission)
                                 (db w))
    by (unfold w'; rewrite !invalidated_db; reflexivity).
  destruct (upserted_notes noteId sharedWithUserId (or_read permission) (db w))
    as (Hnotes & _ & _).
  assert (Hn' : live_note noteId (db w') = Some n).
  { unfold live_note, Note_findOne in *. rewrite Hdb, Hnotes. exact Hn. }
  assert (Hshare : In share (grants noteId sharedWithUserId (db w')))
    by (rewrite Hdb, Hg; left; reflexivity).
  apply grants_In in Hshare. destruct Hshare as (Hin & Hs1 & Hs2).
  exists share, w'. split; [exact Hrun|].
  split; [rewrite Hdb; exact Hg|]. split; [exact Hperm|].
  split; [|split].
  - destruct (find_exists _
                (fun r => (Note.id r =? noteId)
                          && ((Note.userId r =? sharedWithUserId)
                              || shared_with (db w') r sharedWithUserId)
                          && is_null (Note.deletedAt r))
                (rows (notes (db w'))) n) as (m & Hm).
    + exact (live_note_In _ _ _ Hn').
    + rewrite Hid, (live_note_live _ _ _ Hn), Z.eqb_refl. simpl.
      rewrite andb_true_r. apply orb_true_iff. right.
      apply shared_with_spec. rewrite Hid. exists share. tauto.
    + eexists. unfold getNoteById. unfold_monad.
      unfold Note_findOne. rewrite Hm. reflexivity.
  - intros Hedit title content Hs. do 2 eexists.
    apply updateNote_ok; [exact Hn'| |apply storable_saves; exact Hs].
    apply may_update_spec. right. rewrite Hid. exists share.
    rewrite Hperm. tauto.
  - intros Hread title content expectedVersion.
    apply updateNote_denied with (n := n); [exact Hn'|].
    apply may_update_false.
    + unfold is_owner in *. congruence.
    + rewrite Hid. intros (s & Hsin & H1 & H2 & H3).
      assert (Hs : In s (grants noteId sharedWithUserId (db w')))
        by (apply grants_In; tauto).
      rewrite Hdb, Hg in Hs. destruct Hs as [<-|[]]. congruence.
Qed.

Lemma share_sets_the_grant_witness :
  exists share w',
    run (shareNote 1 1 2 None) sample_world = (Ok share, w')
    /\ grants 1 2 (db sample_world)
       = [NoteShare.make 1 1 2 NoteShare.edit]
    /\ grants 1 2 (db w') = [NoteShare.make 1 1 2 NoteShare.read]
    /\ run (updateNote 1 2 "Groceries" "milk, eggs" 1) w'
       = (Throw "Permission denied"%string, rolled_back w').
Proof.
  destruct (share_sets_the_grant sample_world 1 1 2 None sample_note
              (User.make 2 "bob" "bob@example.org"))
    as (share & w' & Hrun & Hg & Hp & _ & _ & Hdenied).
  - reflexivity.
  - reflexivity.
  - discriminate.
  - reflexivity.
  - vm_compute. lia.
  - exists share, w'. split; [exact Hrun|]. split; [reflexivity|].
    split; [|apply Hdenied; reflexivity].
    rewrite Hg. f_equal.
    assert (Hin : In share (grants 1 2 (db w')))
      by (rewrite Hg; left; reflexivity).
    assert (Hw' : db w' = db (snd (run (shareNote 1 1 2 None) sample_world)))
      by (rewrite Hrun; reflexivity).
    rewrite Hw' in Hin. vm_compute in Hin. destruct Hin as [<-|[]].
    reflexivity.
Defined.

(** ** What no request does to a note *)

Lemma step_db_cases_live w r :
  (notes (db (step w r)) = notes (db w)
   /\ note_versions (db (step w r)) = note_versions (db w))
  \/ (exists userId title content,
        db (step w r) = created userId title content w)
  \/ (exists n title content userId,
        In n (rows (notes (db w))) /\ Note.deletedAt n = None
        /\ db (step w r) = written n title content userId w)
  \/ (exists n,
        In n (rows (notes (db w))) /\ Note.deletedAt n = None
        /\ db (step w r) = soft_deleted n (clock w) (db w)).
Proof.
  destruct r; simpl; rewrite ?search_world.
  - left. apply register_tables.
  - destruct (createNote_cases userId title content w)
      as [(message & _ & ->)|(_ & ->)].
    + left. split; reflexivity.
    + right. left. simpl. rewrite invalidated_db. do 3 eexists. reflexivity.
  - left. split; reflexivity.
  - left. destruct (getNoteById_cases noteId userId w)
      as [->|(n & _ & _ & _ & ->)]; split; reflexivity.
  - left. split; reflexivity.
  - unfold run.
    destruct (updateNote_cases noteId userId title content expectedVersion w)
      as [(msg & ->)|(n & Hn & _ & _ & ->)].
    + left. split; reflexivity.
    + right. right. left. simpl. rewrite invalidated_db.
      exists n, title, content, userId.
      split; [exact (live_note_In _ _ _ Hn)|].
      split; [exact (live_note_live _ _ _ Hn) | reflexivity].
  - destruct (owned_note noteId userId (db w)) as [n|] eqn:Hown.
    + right. right. right. rewrite (deleteNote_ok _ _ _ _ Hown). simpl.
      rewrite invalidated_db. exists n. apply owned_note_spec in Hown.
      split; [tauto|]. split; [tauto | reflexivity].
    + left. rewrite (deleteNote_denied _ _ _ Hown). split; reflexivity.
  - unfold run.
    destruct (revert_cases noteId userId targetVersion w)
      as [(msg & ->)|(n & tv & Hn & _ & ->)].
    + left. split; reflexivity.
    + right. right. left. simpl. rewrite invalidated_db.
      exists n, (NoteVersion.title tv), (NoteVersion.content tv), userId.
      apply owned_note_spec in Hn. split; [tauto|]. split; [tauto|reflexivity].
  - left. apply shareNote_tables.
  - left. apply addAttachment_tables.
  - left. split; reflexivity.
  - left. split; reflexivity.
Qed.

(** X9.  No request removes a note row, changes a note's id, owner or
    creation time, or clears a deletion mark: the row found for an id before
    a request is still found after it with the same id, userId and
    createdAt, and once deletedAt is set it stays set.  This holds in every
    world, for every request. *)
Theorem notes_are_never_removed_or_reassigned :
  forall w r noteId n,
    note_by_id noteId (db w) = Some n ->
    exists n',
      note_by_id noteId (db (step w r)) = Some n'
      /\ Note.id n' = Note.id n
      /\ Note.userId n' = Note.userId n
      /\ Note.createdAt n' = Note.createdAt n
      /\ (Note.deletedAt n <> None -> Note.deletedAt n' <> None).
Proof.
  intros w r noteId n Hn.
  destruct (step_db_cases_live w r)
    as [[Hnotes _]|[(u & t & c & ->)|[(m & t & c & u & _ & _ & ->)
                                     |(m & _ & _ & ->)]]].
  - exists n. unfold note_by_id in *. rewrite Hnotes. tauto.
  - exists n. split; [|tauto].
    unfold note_by_id, created. simpl. apply find_app_some. exact Hn.
  - unfold note_by_id, written in *. simpl. rewrite find_map_preserving.
    + rewrite Hn. simpl. eexists. split; [reflexivity|].
      destruct (Note.id n =? Note.id m); simpl; tauto.
    + intros x. destruct (Note.id x =? Note.id m); reflexivity.
  - unfold note_by_id, soft_deleted in *. simpl. rewrite find_map_preserving.
    + rewrite Hn. simpl. eexists. split; [reflexivity|].
      destruct (Note.id n =? Note.id m); simpl; repeat split; auto.
      discriminate.
    + intros x. destruct (Note.id x =? Note.id m); reflexivity.
Qed.

Lemma notes_are_never_removed_or_reassigned_witness :
  exists n',
    note_by_id 1 (db (step sample_world_deleted (RevertToVersion 1 1 1)))
    = Some n'
    /\ Note.userId n' = 1 /\ Note.deletedAt n' <> None.
Proof.
  destruct (notes_are_never_removed_or_reassigned sample_world_deleted
              (RevertToVersion 1 1 1) 1 (marked_deleted 7 sample_note) eq_refl)
    as (n' & Hn' & _ & Hu & _ & Hd).
  exists n'. split; [exact Hn'|]. split; [exact Hu|].
  apply Hd. discriminate.
Defined.

(** X10.  In a reachable world a soft-deleted note is frozen: whatever the
    next request is, its row (title, content, version, deletion time
    included) and its version history are exactly what they were. *)
Theorem deleted_note_is_frozen :
  forall w r noteId n t,
    reachable w ->
    note_by_id noteId (db w) = Some n ->
    Note.deletedAt n = Some t ->
    note_by_id noteId (db (step w r)) = Some n
    /\ history noteId (db (step w r)) = history noteId (db w).
Proof.
  intros w r noteId n t Hw Hn Hdel.
  pose proof (reachable_invariant w Hw) as Hinv.
  destruct (note_by_id_In _ _ _ Hn) as [Hin Hid].
  assert (Hother : forall m, In m (rows (notes (db w))) ->
                             Note.deletedAt m = None ->
                             (Note.id m =? noteId) = false
                             /\ (Note.id n =? Note.id m) = false).
  { intros m Hm Hl.
    assert (Hne : Note.id m <> Note.id n).
    { intros E.
      pose proof (NoDup_map_inj _ Note.id _ _ _ (inv_pk Hinv) Hm Hin E).
      subst m. congruence. }
    split; apply Z.eqb_neq; congruence. }
  destruct (step_db_cases_live w r)
    as [[Hnotes Hvers]|[(u & ti & c & ->)|[(m & ti & c & u & Hm & Hl & ->)
                                          |(m & Hm & Hl & ->)]]].
  - split.
    + unfold note_by_id in *. rewrite Hnotes. exact Hn.
    + unfold history. rewrite Hvers. reflexivity.
  - split.
    + unfold note_by_id, created. simpl. apply find_app_some. exact Hn.
    + unfold created. rewrite history_snoc. simpl.
      replace (auto_increment (notes (db w)) =? noteId) with false;
        [apply app_nil_r|].
      symmetry. apply Z.eqb_neq. pose proof (inv_ids Hinv n Hin). lia.
  - destruct (Hother m Hm Hl) as [Hne1 Hne2]. split.
    + unfold note_by_id, written in *. simpl. rewrite find_map_preserving.
      * rewrite Hn. simpl. rewrite Hne2. reflexivity.
      * intros x. destruct (Note.id x =? Note.id m); reflexivity.
    + unfold written. rewrite history_snoc. simpl. rewrite Hne1.
      apply app_nil_r.
  - destruct (Hother m Hm Hl) as [Hne1 Hne2]. split.
    + unfold note_by_id, soft_deleted in *. simpl.
      rewrite find_map_preserving.
      * rewrite Hn. simpl. rewrite Hne2. reflexivity.
      * intros x. destruct (Note.id x =? Note.id m); reflexivity.
    + reflexivity.
Qed.

Lemma sample_deleted_reachable : reachable sample_world_deleted.
Proof.
  unfold sample_world_deleted. do 2 apply reach_step.
  unfold sample_world. apply reachable_fold. apply reach_initial.
Qed.

Lemma deleted_note_is_frozen_witness :
  note_by_id 1 (db (step sample_world_deleted
                         (UpdateNote 1 1 "Groceries" "tea" 1)))
  = Some (marked_deleted 7 sample_note).
Proof.
  apply (deleted_note_is_frozen sample_world_deleted
           (UpdateNote 1 1 "Groceries" "tea" 1) 1
           (marked_deleted 7 sample_note) 7 sample_deleted_reachable).
  - reflexivity.
  - reflexivity.
Defined.

(** ** Stores written through the models *)

(* The rows of a reachable store satisfy what the models and the tables
   enforce.  In particular the checks [NoteVersion_create] leaves to the
   statements before it never fail there, and the title and the content a
   revert copies from a version row are ones note.save() accepts. *)

Lemma validated_ext d d' :
  notes d' = notes d -> note_versions d' = note_versions d ->
  note_shares d' = note_shares d -> users d' = users d ->
  validated d -> validated d'.
Proof.
  intros Hn Hv Hs Hu [H1 H2 H3 H4 H5].
  constructor; unfold User_findByPk in *; rewrite ?Hn, ?Hv, ?Hs, ?Hu;
    assumption.
Qed.

Lemma validated_empty : validated empty_database.
Proof. constructor; simpl; contradiction. Qed.

Lemma saved_storable n title content :
  Note_save_error n (Note.make (Note.id n) (Note.userId n) title content
                               (Note.version n + 1) (Note.deletedAt n)
                               (Note.createdAt n)) = None ->
  storable (Note.title n) (Note.content n) = true ->
  storable title content = true.
Proof.
  unfold Note_save_error. simpl. rewrite !storable_spec.
  intros He (H1 & H2 & H3).
  destruct (String.eqb title (Note.title n)) eqn:Et;
    [apply String.eqb_eq in Et; rewrite Et in *|];
    (destruct (String.eqb content (Note.content n)) eqn:Ec;
     [apply String.eqb_eq in Ec; rewrite Ec in *|]);
    simpl in He; auto.
  - destruct (fits_text content); [auto | discriminate].
  - destruct (notEmpty title), (fits 255 title); simpl in He;
      try discriminate; auto.
  - destruct (notEmpty title), (fits 255 title), (fits_text content);
      simpl in He; try discriminate; auto.
Qed.

Lemma may_update_user d n userId :
  validated d -> In n (rows (notes d)) ->
  may_update d n userId = true ->
  User_findByPk userId d <> None.
Proof.
  intros Hval Hin Hp. apply may_update_spec in Hp.
  destruct Hp as [<-|(s & Hs & _ & <- & _)].
  - exact (val_owner Hval n Hin).
  - exact (val_shared Hval s Hs).
Qed.

Lemma created_validated userId title content w :
  validated (db w) ->
  storable title content = true ->
  User_findByPk userId (db w) <> None ->
  validated (created userId title content w).
Proof.
  intros [H1 H2 H3 H4 H5] Hs Hu.
  constructor; unfold created; simpl.
  - intros n. rewrite in_app_iff. intros [Hn|[<-|[]]]; [auto | exact Hs].
  - intros n. rewrite in_app_iff. intros [Hn|[<-|[]]];
      [exact (H2 n Hn) | exact Hu].
  - intros v. rewrite in_app_iff. intros [Hv|[<-|[]]]; [auto | exact Hs].
  - intros v. rewrite in_app_iff. intros [Hv|[<-|[]]];
      [exact (H4 v Hv) | exact Hu].
  - exact H5.
Qed.

Lemma written_validated n title content userId w :
  validated (db w) ->
  In n (rows (notes (db w))) ->
  storable title content = true ->
  User_findByPk userId (db w) <> None ->
  validated (written n title content userId w).
Proof.
  intros [H1 H2 H3 H4 H5] Hin Hs Hu.
  constructor; unfold written; simpl.
  - intros r'. rewrite in_map_iff. intros (r & <- & Hr).
    destruct (Note.id r =? Note.id n); [exact Hs | auto].
  - intros r'. rewrite in_map_iff. intros (r & <- & Hr).
    destruct (Note.id r =? Note.id n); exact (H2 r Hr).
  - intros v. rewrite in_app_iff. intros [Hv|[<-|[]]]; [auto | exact Hs].
  - intros v. rewrite in_app_iff. intros [Hv|[<-|[]]];
      [exact (H4 v Hv) | exact Hu].
  - exact H5.
Qed.

Lemma soft_deleted_validated n t d :
  validated d -> validated (soft_deleted n t d).
Proof.
  intros [H1 H2 H3 H4 H5].
  constructor; unfold soft_deleted; simpl; auto.
  - intros r'. rewrite in_map_iff. intros (r & <- & Hr).
    destruct (Note.id r =? Note.id n); exact (H1 r Hr).
  - intros r'. rewrite in_map_iff. intros (r & <- & Hr).
    destruct (Note.id r =? Note.id n); exact (H2 r Hr).
Qed.

Lemma upserted_validated noteId userId p d :
  validated d ->
  User_findByPk userId d <> None ->
  validated (upserted noteId userId p d).
Proof.
  intros [H1 H2 H3 H4 H5] Hu.
  destruct (upserted_notes noteId userId p d) as (Hn & Husers & Hv).
  assert (Hfind : forall k, User_findByPk k (upserted noteId userId p d)
                            = User_findByPk k d)
    by (intros k; unfold User_findByPk; rewrite Husers; reflexivity).
  constructor; rewrite ?Hn, ?Hv; intros x Hx; rewrite ?Hfind; auto.
  unfold upserted in Hx.
  destruct (find (share_of noteId userId) (rows (note_shares d))) as [s|];
    simpl in Hx.
  - apply in_map_iff in Hx. destruct Hx as (r & <- & Hr).
    destruct (NoteShare.id r =? NoteShare.id s); exact (H5 r Hr).
  - apply in_app_iff in Hx. destruct Hx as [Hx|[<-|[]]];
      [exact (H5 x Hx) | exact Hu].
Qed.

Lemma registered_validated user d :
  validated d ->
  validated (set_users (insert (fun _ => user) (users d)) d).
Proof.
  intros [H1 H2 H3 H4 H5].
  assert (Hfind : forall k, User_findByPk k d <> None ->
            User_findByPk k (set_users (insert (fun _ => user) (users d)) d)
            <> None).
  { intros k Hk. unfold User_findByPk in *. simpl.
    destruct (find _ (rows (users d))) as [u|] eqn:E; [|congruence].
    rewrite (find_app_some _ _ _ _ _ E). discriminate. }
  constructor; simpl; auto.
Qed.

(* what a successful update and a successful revert have checked *)
Lemma updateNote_db noteId userId title content expectedVersion w :
  db (snd (updateNote noteId userId title content expectedVersion w)) = db w
  \/ exists n,
       live_note noteId (db w) = Some n
       /\ may_update (db w) n userId = true
       /\ Note_save_error n
            (Note.make (Note.id n) (Note.userId n) title content
                       (Note.version n + 1) (Note.deletedAt n)
                       (Note.createdAt n)) = None
       /\ db (snd (updateNote noteId userId title content expectedVersion w))
          = written n title content userId w.
Proof.
  destruct (live_note noteId (db w)) as [n|] eqn:Hn.
  - destruct (may_update (db w) n userId) eqn:Hp.
    + destruct (Z.eq_dec (Note.version n) expectedVersion) as [<-|Hv].
      * destruct (Note_save_error n
                    (Note.make (Note.id n) (Note.userId n) title content
                               (Note.version n + 1) (Note.deletedAt n)
                               (Note.createdAt n))) as [message|] eqn:Hs.
        -- left. rewrite (updateNote_refused _ _ _ _ _ n message)
             by assumption. reflexivity.
        -- right. exists n.
           do 3 (split; [first [reflexivity | assumption]|]).
           rewrite updateNote_ok by assumption. simpl.
           apply invalidated_db.
      * left. rewrite (updateNote_conflict _ _ _ _ _ _ n) by assumption.
        reflexivity.
    + left. rewrite (updateNote_denied _ _ _ _ _ _ n) by assumption.
      reflexivity.
  - left. rewrite updateNote_not_found by assumption. reflexivity.
Qed.

Lemma revert_db noteId userId targetVersion w :
  db (snd (revertToVersion noteId userId targetVersion w)) = db w
  \/ exists n tv,
       owned_note noteId userId (db w) = Some n
       /\ version_record noteId targetVersion (db w) = Some tv
       /\ db (snd (revertToVersion noteId userId targetVersion w))
          = written n (NoteVersion.title tv) (NoteVersion.content tv) userId w.
Proof.
  destruct (revert_cases noteId userId targetVersion w)
    as [(msg & ->)|(n & tv & Hn & Htv & ->)]; [left; reflexivity|].
  right. exists n, tv. do 2 (split; [assumption|]). simpl.
  apply invalidated_db.
Qed.

Lemma shareNote_db noteId ownerId sharedWithUserId permission w :
  snd (run (shareNote noteId ownerId sharedWithUserId permission) w) = w
  \/ (User_findByPk sharedWithUserId (db w) <> None
      /\ db (snd (run (shareNote noteId ownerId sharedWithUserId permission) w))
         = upserted noteId sharedWithUserId (or_read permission) (db w)).
Proof.
  destruct (Z.eq_dec ownerId sharedWithUserId) as [<-|Hne].
  - left. rewrite shareNote_self. reflexivity.
  - destruct (owned_note noteId ownerId (db w)) as [n|] eqn:Hown.
    + destruct (User_findByPk sharedWithUserId (db w)) as [u|] eqn:Hu.
      * right. split; [discriminate|].
        destruct (shareNote_ok noteId ownerId sharedWithUserId permission
                    w n u Hne Hown Hu) as (share & -> & _).
        simpl. rewrite !invalidated_db. reflexivity.
      * left. rewrite (shareNote_no_user _ _ _ _ _ n) by assumption.
        reflexivity.
    + left. rewrite shareNote_denied by assumption. reflexivity.
Qed.

Lemma step_validated w r : validated (db w) -> validated (db (step w r)).
Proof.
  intros Hval. destruct r; simpl; rewrite ?search_world; try exact Hval.
  - unfold register, run.
    destruct (find _ (rows (users (db w)))); [exact Hval|].
    destruct (User_validate _ _ _ _); [|exact Hval]. simpl.
    apply registered_validated. exact Hval.
  - destruct (createNote_db_cases userId title content w)
      as [->|(He & ->)]; [exact Hval|].
    apply Note_create_accepts in He. destruct He as [Hs Hu].
    apply created_validated; assumption.
  - destruct (getNoteById_cases noteId userId w)
      as [->|(n & _ & _ & _ & ->)]; exact Hval.
  - unfold run.
    destruct (updateNote_db noteId userId title content expectedVersion w)
      as [->|(n & Hn & Hp & Hs & ->)]; [exact Hval|].
    pose proof (live_note_In _ _ _ Hn) as Hin.
    apply written_validated; [exact Hval | exact Hin | |].
    + exact (saved_storable n title content Hs (val_note Hval n Hin)).
    + exact (may_update_user _ _ _ Hval Hin Hp).
  - destruct (owned_note noteId userId (db w)) as [n|] eqn:Hown.
    + rewrite (deleteNote_ok _ _ _ _ Hown). simpl. rewrite invalidated_db.
      apply soft_deleted_validated. exact Hval.
    + rewrite (deleteNote_denied _ _ _ Hown). exact Hval.
  - unfold run.
    destruct (revert_db noteId userId targetVersion w)
      as [->|(n & tv & Hn & Htv & ->)]; [exact Hval|].
    apply owned_note_spec in Hn. destruct Hn as (Hin & _ & Hu & _).
    apply find_some in Htv. destruct Htv as [Htv _].
    apply written_validated; [exact Hval | exact Hin | |].
    + exact (val_version Hval tv Htv).
    + rewrite <- Hu. exact (val_owner Hval n Hin).
  - destruct (shareNote_db noteId ownerId sharedWithUserId permission w)
      as [->|(Hu & ->)]; [exact Hval|].
    apply upserted_validated; assumption.
  - destruct (addAttachment_cases noteId userId file w)
      as [(message & ->)|(n & _ & _ & ->)]; [exact Hval|].
    simpl. rewrite invalidated_db. simpl.
    apply validated_ext with (d := db w); auto.
Qed.

Lemma reachable_validated w : reachable w -> validated (db w).
Proof.
  induction 1 as [r c|w r _ IH].
  - apply validated_empty.
  - apply step_validated. exact IH.
Qed.

(* a revert by the owner is not refused by the model in a validated store *)
Lemma revert_saves d noteId targetVersion n tv :
  validated d ->
  version_record noteId targetVersion d = Some tv ->
  Note_save_error n (Note.make (Note.id n) (Note.userId n)
                               (NoteVersion.title tv) (NoteVersion.content tv)
                               (Note.version n + 1) (Note.deletedAt n)
                               (Note.createdAt n)) = None.
Proof.
  intros Hval Htv. apply storable_saves.
  apply find_some in Htv. destruct Htv as [Htv _].
  exact (val_version Hval tv Htv).
Qed.

(** ** Revert is a new mutation *)

(** C3.  A live note at version V, its owner, a stored target version T:
    revert succeeds, the stored note then has version V+1 and T's title and
    content, exactly one NoteVersion row is appended, numbered V+1 with that
    title and content, and the record of T is still the one found for
    (noteId, T); when no record exists for (noteId, T), revert fails with
    "Version not found" and the store is as it was.  This holds in every
    world the service has reached, where each version row holds a title and
    a content the Note model and its table accept (see
    [reachable_validated]); and in any other world for every target row
    that does. *)
Theorem revert_is_a_new_version :
  forall w noteId userId targetVersion n,
    live_note noteId (db w) = Some n ->
    is_owner n userId ->
    (forall tv,
       version_record noteId targetVersion (db w) = Some tv ->
       reachable w
       \/ storable (NoteVersion.title tv) (NoteVersion.content tv) = true ->
       exists n' w' v,
         run (revertToVersion noteId userId targetVersion) w = (Ok n', w')
         /\ live_note noteId (db w') = Some n'
         /\ Note.version n' = Note.version n + 1
         /\ Note.title n' = NoteVersion.title tv
         /\ Note.content n' = NoteVersion.content tv
         /\ rows (note_versions (db w')) = rows (note_versions (db w)) ++ [v]
         /\ NoteVersion.noteId v = noteId
         /\ NoteVersion.version v = Note.version n + 1
         /\ NoteVersion.title v = NoteVersion.title tv
         /\ NoteVersion.content v = NoteVersion.content tv
         /\ version_record noteId targetVersion (db w') = Some tv)
    /\ (version_record noteId targetVersion (db w) = None ->
        exists w',
          run (revertToVersion noteId userId targetVersion) w
          = (Throw "Version not found"%string, w')
          /\ db w' = db w).
Proof.
  intros w noteId userId targetVersion n Hn Ho.
  pose proof (owned_note_of_live _ _ _ _ Hn Ho) as Hown.
  pose proof (live_note_id _ _ _ Hn) as Hid.
  split.
  - intros tv Htv Hs. unfold run.
    assert (Hsave : Note_save_error n
                      (Note.make (Note.id n) (Note.userId n)
                                 (NoteVersion.title tv)
                                 (NoteVersion.content tv)
                                 (Note.version n + 1) (Note.deletedAt n)
                                 (Note.createdAt n)) = None).
    { destruct Hs as [Hw|Hs].
      - exact (revert_saves (db w) noteId targetVersion n tv
                            (reachable_validated w Hw) Htv).
      - apply storable_saves. exact Hs. }
    rewrite (@revert_ok noteId userId targetVersion w n tv Hown Htv Hsave).
    do 3 eexists. split; [reflexivity|].
    rewrite invalidated_db. change (db (committed ?d _)) with d.
    split; [apply live_note_written; exact Hn|].
    unfold version_record, NoteVersion_findOne.
    rewrite written_versions. simpl. repeat split; auto.
    apply find_app_some. exact Htv.
  - intros Hnone. unfold run.
    rewrite (@revert_version_not_found noteId userId targetVersion w n Hown Hnone).
    eexists. split; reflexivity.
Qed.

Lemma revert_is_a_new_version_witness :
  exists n' w',
    run (revertToVersion 1 1 1) sample_world_v2 = (Ok n', w')
    /\ Note.version n' = 3 /\ Note.content n' = "milk"%string.
Proof.
  assert (Hreach : reachable sample_world_v2).
  { unfold sample_world_v2, sample_world. apply reach_step.
    apply reachable_fold. apply reach_initial. }
  destruct (revert_is_a_new_version sample_world_v2 1 1 1
              (Note.make 1 1 "Groceries" "milk, eggs" 2 None 0)
              eq_refl eq_refl) as [H _].
  destruct (H (NoteVersion.make 1 1 "Groceries" "milk" 1 1 0) eq_refl
              (or_introl Hreach))
    as (n' & w' & v & Hrun & _ & Hv & _ & Hc & _).
  exists n', w'. repeat split; assumption.
Defined.

(** ** Reverting in a reachable world *)

Lemma find_filter_In (A : Type) (p q : A -> bool) l :
  (exists x, find (fun r => p r && q r) l = Some x)
  <-> exists x, In x (filter p l) /\ q x = true.
Proof.
  split.
  - intros (x & Hx). apply find_some in Hx. destruct Hx as [Hin Hpq].
    apply andb_true_iff in Hpq. exists x. rewrite filter_In. tauto.
  - intros (x & Hin & Hq). apply filter_In in Hin.
    apply find_exists with (x := x); [tauto|]. apply andb_true_iff. tauto.
Qed.

Lemma version_record_stored noteId version d :
  (exists tv, version_record noteId version d = Some tv)
  <-> In version (stored_versions noteId d).
Proof.
  unfold version_record, NoteVersion_findOne, stored_versions, history.
  rewrite find_filter_In, in_map_iff.
  split; intros (x & H1 & H2); exists x.
  - apply Z.eqb_eq in H2. tauto.
  - apply Z.eqb_eq in H1. tauto.
Qed.

(** X11.  In a reachable world the owner of a live note at version V can
    revert to a target version exactly when it lies between 1 and V: every
    version ever written stays available, and nothing else is. *)
Theorem owner_reverts_to_any_past_version :
  forall w noteId userId targetVersion n,
    reachable w ->
    live_note noteId (db w) = Some n ->
    is_owner n userId ->
    (exists n' w',
       run (revertToVersion noteId userId targetVersion) w = (Ok n', w'))
    <-> 1 <= targetVersion <= Note.version n.
Proof.
  intros w noteId userId targetVersion n Hw Hn Ho.
  pose proof (reachable_invariant w Hw) as Hinv.
  pose proof (owned_note_of_live _ _ _ _ Hn Ho) as Hown.
  pose proof (live_note_id _ _ _ Hn) as Hid.
  rewrite <- In_upto, <- (inv_numbers Hinv n (live_note_In _ _ _ Hn)), Hid.
  rewrite <- version_record_stored. split.
  - intros (n' & w' & Hrun). unfold run in Hrun.
    destruct (version_record noteId targetVersion (db w)) as [tv|] eqn:E;
      [exists tv; reflexivity|].
    rewrite (revert_version_not_found _ _ _ _ _ Hown E) in Hrun. discriminate.
  - intros (tv & Htv). do 2 eexists.
    apply revert_ok; [eassumption | eassumption |].
    exact (revert_saves _ _ _ n tv (reachable_validated w Hw) Htv).
Qed.

Lemma owner_reverts_to_any_past_version_witness :
  (exists n' w', run (revertToVersion 1 1 2) sample_world_v2 = (Ok n', w'))
  /\ ~ (exists n' w', run (revertToVersion 1 1 3) sample_world_v2 = (Ok n', w')).
Proof.
  pose proof (fun T => owner_reverts_to_any_past_version sample_world_v2 1 1 T
                         (Note.make 1 1 "Groceries" "milk, eggs" 2 None 0)
                         sample_reachable eq_refl eq_refl) as H.
  split.
  - apply H. simpl. lia.
  - intros E. apply H in E. simpl in E. lia.
Defined.

Lemma head_record w n :
  history_invariant (db w) ->
  In n (rows (notes (db w))) ->
  exists tv,
    version_record (Note.id n) (Note.version n) (db w) = Some tv
    /\ NoteVersion.title tv = Note.title n
    /\ NoteVersion.content tv = Note.content n.
Proof.
  intros Hinv Hin.
  destruct (inv_head Hinv n Hin) as (l & v & Hl & Hm).
  pose proof (inv_numbers Hinv n Hin) as Hnum.
  assert (Hex : exists tv,
            version_record (Note.id n) (Note.version n) (db w) = Some tv).
  { apply version_record_stored. rewrite Hnum. apply In_upto.
    symmetry in Hnum. unfold stored_versions in Hnum.
    rewrite Hl, map_app in Hnum. apply upto_nonempty in Hnum. lia. }
  destruct Hex as (tv & Htv). exists tv. split; [exact Htv|].
  assert (tv = v); [|subst tv; unfold mirrors in Hm; tauto].
  apply find_some in Htv. destruct Htv as [Hv Hp].
  apply andb_true_iff in Hp. destruct Hp as [Hp1 Hp2]. apply Z.eqb_eq in Hp2.
  apply (NoDup_map_inj _ NoteVersion.version (history (Note.id n) (db w))).
  - fold (stored_versions (Note.id n) (db w)). rewrite Hnum. apply NoDup_upto.
  - unfold history. apply filter_In. split; assumption.
  - rewrite Hl. apply in_or_app. right. left. reflexivity.
  - destruct Hm as (_ & _ & Hm). congruence.
Qed.

(** X12.  In a reachable world, when a caller allowed to update changes a
    live note at version V, to a title and a content the model and the table
    accept, and the owner then reverts to V, both calls succeed and the note
    has its former title and content back, at version V+2, with versions 1
    to V+2 on record. *)
Theorem revert_undoes_an_update :
  forall w noteId editorId ownerId title content n,
    reachable w ->
    live_note noteId (db w) = Some n ->
    is_owner n editorId \/ has_edit_share (db w) noteId editorId ->
    is_owner n ownerId ->
    storable title content = true ->
    exists n1 w1 n2 w2,
      run (updateNote noteId editorId title content (Note.version n)) w
      = (Ok n1, w1)
      /\ run (revertToVersion noteId ownerId (Note.version n)) w1 = (Ok n2, w2)
      /\ live_note noteId (db w2) = Some n2
      /\ Note.title n2 = Note.title n
      /\ Note.content n2 = Note.content n
      /\ Note.version n2 = Note.version n + 2
      /\ stored_versions noteId (db w2) = upto (Note.version n + 2).
Proof.
  intros w noteId editorId ownerId title content n Hw Hn Hauth Ho Hstorable.
  pose proof (reachable_invariant w Hw) as Hinv.
  pose proof (live_note_id _ _ _ Hn) as Hid.
  pose proof (live_note_In _ _ _ Hn) as Hin.
  assert (Hp : may_update (db w) n editorId = true)
    by (apply may_update_spec; rewrite Hid; exact Hauth).
  destruct (head_record w n Hinv Hin) as (tv & Htv & Htitle & Hcontent).
  rewrite Hid in Htv.
  pose proof (updateNote_ok noteId editorId title content w n Hn Hp
                (storable_saves n title content Hstorable)) as Hrun1.
  set (n1 := Note.make _ _ _ _ _ _ _) in Hrun1.
  set (w1 := invalidated _ _) in Hrun1.
  assert (Hdb1 : db w1 = written n title content editorId w)
    by (unfold w1; rewrite invalidated_db; reflexivity).
  assert (Hn1 : live_note noteId (db w1) = Some n1)
    by (rewrite Hdb1; apply live_note_written; exact Hn).
  assert (Ho1 : is_owner n1 ownerId) by exact Ho.
  pose proof (owned_note_of_live _ _ _ _ Hn1 Ho1) as Hown1.
  assert (Htv1 : version_record noteId (Note.version n) (db w1) = Some tv).
  { unfold version_record, NoteVersion_findOne. rewrite Hdb1, written_versions.
    apply find_app_some. exact Htv. }
  assert (Hold : storable (NoteVersion.title tv) (NoteVersion.content tv)
                 = true).
  { rewrite Htitle, Hcontent.
    exact (val_note (reachable_validated w Hw) n Hin). }
  pose proof (revert_ok noteId ownerId (Note.version n) w1 n1 tv Hown1 Htv1
                (storable_saves n1 _ _ Hold)) as Hrun2.
  set (n2 := Note.make _ _ _ _ _ _ _) in Hrun2.
  set (w2 := invalidated _ _) in Hrun2.
  assert (Hdb2 : db w2 = written n1 (NoteVersion.title tv)
                                 (NoteVersion.content tv) ownerId w1)
    by (unfold w2; rewrite invalidated_db; reflexivity).
  assert (Hn2 : live_note noteId (db w2) = Some n2)
    by (rewrite Hdb2; apply live_note_written; exact Hn1).
  assert (Hw2 : reachable w2).
  { replace w2 with (step (step w (UpdateNote noteId editorId title content
                                                (Note.version n)))
                          (RevertToVersion noteId ownerId (Note.version n))).
    - do 2 apply reach_step. exact Hw.
    - simpl. unfold run. rewrite Hrun1. simpl. rewrite Hrun2. reflexivity. }
  exists n1, w1, n2, w2.
  split; [exact Hrun1|]. split; [exact Hrun2|]. split; [exact Hn2|].
  split; [exact Htitle|]. split; [exact Hcontent|].
  split; [simpl; lia|].
  pose proof (inv_numbers (reachable_invariant w2 Hw2) n2
                (live_note_In _ _ _ Hn2)) as Hnum.
  rewrite (live_note_id _ _ _ Hn2) in Hnum. rewrite Hnum.
  f_equal. simpl. lia.
Qed.

Lemma revert_undoes_an_update_witness :
  exists n1 w1 n2 w2,
    run (updateNote 1 2 "Groceries" "milk, eggs" 1) sample_world = (Ok n1, w1)
    /\ run (revertToVersion 1 1 1) w1 = (Ok n2, w2)
    /\ Note.content n2 = "milk"%string
    /\ Note.version n2 = 3.
Proof.
  assert (Hreach : reachable sample_world)
    by (unfold sample_world; apply reachable_fold; apply reach_initial).
  destruct (revert_undoes_an_update sample_world 1 2 1 "Groceries" "milk, eggs"
              sample_note Hreach eq_refl)
    as (n1 & w1 & n2 & w2 & H1 & H2 & _ & _ & Hc & Hv & _).
  - right. eexists. split; [left; reflexivity|]. repeat split.
  - reflexivity.
  - reflexivity.
  - exists n1, w1, n2, w2. repeat split; assumption.
Defined.

(** ** The cache is told on a best-effort basis *)

(* the commands sent in a leaf of the case analysis of invalidateCache *)
Ltac sent_part :=
  let ks0 := fresh "ks0" in let Hin := fresh "Hin" in
  intros ks0 Hin; simpl in Hin;
  repeat (destruct Hin as [Hin|Hin]; try discriminate Hin);
  first
    [ contradiction
    | injection Hin as <-;
      split; [discriminate|];
      split; [reflexivity|];
      eexists; split; [reflexivity | simpl; assumption] ].

Ltac unsettled_part :=
  split;
  [ first [ discriminate | intros _; eexists; split; [reflexivity|];
                           simpl; eauto 12 ]
  | first [ reflexivity
          | let c := fresh "c" in let H := fresh "H" in
            intros (c & [= <-] & H); simpl in H; exfalso;
            decompose [and or ex] H; congruence ] ].

Ltac closed_part :=
  first [ reflexivity
        | let Hop := fresh "Hop" in let Hcn := fresh "Hcn" in
          intros Hop Hcn; simpl in Hop, Hcn;
          first [ discriminate Hop
                | reflexivity
                | exfalso; eapply Hcn; reflexivity ] ].

Ltac awaited_leaf out sent :=
  exists out, sent; rewrite <- ?app_assoc, ?app_nil_r; simpl;
  split; [reflexivity|];
  split; [intros ? ?; discriminate|];
  split; [unsettled_part|];
  split; [sent_part | closed_part].

(** X13.  A call of invalidateCache never throws: it returns, or it does not
    settle.  It does not settle exactly when a promise it awaits stays
    pending: connect() on a closed client, KEYS once the client is open or
    has connected, or DEL when KEYS has answered with at least one key.  It
    sends DEL only after KEYS has answered for the same pattern with at
    least one key, and then with exactly the keys KEYS returned; when there
    is no client, or the client is closed and does not connect, it sends no
    command at all.  On a client whose commands all settle the call returns
    normally, leaves the store and the transaction alone, and is the
    computation the service methods run. *)
Theorem invalidateCache_is_best_effort :
  (forall redisClient pattern evs0,
     exists out sent,
       invalidateCache_awaited redisClient pattern evs0
       = (out, evs0 ++ EvInvalidate pattern :: sent)
       /\ (forall message, out <> Settled (Throw message))
       /\ (out = Unsettled
           <-> exists c,
                 redisClient = Some c
                 /\ ((socketIsOpen c = false /\ socketConnect c = Pending)
                     \/ ((socketIsOpen c = true
                          \/ exists u, socketConnect c = Fulfilled u)
                         /\ (socketKeys c pattern = Pending
                             \/ exists ks,
                                  socketKeys c pattern = Fulfilled ks
                                  /\ ks <> []
                                  /\ socketDel c ks = Pending))))
       /\ (forall ks, In (EvDel ks) sent ->
             ks <> []
             /\ sent = [EvKeys pattern; EvDel ks]
             /\ exists c, redisClient = Some c
                          /\ socketKeys c pattern = Fulfilled ks)
       /\ (match redisClient with
           | None => sent = []
           | Some c =>
               socketIsOpen c = false ->
               (forall u, socketConnect c <> Fulfilled u) -> sent = []
           end))
  /\ (forall pattern w,
        exists w',
          run (invalidateCache pattern) w = (Ok tt, w')
          /\ db w' = db w /\ txn w' = txn w
          /\ invalidateCache_awaited (option_map settling (redis w)) pattern
                                     (trace w)
             = (Settled (Ok tt), trace w')).
Proof.
  split.
  - intros redisClient pattern evs0. unfold_async.
    destruct redisClient as [[op cn ks dl]|]; simpl;
      [|awaited_leaf (Settled (Ok tt)) (@nil Event)].
    destruct op; simpl; [|destruct cn as [[]| |]; simpl].
    + destruct (ks pattern) as [l| |] eqn:Hk; simpl.
      * destruct l as [|k l]; simpl.
        -- awaited_leaf (Settled (Ok tt)) [EvKeys pattern].
        -- assert (Hne : k :: l <> []) by discriminate.
           destruct (dl (k :: l)) eqn:Hd; simpl.
           ++ awaited_leaf (Settled (Ok tt))
                           [EvKeys pattern; EvDel (k :: l)].
           ++ awaited_leaf (Settled (Ok tt)) [EvKeys pattern].
           ++ awaited_leaf (@Unsettled unit) [EvKeys pattern].
      * awaited_leaf (Settled (Ok tt)) (@nil Event).
      * awaited_leaf (@Unsettled unit) (@nil Event).
    + destruct (ks pattern) as [l| |] eqn:Hk; simpl.
      * destruct l as [|k l]; simpl.
        -- awaited_leaf (Settled (Ok tt)) [EvKeys pattern].
        -- assert (Hne : k :: l <> []) by discriminate.
           destruct (dl (k :: l)) eqn:Hd; simpl.
           ++ awaited_leaf (Settled (Ok tt))
                           [EvKeys pattern; EvDel (k :: l)].
           ++ awaited_leaf (Settled (Ok tt)) [EvKeys pattern].
           ++ awaited_leaf (@Unsettled unit) [EvKeys pattern].
      * awaited_leaf (Settled (Ok tt)) (@nil Event).
      * awaited_leaf (@Unsettled unit) (@nil Event).
    + awaited_leaf (Settled (Ok tt)) (@nil Event).
    + awaited_leaf (@Unsettled unit) (@nil Event).
  - intros pattern w. exists (invalidated pattern w).
    split; [apply invalidateCache_total|].
    split; [apply invalidated_db|].
    split; [apply invalidated_txn|].
    apply invalidateCache_awaited_settling.
Qed.

Lemma invalidateCache_is_best_effort_witness :
  (exists w',
     run (invalidateCache "cache:/api/v1/notes*:1") sample_world_cache_up
     = (Ok tt, w')
     /\ trace w'
        = trace sample_world_cache_up
          ++ [EvInvalidate "cache:/api/v1/notes*:1";
              EvKeys "cache:/api/v1/notes*:1";
              EvDel ["cache:/api/v1/notes:1"%string;
                     "cache:/api/v1/notes/1:1"%string]])
  /\ invalidateCache_awaited (Some unreachable_closed)
                             "cache:/api/v1/notes*:1" []
     = (Unsettled, [EvInvalidate "cache:/api/v1/notes*:1"]).
Proof.
  destruct invalidateCache_is_best_effort as [Hawaited Hsettled].
  split.
  - destruct (Hsettled "cache:/api/v1/notes*:1"%string sample_world_cache_up)
      as (w' & Hrun & _ & _ & Ht).
    exists w'. split; [exact Hrun|].
    assert (E : snd (invalidateCache_awaited
                       (option_map settling (redis sample_world_cache_up))
                       "cache:/api/v1/notes*:1"
                       (trace sample_world_cache_up))
                = trace w') by (rewrite Ht; reflexivity).
    rewrite <- E. vm_compute. reflexivity.
  - destruct (Hawaited (Some unreachable_closed)
                       "cache:/api/v1/notes*:1"%string [])
      as (out & sent & Hrun & _ & Hiff & _ & Hclosed).
    assert (Hout : out = Unsettled).
    { apply Hiff. exists unreachable_closed. split; [reflexivity|].
      left. split; reflexivity. }
    assert (Hsent : sent = []).
    { apply Hclosed; [reflexivity | intros u; discriminate]. }
    rewrite Hrun, Hout, Hsent. reflexivity.
Defined.

(** ** A rejected request changes nothing *)

Lemma rolled_back_no_trace w :
  db (rolled_back w) = db w
  /\ redis (rolled_back w) = redis w
  /\ exists evs, trace (rolled_back w) = trace w ++ evs
                 /\ Forall is_tx_event evs.
Proof.
  repeat split. exists [EvBegin; EvRollback]. split; [reflexivity|].
  repeat constructor.
Qed.

Lemma unchanged_no_trace w :
  db w = db w
  /\ redis w = redis w
  /\ exists evs, trace w = trace w ++ evs /\ Forall is_tx_event evs.
Proof.
  repeat split. exists []. split; [symmetry; apply app_nil_r | constructor].
Qed.

(** X14.  Whenever a call of the note service throws, whichever the method
    and the arguments, the store and the cache client are exactly as before
    the call, the cache has not been told anything, and the only effects
    recorded are the opening and the rollback of the transaction of an
    update or a revert: a rejected request is undone completely. *)
Theorem rejected_calls_leave_no_trace :
  (forall userId title content,
     leaves_no_trace (createNote userId title content))
  /\ (forall userId, leaves_no_trace (getAllNotes userId))
  /\ (forall noteId userId, leaves_no_trace (getNoteById noteId userId))
  /\ (forall keyword_match userId keywords,
        leaves_no_trace (searchNotesByKeywords keyword_match userId keywords))
  /\ (forall noteId userId title content expectedVersion,
        leaves_no_trace
          (updateNote noteId userId title content expectedVersion))
  /\ (forall noteId userId, leaves_no_trace (deleteNote noteId userId))
  /\ (forall noteId userId targetVersion,
        leaves_no_trace (revertToVersion noteId userId targetVersion))
  /\ (forall noteId ownerId sharedWithUserId permission,
        leaves_no_trace
          (shareNote noteId ownerId sharedWithUserId permission))
  /\ (forall noteId userId file,
        leaves_no_trace (addAttachment noteId userId file)).
Proof.
  unfold leaves_no_trace.
  split; [|split; [|split; [|split; [|split; [|split; [|split; [|split]]]]]]].
  - intros userId title content w msg w' Hrun.
    destruct (createNote_cases userId title content w)
      as [(m & _ & E)|(_ & E)]; rewrite E in Hrun; [|discriminate].
    injection Hrun as _ <-. apply unchanged_no_trace.
  - intros userId w msg w' Hrun. discriminate.
  - intros noteId userId w msg w' Hrun.
    destruct (getNoteById_cases noteId userId w)
      as [E|(n & _ & _ & _ & E)]; rewrite E in Hrun; [|discriminate].
    injection Hrun as _ <-. apply unchanged_no_trace.
  - intros keyword_match userId keywords w msg w' Hrun.
    assert (E : w' = w)
      by (rewrite <- (search_world keyword_match userId keywords w), Hrun;
          reflexivity).
    rewrite E. apply unchanged_no_trace.
  - intros noteId userId title content expectedVersion w msg w' Hrun.
    unfold run in Hrun.
    destruct (updateNote_cases noteId userId title content expectedVersion w)
      as [(m & E)|(n & _ & _ & _ & E)]; rewrite E in Hrun; [|discriminate].
    injection Hrun as _ <-. apply rolled_back_no_trace.
  - intros noteId userId w msg w' Hrun.
    destruct (owned_note noteId userId (db w)) as [n|] eqn:Hown.
    + rewrite (deleteNote_ok _ _ _ _ Hown) in Hrun. discriminate.
    + rewrite (deleteNote_denied _ _ _ Hown) in Hrun.
      injection Hrun as _ <-. apply unchanged_no_trace.
  - intros noteId userId targetVersion w msg w' Hrun. unfold run in Hrun.
    destruct (revert_cases noteId userId targetVersion w)
      as [(m & E)|(n & tv & _ & _ & E)]; rewrite E in Hrun; [|discriminate].
    injection Hrun as _ <-. apply rolled_back_no_trace.
  - intros noteId ownerId sharedWithUserId permission w msg w' Hrun.
    destruct (Z.eq_dec ownerId sharedWithUserId) as [E|Hne].
    + rewrite <- E, shareNote_self in Hrun.
      injection Hrun as _ <-. apply unchanged_no_trace.
    + destruct (owned_note noteId ownerId (db w)) as [n|] eqn:Hown.
      * destruct (User_findByPk sharedWithUserId (db w)) as [u|] eqn:Hu.
        -- destruct (shareNote_ok noteId ownerId sharedWithUserId permission
                       w n u Hne Hown Hu) as (share & E & _).
           rewrite E in Hrun. discriminate.
        -- rewrite (shareNote_no_user _ _ _ _ _ n) in Hrun by assumption.
           injection Hrun as _ <-. apply unchanged_no_trace.
      * rewrite shareNote_denied in Hrun by assumption.
        injection Hrun as _ <-. apply unchanged_no_trace.
  - intros noteId userId file w msg w' Hrun.
    destruct (addAttachment_cases noteId userId file w)
      as [(m & E)|(n & _ & _ & E)]; rewrite E in Hrun; [|discriminate].
    injection Hrun as _ <-. apply unchanged_no_trace.
Qed.

Lemma rejected_calls_leave_no_trace_witness :
  db (snd (run (revertToVersion 1 1 9) sample_world_cache_up))
  = db sample_world_cache_up
  /\ redis (snd (run (revertToVersion 1 1 9) sample_world_cache_up))
     = redis sample_world_cache_up.
Proof.
  destruct rejected_calls_leave_no_trace
    as (_ & _ & _ & _ & _ & _ & Hrevert & _).
  assert (Hrun : run (revertToVersion 1 1 9) sample_world_cache_up
                 = (Throw "Version not found"%string,
                    snd (run (revertToVersion 1 1 9) sample_world_cache_up)))
    by (vm_compute; reflexivity).
  destruct (Hrevert 1 1 9 _ _ _ Hrun) as (Hdb & Hredis & _).
  split; assumption.
Defined.

(** ** Registered users *)

Lemma step_users_cases w r :
  users (db (step w r)) = users (db w)
  \/ exists collation username email,
       find (fun u => String.eqb (collation (User.email u)) (collation email)
                      || String.eqb (collation (User.username u))
                                    (collation username))
            (rows (users (db w))) = None
       /\ users (db (step w r))
          = insert (fun _ => User.make (auto_increment (users (db w)))
                                       username email) (users (db w)).
Proof.
  destruct r; simpl; rewrite ?search_world.
  - unfold register, run.
    destruct (find _ (rows (users (db w)))) eqn:E; [left; reflexivity|].
    destruct (User_validate _ _ _ _); [|left; reflexivity].
    right. exists collation, username, email. split; [exact E|reflexivity].
  - left. destruct (createNote_db_cases userId title content w)
      as [->|(_ & ->)]; reflexivity.
  - left. reflexivity.
  - left. destruct (getNoteById_cases noteId userId w)
      as [->|(n & _ & _ & _ & ->)]; reflexivity.
  - left. reflexivity.
  - left. unfold run.
    destruct (updateNote_cases noteId userId title content expectedVersion w)
      as [(msg & ->)|(n & _ & _ & _ & ->)]; [reflexivity|].
    simpl. rewrite invalidated_db. reflexivity.
  - left. destruct (owned_note noteId userId (db w)) as [n|] eqn:Hown.
    + rewrite (deleteNote_ok _ _ _ _ Hown). simpl. rewrite invalidated_db.
      reflexivity.
    + rewrite (deleteNote_denied _ _ _ Hown). reflexivity.
  - left. unfold run.
    destruct (revert_cases noteId userId targetVersion w)
      as [(msg & ->)|(n & tv & _ & _ & ->)]; [reflexivity|].
    simpl. rewrite invalidated_db. reflexivity.
  - left. destruct (Z.eq_dec ownerId sharedWithUserId) as [<-|Hne].
    + rewrite shareNote_self. reflexivity.
    + destruct (owned_note noteId ownerId (db w)) as [n|] eqn:Hown.
      * destruct (User_findByPk sharedWithUserId (db w)) as [u|] eqn:Hu.
        -- destruct (shareNote_ok noteId ownerId sharedWithUserId permission
                       w n u Hne Hown Hu) as (share & -> & _).
           simpl. rewrite !invalidated_db. simpl.
           apply (upserted_notes noteId sharedWithUserId (or_read permission)
                    (db w)).
        -- rewrite (shareNote_no_user _ _ _ _ _ n) by assumption.
           reflexivity.
      * rewrite shareNote_denied by assumption. reflexivity.
  - left. destruct (addAttachment_cases noteId userId file w)
      as [(message & ->)|(n & _ & _ & ->)]; [reflexivity|].
    simpl. rewrite invalidated_db. reflexivity.
  - left. reflexivity.
  - left. reflexivity.
Qed.

Lemma reachable_users_unique w : reachable w -> users_unique (db w).
Proof.
  induction 1 as [r c|w r _ IH].
  - constructor; simpl; try constructor. contradiction.
  - destruct (step_users_cases w r)
      as [E|(collation & username & email & Hnone & E)].
    + destruct IH as [H1 H2 H3 H4]. constructor; rewrite E; assumption.
    + destruct IH as [H1 H2 H3 H4].
      assert (Hfresh : forall u, In u (rows (users (db w))) ->
                User.email u <> email /\ User.username u <> username).
      { intros u Hu. pose proof (find_none _ _ Hnone u Hu) as Hf.
        cbv beta in Hf. apply orb_false_iff in Hf.
        rewrite !String.eqb_neq in Hf.
        split; intros Heq; [apply (proj1 Hf) | apply (proj2 Hf)];
          rewrite Heq; reflexivity. }
      constructor; rewrite E; simpl.
      * rewrite map_app. simpl.
        apply NoDup_app; [exact H1 | repeat constructor; simpl; tauto|].
        intros k Hk [<-|[]]. apply in_map_iff in Hk.
        destruct Hk as (u & Hu & Hin). pose proof (H2 u Hin). lia.
      * intros u Hu. apply in_app_iff in Hu. destruct Hu as [Hu|[<-|[]]].
        -- pose proof (H2 u Hu). lia.
        -- simpl. lia.
      * rewrite map_app. simpl.
        apply NoDup_app; [exact H3 | repeat constructor; simpl; tauto|].
        intros k Hk [<-|[]]. apply in_map_iff in Hk.
        destruct Hk as (u & Hu & Hin). exact (proj1 (Hfresh u Hin) Hu).
      * rewrite map_app. simpl.
        apply NoDup_app; [exact H4 | repeat constructor; simpl; tauto|].
        intros k Hk [<-|[]]. apply in_map_iff in Hk.
        destruct Hk as (u & Hu & Hin). exact (proj2 (Hfresh u Hin) Hu).
Qed.

(** X15.  In every reachable world no two users share an id, an email or a
    username.  A registration is decided by three things.  When a user
    already there has an email or a username that the collation of the
    columns takes for equal to the one sent, no user is created and the
    world is as before.  When the User model refuses the row (a username
    shorter than 3 or longer than 50 characters, a string that is no email
    or is longer than 100 characters, a password shorter than 6 or longer
    than 255 characters, or one of them made of white space only), no user
    is created and the world is as before.  Otherwise one user is appended
    with a fresh id, and that user is then found by primary key. *)
Theorem registered_users_are_unique :
  forall w,
    reachable w ->
    users_unique (db w)
    /\ forall collation isEmail username email password,
         ((exists u, In u (rows (users (db w)))
                     /\ (collation (User.email u) = collation email
                         \/ collation (User.username u)
                            = collation username)) ->
          run (register collation isEmail username email password) w
          = (Ok None, w))
         /\ (User_validate isEmail username email password = false ->
             run (register collation isEmail username email password) w
             = (Ok None, w))
         /\ ((forall u, In u (rows (users (db w))) ->
                        collation (User.email u) <> collation email
                        /\ collation (User.username u)
                           <> collation username) ->
             User_validate isEmail username email password = true ->
             exists u w',
               run (register collation isEmail username email password) w
               = (Ok (Some u), w')
               /\ User.username u = username /\ User.email u = email
               /\ rows (users (db w')) = rows (users (db w)) ++ [u]
               /\ User_findByPk (User.id u) (db w) = None
               /\ User_findByPk (User.id u) (db w') = Some u).
Proof.
  intros w Hw. pose proof (reachable_users_unique w Hw) as Hu.
  split; [exact Hu|]. intros collation isEmail username email password.
  split; [|split].
  - intros (u & Hin & Hclash). unfold register, run.
    destruct (find_exists _
                (fun u => String.eqb (collation (User.email u))
                                     (collation email)
                          || String.eqb (collation (User.username u))
                                        (collation username))
                (rows (users (db w))) u Hin) as (m & ->); [|reflexivity].
    apply orb_true_iff. rewrite !String.eqb_eq. exact Hclash.
  - intros Hv. unfold register, run. rewrite Hv.
    destruct (find _ _); reflexivity.
  - intros Hfresh Hv. unfold register, run.
    rewrite find_all_false.
    + rewrite Hv.
      assert (Hnew : User_findByPk (auto_increment (users (db w))) (db w)
                     = None).
      { apply find_all_false. intros u Hin. apply Z.eqb_neq.
        pose proof (uu_below Hu u Hin). lia. }
      do 2 eexists. split; [reflexivity|]. simpl.
      repeat split; [exact Hnew|].
      unfold User_findByPk in *. simpl. rewrite (find_app_none _ _ _ _ Hnew).
      simpl. rewrite Z.eqb_refl. reflexivity.
    + intros u Hin. apply orb_false_iff. rewrite !String.eqb_neq.
      exact (Hfresh u Hin).
Qed.

Lemma registered_users_are_unique_witness :
  run (register utf8mb4_bin holds_at_sign "dave" "alice@example.org"
                "correct horse") sample_world
  = (Ok None, sample_world)
  /\ run (register utf8mb4_bin holds_at_sign "al" "al@example.org"
                   "correct horse") sample_world
     = (Ok None, sample_world)
  /\ exists u w',
       run (register utf8mb4_bin holds_at_sign "dave" "dave@example.org"
                     "correct horse") sample_world
       = (Ok (Some u), w')
       /\ User.id u = 4.
Proof.
  assert (Hreach : reachable sample_world)
    by (unfold sample_world; apply reachable_fold; apply reach_initial).
  destruct (registered_users_are_unique sample_world Hreach) as [_ H].
  split; [|split].
  - destruct (H utf8mb4_bin holds_at_sign "dave"%string
                "alice@example.org"%string "correct horse"%string)
      as (Hclash & _).
    apply Hclash.
    exists (User.make 1 "alice" "alice@example.org"). split.
    + vm_compute. left. reflexivity.
    + left. reflexivity.
  - destruct (H utf8mb4_bin holds_at_sign "al"%string "al@example.org"%string
                "correct horse"%string)
      as (_ & Hrefused & _).
    apply Hrefused. reflexivity.
  - destruct (H utf8mb4_bin holds_at_sign "dave"%string
                "dave@example.org"%string "correct horse"%string)
      as (_ & _ & Hok).
    assert (Hfresh : forall u, In u (rows (users (db sample_world))) ->
              utf8mb4_bin (User.email u) <> utf8mb4_bin "dave@example.org"
              /\ utf8mb4_bin (User.username u) <> utf8mb4_bin "dave").
    { intros u Hin. simpl in Hin.
      destruct Hin as [<-|[<-|[<-|[]]]]; split; discriminate. }
    destruct (Hok Hfresh eq_refl) as (u & w' & Hrun & _ & _ & Hrows & _).
    exists u, w'. split; [exact Hrun|].
    assert (E : fst (run (register utf8mb4_bin holds_at_sign "dave"
                            "dave@example.org" "correct horse")
                         sample_world)
                = Ok (Some u)) by (rewrite Hrun; reflexivity).
    vm_compute in E. injection E as <-. reflexivity.
Defined.

(** ** A share concerns one pair *)

Lemma upserted_keyed noteId userId p d :
  shares_keyed d -> shares_keyed (upserted noteId userId p d).
Proof.
  intros [Hnd Hlt]. unfold upserted.
  destruct (find (share_of noteId userId) (rows (note_shares d))) as [s|] eqn:E.
  - assert (Hid : forall r,
              NoteShare.id (if NoteShare.id r =? NoteShare.id s
                            then NoteShare.make (NoteShare.id r)
                                   (NoteShare.noteId r)
                                   (NoteShare.sharedWithUserId r) p
                            else r) = NoteShare.id r)
      by (intros r; destruct (NoteShare.id r =? NoteShare.id s); reflexivity).
    constructor; simpl.
    + rewrite map_map. rewrite (map_ext _ NoteShare.id Hid). exact Hnd.
    + intros r'. rewrite in_map_iff. intros (r & <- & Hr). rewrite Hid.
      exact (Hlt r Hr).
  - constructor; simpl.
    + rewrite map_app. simpl.
      apply NoDup_app; [exact Hnd | repeat constructor; simpl; tauto|].
      intros k Hk [<-|[]]. apply in_map_iff in Hk.
      destruct Hk as (r & Hr & Hin). pose proof (Hlt r Hin). lia.
    + intros r Hr. apply in_app_iff in Hr. destruct Hr as [Hr|[<-|[]]].
      * pose proof (Hlt r Hr). lia.
      * simpl. lia.
Qed.

Lemma reachable_shares_keyed w : reachable w -> shares_keyed (db w).
Proof.
  induction 1 as [r c|w r _ IH].
  - constructor; simpl; [constructor | contradiction].
  - destruct (step_shares_cases w r) as [E|(n & u & p & E)].
    + destruct IH as [H1 H2]. constructor; rewrite E; assumption.
    + destruct (upserted_keyed n u p (db w) IH) as [H1 H2].
      constructor; rewrite E; assumption.
Qed.

Lemma filter_map_fixed (A : Type) (p : A -> bool) (h : A -> A) l :
  (forall r, p (h r) = p r) ->
  (forall r, In r l -> p r = true -> h r = r) ->
  filter p (map h l) = filter p l.
Proof.
  intros Hp Hfix. induction l as [|r l IH]; simpl; [reflexivity|].
  rewrite Hp. destruct (p r) eqn:E.
  - rewrite (Hfix r (or_introl eq_refl) E). f_equal.
    apply IH. intros x Hx. apply Hfix. right. exact Hx.
  - apply IH. intros x Hx. apply Hfix. right. exact Hx.
Qed.

Lemma upserted_other_pair noteId userId p d noteId' userId' :
  shares_keyed d ->
  noteId' <> noteId \/ userId' <> userId ->
  grants noteId' userId' (upserted noteId userId p d)
  = grants noteId' userId' d.
Proof.
  intros [Hnd _] Hne. unfold grants, upserted.
  destruct (find (share_of noteId userId) (rows (note_shares d))) as [s|] eqn:E.
  - simpl. apply filter_map_fixed.
    + intros r. destruct (NoteShare.id r =? NoteShare.id s); reflexivity.
    + intros r Hr Hp. destruct (Z.eqb_spec (NoteShare.id r) (NoteShare.id s))
        as [Hid|_]; [|reflexivity].
      exfalso. apply find_some in E. destruct E as [Hs Hps].
      pose proof (NoDup_map_inj _ NoteShare.id _ _ _ Hnd Hr Hs Hid). subst r.
      unfold share_of in *. rewrite andb_true_iff, !Z.eqb_eq in Hp, Hps.
      destruct Hne; intuition congruence.
  - simpl. rewrite filter_app. simpl.
    replace (share_of noteId' userId' _) with false; [apply app_nil_r|].
    symmetry. unfold share_of. simpl. apply andb_false_iff.
    rewrite !Z.eqb_neq. destruct Hne; [left|right]; congruence.
Qed.

(** X16.  In a reachable world a call of shareNote, whether it succeeds or
    not, leaves the grants of every other pair (note, user) exactly as they
    were, and never touches notes, versions or users: sharing a note with
    one user changes nobody else's access. *)
Theorem share_concerns_one_pair :
  forall w noteId ownerId sharedWithUserId permission,
    reachable w ->
    let w' := snd (run (shareNote noteId ownerId sharedWithUserId permission)
                       w) in
    (forall noteId' userId',
       noteId' <> noteId \/ userId' <> sharedWithUserId ->
       grants noteId' userId' (db w') = grants noteId' userId' (db w))
    /\ notes (db w') = notes (db w)
    /\ note_versions (db w') = note_versions (db w)
    /\ users (db w') = users (db w).
Proof.
  intros w noteId ownerId sharedWithUserId permission Hw w'.
  pose proof (reachable_shares_keyed w Hw) as Hk.
  assert (Hcases : db w' = db w
                   \/ db w' = upserted noteId sharedWithUserId
                                       (or_read permission) (db w)).
  { unfold w'. destruct (Z.eq_dec ownerId sharedWithUserId) as [<-|Hne].
    - left. rewrite shareNote_self. reflexivity.
    - destruct (owned_note noteId ownerId (db w)) as [n|] eqn:Hown.
      + destruct (User_findByPk sharedWithUserId (db w)) as [u|] eqn:Hu.
        * right.
          destruct (shareNote_ok noteId ownerId sharedWithUserId permission
                      w n u Hne Hown Hu) as (share & -> & _).
          simpl. rewrite !invalidated_db. reflexivity.
        * left. rewrite (shareNote_no_user _ _ _ _ _ n) by assumption.
          reflexivity.
      + left. rewrite shareNote_denied by assumption. reflexivity. }
  destruct Hcases as [->| ->].
  - repeat split.
  - destruct (upserted_notes noteId sharedWithUserId (or_read permission)
                (db w)) as (Hn & Hu & Hv).
    split; [|tauto]. intros noteId' userId' Hne.
    apply upserted_other_pair; assumption.
Qed.

Lemma share_concerns_one_pair_witness :
  grants 1 2 (db (snd (run (shareNote 1 1 3 (Some NoteShare.edit))
                           sample_world)))
  = [NoteShare.make 1 1 2 NoteShare.edit].
Proof.
  assert (Hreach : reachable sample_world)
    by (unfold sample_world; apply reachable_fold; apply reach_initial).
  destruct (share_concerns_one_pair sample_world 1 1 3 (Some NoteShare.edit)
              Hreach) as [H _].
  rewrite (H 1 2); [reflexivity|]. right. discriminate.
Defined.

(** ** Cache keys and the invalidation pattern *)

Lemma colon_free_app a b :
  colon_free (a ++ b) = colon_free a && colon_free b.
Proof.
  induction a as [|c a IH]; simpl; [reflexivity|].
  rewrite IH, andb_assoc. reflexivity.
Qed.

Lemma string_app_assoc (a b c : string) :
  ((a ++ b) ++ c = a ++ (b ++ c))%string.
Proof.
  induction a as [|x a IH]; simpl; [reflexivity|]. rewrite IH. reflexivity.
Qed.

Lemma split_at_last_colon (a a' b b' : string) :
  colon_free b = true -> colon_free b' = true ->
  (a ++ ":" ++ b = a' ++ ":" ++ b')%string ->
  a = a' /\ b = b'.
Proof.
  intros Hb Hb'. revert a'. induction a as [|c a IH]; intros [|c' a']; simpl.
  - intros [= ->]. split; reflexivity.
  - intros [= <- ->]. rewrite colon_free_app in Hb. simpl in Hb.
    rewrite andb_false_r in Hb. discriminate.
  - intros [= -> <-]. rewrite colon_free_app in Hb'. simpl in Hb'.
    rewrite andb_false_r in Hb'. discriminate.
  - intros [= -> H]. destruct (IH a' H) as [-> ->]. split; reflexivity.
Qed.

Lemma colon_free_uint d : colon_free (NilEmpty.string_of_uint d) = true.
Proof. induction d; simpl; auto. Qed.

Lemma colon_free_id z : colon_free (NilZero.string_of_int (Z.to_int z)) = true.
Proof.
  destruct (Z.to_int z) as [d|d]; simpl; unfold NilZero.string_of_uint;
    destruct d; simpl; try reflexivity; apply colon_free_uint.
Qed.

Lemma colon_free_user_part user : colon_free (user_part user) = true.
Proof.
  destruct user as [z|]; unfold user_part; [|reflexivity].
  destruct (z =? 0); [reflexivity | apply colon_free_id].
Qed.

Lemma id_parses z :
  NilZero.int_of_string (NilZero.string_of_int (Z.to_int z))
  = Some (Z.to_int z).
Proof.
  apply NilZero.isi; destruct z; simpl; try discriminate;
    intros [= H]; revert H; apply Unsigned.to_uint_nonnil.
Qed.

Lemma id_string_inj z z' :
  NilZero.string_of_int (Z.to_int z) = NilZero.string_of_int (Z.to_int z') ->
  z = z'.
Proof.
  intros H. apply DecimalZ.to_int_inj.
  pose proof (id_parses z) as E. rewrite H, id_parses in E.
  injection E as E. symmetry. exact E.
Qed.

Lemma id_string_not_anonymous z :
  NilZero.string_of_int (Z.to_int z) <> "anonymous"%string.
Proof.
  intros H. pose proof (id_parses z) as E. rewrite H in E.
  vm_compute in E. discriminate.
Qed.

Lemma user_part_inj u1 u2 :
  u1 <> 0 -> u2 <> 0 ->
  user_part (Some u1) = user_part (Some u2) -> u1 = u2.
Proof.
  intros H1 H2. unfold user_part. apply Z.eqb_neq in H1, H2.
  rewrite H1, H2. apply id_string_inj.
Qed.

Lemma cacheKey_inj r1 r2 :
  cacheKey r1 = cacheKey r2 ->
  Req.originalUrl r1 = Req.originalUrl r2
  /\ user_part (Req.user r1) = user_part (Req.user r2).
Proof.
  unfold cacheKey. simpl. intros [= H].
  apply split_at_last_colon; auto using colon_free_user_part.
Qed.

(** X17.  cacheMiddleware answers from the cache only a GET request, and
    then with the parsed entry stored under the key of that request; when it
    passes a request on with a key to store the answer under, it is again
    the key of that request; any other method is passed on untouched.  The
    key determines the URL and the user: two requests with the same key have
    the same URL, and the same user id when both have one that is not 0.  So
    an entry cached for one user or URL is never served for another. *)
Theorem cache_key_is_per_user_and_url :
  forall (Json : Type) (parse : string -> option Json)
         (get : string -> option (option string))
         duration req redisClient,
    (forall data,
       cacheMiddleware parse get duration req redisClient = FromCache data ->
       Req.method req = "GET"%string
       /\ exists s, get (cacheKey req) = Some (Some s)
                    /\ s <> ""%string /\ parse s = Some data)
    /\ (forall key ttl,
          cacheMiddleware parse get duration req redisClient
          = PassedOn (Some (key, ttl)) ->
          Req.method req = "GET"%string
          /\ key = cacheKey req /\ ttl = duration)
    /\ (Req.method req <> "GET"%string ->
        cacheMiddleware parse get duration req redisClient = PassedOn None)
    /\ (forall other,
          cacheKey other = cacheKey req ->
          Req.originalUrl other = Req.originalUrl req
          /\ forall u1 u2,
               Req.user other = Some u1 -> Req.user req = Some u2 ->
               u1 <> 0 -> u2 <> 0 -> u1 = u2).
Proof.
  intros Json parse get duration req redisClient.
  unfold cacheMiddleware.
  destruct (String.eqb_spec (Req.method req) "GET") as [Hm|Hm]; simpl.
  - split; [|split; [|split]].
    + intros data. destruct redisClient as [c|]; [|discriminate].
      destruct (negb (isOpen c) && is_null (connect c)); [discriminate|].
      destruct (get (cacheKey req)) as [[[|a s]|]|]; simpl; try discriminate.
      destruct (parse (String a s)) eqn:Hp; [|discriminate].
      intros [= <-]. split; [exact Hm|]. eexists. split; [reflexivity|].
      split; [discriminate | exact Hp].
    + intros key ttl. destruct redisClient as [c|]; [|discriminate].
      destruct (negb (isOpen c) && is_null (connect c)); [discriminate|].
      destruct (get (cacheKey req)) as [[[|a s]|]|]; simpl; try discriminate.
      * intros [= <- <-]. auto.
      * destruct (parse (String a s)); discriminate.
      * intros [= <- <-]. auto.
    + intros H. contradiction.
    + intros other Hk. destruct (cacheKey_inj _ _ Hk) as [Hurl Hu].
      split; [exact Hurl|]. intros u1 u2 E1 E2 H1 H2.
      rewrite E1, E2 in Hu. apply user_part_inj; assumption.
  - split; [|split; [|split]]; try discriminate; [reflexivity|].
    intros other Hk. destruct (cacheKey_inj _ _ Hk) as [Hurl Hu].
    split; [exact Hurl|]. intros u1 u2 E1 E2 H1 H2.
    rewrite E1, E2 in Hu. apply user_part_inj; assumption.
Qed.

Lemma cache_key_is_per_user_and_url_witness :
  cacheKey sample_request = "cache:/api/v1/notes:1"%string
  /\ cacheMiddleware (fun s => Some s) (fun _ => Some None) 300
                     sample_request
                     (Some (mkRedis true (Some tt) (fun _ => None)
                                    (fun _ => None)))
     = PassedOn (Some ("cache:/api/v1/notes:1"%string, 300))
  /\ cacheMiddleware (fun s => Some s) (fun _ => Some None) 300
                     (Req.make "POST" "/api/v1/notes" (Some 1))
                     (Some (mkRedis true (Some tt) (fun _ => None)
                                    (fun _ => None)))
     = PassedOn None.
Proof.
  split; [reflexivity|]. split; [reflexivity|].
  destruct (cache_key_is_per_user_and_url string (fun s => Some s)
              (fun _ => Some None) 300
              (Req.make "POST" "/api/v1/notes" (Some 1))
              (Some (mkRedis true (Some tt) (fun _ => None) (fun _ => None))))
    as (_ & _ & H & _).
  apply H. discriminate.
Defined.

(** X18.  The pattern every write of the service invalidates for a user,
    cache:/api/v1/notes*:<id>, the star matching any run of characters,
    matches the cache key of a request exactly when the request is from that
    very user, with an id that is not 0, and its URL begins with
    /api/v1/notes.  So it never matches an entry of another user or of an
    anonymous caller, nor an entry of a URL under another prefix.  The
    routes of the notes are mounted under /api and then /notes, so that the
    URL of every request they serve begins with /api/notes, in whichever
    case of the letters: the pattern matches the cache key of none of
    them, whoever the user. *)
Theorem invalidation_reaches_the_users_note_keys :
  forall req userId,
    notes_cache_pattern userId
    = ("cache:/api/v1/notes" ++ "*"
       ++ ":" ++ NilZero.string_of_int (Z.to_int userId))%string
    /\ (star_matches "cache:/api/v1/notes"
                     (":" ++ NilZero.string_of_int (Z.to_int userId))
                     (cacheKey req)
        <-> Req.user req = Some userId /\ userId <> 0
            /\ exists rest,
                 Req.originalUrl req = ("/api/v1/notes" ++ rest)%string)
    /\ (under_note_routes (Req.originalUrl req) ->
        ~ star_matches "cache:/api/v1/notes"
                       (":" ++ NilZero.string_of_int (Z.to_int userId))
                       (cacheKey req)).
Proof.
  intros req userId. split; [reflexivity|].
  assert (Hiff : star_matches "cache:/api/v1/notes"
                   (":" ++ NilZero.string_of_int (Z.to_int userId))
                   (cacheKey req)
                 <-> Req.user req = Some userId /\ userId <> 0
                     /\ exists rest,
                          Req.originalUrl req
                          = ("/api/v1/notes" ++ rest)%string).
  { unfold star_matches, cacheKey. split.
    - intros (middle & H). simpl in H. injection H as H.
      change (Req.originalUrl req ++ ":" ++ user_part (Req.user req)
              = "/api/v1/notes"
                ++ (middle
                    ++ ":" ++ NilZero.string_of_int (Z.to_int userId)))%string
        in H.
      rewrite <- (string_app_assoc "/api/v1/notes" middle) in H.
      apply split_at_last_colon in H;
        auto using colon_free_user_part, colon_free_id.
      destruct H as [Hurl Hu].
      assert (Huser : Req.user req = Some userId /\ userId <> 0).
      { destruct (Req.user req) as [z|]; unfold user_part in Hu.
        - destruct (Z.eqb_spec z 0) as [E|Hz].
          + symmetry in Hu. apply id_string_not_anonymous in Hu.
            contradiction.
          + apply id_string_inj in Hu. subst z.
            split; [reflexivity | exact Hz].
        - symmetry in Hu. apply id_string_not_anonymous in Hu.
          contradiction. }
      split; [tauto|]. split; [tauto|]. exists middle. exact Hurl.
    - intros (Hu & Hz & rest & Hurl). exists rest. rewrite Hurl, Hu.
      unfold user_part. apply Z.eqb_neq in Hz. rewrite Hz.
      rewrite string_app_assoc. reflexivity. }
  split; [exact Hiff|].
  intros (mounts & rest & Hurl & Hlow) Hm.
  apply Hiff in Hm. destruct Hm as (_ & _ & rest' & Hurl').
  rewrite Hurl in Hurl'.
  change (api_mount ++ notes_mount)%string with "/api/notes"%string in Hlow.
  do 5 (destruct mounts as [|? mounts]; [discriminate Hlow|];
        cbn [lower_case] in Hlow; injection Hlow as _ Hlow;
        cbn [append] in Hurl'; injection Hurl' as _ Hurl').
  destruct mounts as [|c mounts]; [discriminate Hlow|].
  cbn [lower_case] in Hlow. injection Hlow as Hc _.
  cbn [append] in Hurl'. injection Hurl' as Hv _.
  subst c. vm_compute in Hc. discriminate Hc.
Qed.

Lemma invalidation_reaches_the_users_note_keys_witness :
  star_matches "cache:/api/v1/notes" ":1" (cacheKey sample_request)
  /\ ~ star_matches "cache:/api/v1/notes" ":1"
         (cacheKey (Req.make "GET" "/api/v1/notes/1" (Some 11)))
  /\ ~ star_matches "cache:/api/v1/notes" ":1"
         (cacheKey (Req.make "GET" "/api/notes/1" (Some 1))).
Proof.
  split; [|split].
  - apply (proj1 (proj2 (invalidation_reaches_the_users_note_keys
                           sample_request 1))).
    split; [reflexivity|]. split; [discriminate|].
    exists ""%string. reflexivity.
  - intros E.
    apply (proj1 (proj2 (invalidation_reaches_the_users_note_keys
                           (Req.make "GET" "/api/v1/notes/1" (Some 11)) 1)))
      in E.
    destruct E as [E _]. discriminate.
  - apply (proj2 (proj2 (invalidation_reaches_the_users_note_keys
                           (Req.make "GET" "/api/notes/1" (Some 1)) 1))).
    exists "/api/notes"%string, "/1"%string. split; reflexivity.
Defined.

(** ** The handlers of the note controller *)

Lemma try_catch_run (A B : Type) (service : M A) (k : A -> Reply B)
    (handler : string -> M (Reply B)) w :
  try_catch (a <- service ;; ret (k a)) handler w
  = match service w with
    | (Ok a, w') => (Ok (k a), w')
    | (Throw message, w') => handler message w'
    end.
Proof.
  unfold try_catch, bind, ret. destruct (service w) as [[a|m] w']; reflexivity.
Qed.

Ltac in_table :=
  eexists; split; [|reflexivity]; simpl; auto 6.

Ltac handler_run E :=
  unfold run in *; rewrite try_catch_run, E;
  first [reflexivity | left; in_table].

(* the message is none of the table: the handler answers 500 *)
Ltac refused_by_database :=
  right; split;
  [ let status := fresh "status" in
    let Hin := fresh "Hin" in
    intros status Hin; vm_compute in Hin;
    repeat (destruct Hin as [Hin|Hin]; [discriminate Hin|]);
    exact Hin
  | reflexivity ].

Lemma Note_create_error_messages userId title content d message :
  Note_create_error userId title content d = Some message ->
  In message [SequelizeValidationError "notEmpty" "title";
              ER_DATA_TOO_LONG "title"; ER_DATA_TOO_LONG "content";
              ER_NO_REFERENCED_ROW].
Proof.
  unfold Note_create_error.
  destruct (notEmpty title), (fits 255 title), (fits_text content),
    (User_findByPk userId d); simpl; intros [= <-]; auto.
Qed.

Lemma Note_save_error_messages previous note message :
  Note_save_error previous note = Some message ->
  In message [SequelizeValidationError "notEmpty" "title";
              ER_DATA_TOO_LONG "title"; ER_DATA_TOO_LONG "content"].
Proof.
  unfold Note_save_error.
  destruct (negb (String.eqb (Note.title note) (Note.title previous))),
    (negb (String.eqb (Note.content note) (Note.content previous))),
    (notEmpty (Note.title note)), (fits 255 (Note.title note)),
    (fits_text (Note.content note)); simpl; intros [= <-]; auto.
Qed.

Lemma NoteAttachment_create_error_messages file message :
  NoteAttachment_create_error file = Some message ->
  In message [ER_DATA_TOO_LONG "filename";
              ER_DATA_TOO_LONG "originalFilename";
              ER_DATA_TOO_LONG "mimeType";
              ER_WARN_DATA_OUT_OF_RANGE "fileSize";
              ER_DATA_TOO_LONG "filePath"].
Proof.
  unfold NoteAttachment_create_error.
  destruct (fits 255 (File.filename file)),
    (fits 255 (File.originalname file)), (fits 100 (File.mimetype file)),
    (fits_int (File.size file)), (fits 500 (File.path file)); simpl;
    intros [= <-]; auto 6.
Qed.

(** X19.  Every handler of the note controller sends what its service
    method returns, with status 200, or 201 for a creation, and recognises
    every error the service throws by itself: the conflict of an update is
    answered 409, a note that is missing or not permitted 404 (400 for a
    share, like the unknown user and the share with oneself), an unknown
    version 404, each with the message of the service as the error.  Any
    other error, that is, a row the model or the database refuses (a title
    that is blank or too long, a content or the description of a file that
    does not fit its column, a note for a user that does not exist), is
    answered 500 with the text of the handler as the error and the message
    in the details.  The handler itself never throws, and leaves the world
    as the service left it. *)
Theorem handlers_recognise_every_service_error :
  (forall userId title content,
     maps_errors (noteController.createNote userId title content)
                 (createNote userId title content) 201 []
                 "Failed to create note")
  /\ (forall userId,
        maps_errors (noteController.getAllNotes userId)
                    (getAllNotes userId) 200 []
                    "Failed to retrieve notes")
  /\ (forall id userId,
        maps_errors (noteController.getNoteById id userId)
                    (getNoteById id userId) 200
                    [("Note not found or access denied"%string, 404)]
                    "Failed to retrieve note")
  /\ (forall id userId title content version,
        version <> 0 ->
        maps_errors
          (noteController.updateNote id userId title content (Some version))
          (updateNote id userId title content version) 200
          [(version_conflict_message, 409);
           ("Note not found"%string, 404);
           ("Permission denied"%string, 404)]
          "Failed to update note")
  /\ (forall id userId,
        maps_errors (noteController.deleteNote id userId)
                    (deleteNote id userId) 200
                    [("Note not found or permission denied"%string, 404)]
                    "Failed to delete note")
  /\ (forall id userId version,
        version <> 0 ->
        maps_errors (noteController.revertToVersion id userId (Some version))
                    (revertToVersion id userId version) 200
                    [("Note not found or permission denied"%string, 404);
                     ("Version not found"%string, 404)]
                    "Failed to revert note")
  /\ (forall id userId sharedWithUserId permission,
        sharedWithUserId <> 0 ->
        maps_errors
          (noteController.shareNote id userId (Some sharedWithUserId)
                                    permission)
          (shareNote id userId sharedWithUserId permission) 200
          [("Note not found or permission denied"%string, 400);
           ("User not found"%string, 400);
           ("Cannot share note with yourself"%string, 400)]
          "Failed to share note")
  /\ (forall id userId file,
        maps_errors (noteController.addAttachment id userId (Some file))
                    (addAttachment id userId file) 201
                    [("Note not found or permission denied"%string, 404)]
                    "Failed to add attachment").
Proof.
  split; [|split; [|split; [|split; [|split; [|split; [|split]]]]]].
  - intros userId title content w.
    unfold noteController.createNote.
    destruct (createNote_cases userId title content w)
      as [(m & He & E)|(_ & E)]; [|handler_run E].
    unfold run in *. rewrite try_catch_run, E.
    apply Note_create_error_messages in He. simpl in He.
    destruct He as [<-|[<-|[<-|[<-|[]]]]]; refused_by_database.
  - intros userId w. reflexivity.
  - intros id userId w. unfold noteController.getNoteById.
    destruct (getNoteById_cases id userId w) as [E|(n & _ & _ & _ & E)];
      handler_run E.
  - intros id userId title content version Hv w.
    apply Z.eqb_neq in Hv.
    unfold noteController.updateNote. rewrite Hv.
    destruct (live_note id (db w)) as [n|] eqn:Hn.
    + destruct (may_update (db w) n userId) eqn:Hp.
      * destruct (Z.eq_dec (Note.version n) version) as [<-|Hne].
        -- destruct (Note_save_error n
                       (Note.make (Note.id n) (Note.userId n) title content
                                  (Note.version n + 1) (Note.deletedAt n)
                                  (Note.createdAt n))) as [m|] eqn:Hs.
           ++ pose proof (updateNote_refused id userId title content w n m
                            Hn Hp Hs) as E.
              unfold run in *. rewrite try_catch_run, E.
              apply Note_save_error_messages in Hs. simpl in Hs.
              destruct Hs as [<-|[<-|[<-|[]]]]; refused_by_database.
           ++ pose proof (updateNote_ok id userId title content w n Hn Hp Hs)
                as E.
              handler_run E.
        -- pose proof (updateNote_conflict id userId title content version
                         w n Hn Hp Hne) as E.
           handler_run E.
      * pose proof (updateNote_denied id userId title content version
                      w n Hn Hp) as E.
        handler_run E.
    + pose proof (updateNote_not_found id userId title content version
                    w Hn) as E.
      handler_run E.
  - intros id userId w. unfold noteController.deleteNote.
    destruct (owned_note id userId (db w)) as [n|] eqn:Hown.
    + pose proof (deleteNote_ok _ _ _ _ Hown) as E. handler_run E.
    + pose proof (deleteNote_denied _ _ _ Hown) as E. handler_run E.
  - intros id userId version Hv w.
    apply Z.eqb_neq in Hv.
    unfold noteController.revertToVersion. rewrite Hv.
    destruct (owned_note id userId (db w)) as [n|] eqn:Hn.
    + destruct (version_record id version (db w)) as [tv|] eqn:Htv.
      * destruct (Note_save_error n
                    (Note.make (Note.id n) (Note.userId n)
                               (NoteVersion.title tv) (NoteVersion.content tv)
                               (Note.version n + 1) (Note.deletedAt n)
                               (Note.createdAt n))) as [m|] eqn:Hs.
        -- pose proof (revert_refused id userId version w n tv m Hn Htv Hs)
             as E.
           unfold run in *. rewrite try_catch_run, E.
           apply Note_save_error_messages in Hs. simpl in Hs.
           destruct Hs as [<-|[<-|[<-|[]]]]; refused_by_database.
        -- pose proof (revert_ok id userId version w n tv Hn Htv Hs) as E.
           handler_run E.
      * pose proof (revert_version_not_found id userId version w n Hn Htv)
          as E.
        handler_run E.
    + pose proof (revert_denied id userId version w Hn) as E.
      handler_run E.
  - intros id userId sharedWithUserId permission Hs w.
    apply Z.eqb_neq in Hs.
    unfold noteController.shareNote. rewrite Hs.
    destruct (Z.eq_dec userId sharedWithUserId) as [Heq|Hne].
    + subst sharedWithUserId.
      pose proof (shareNote_self id userId permission w) as E.
      handler_run E.
    + destruct (owned_note id userId (db w)) as [n|] eqn:Hown.
      * destruct (User_findByPk sharedWithUserId (db w)) as [u|] eqn:Hu.
        -- destruct (shareNote_ok id userId sharedWithUserId permission
                       w n u Hne Hown Hu) as (share & E & _).
           handler_run E.
        -- pose proof (shareNote_no_user id userId sharedWithUserId
                         permission w n Hne Hown Hu) as E.
           handler_run E.
      * pose proof (shareNote_denied id userId sharedWithUserId permission
                      w Hne Hown) as E.
        handler_run E.
  - intros id userId file w. unfold noteController.addAttachment.
    unfold run. rewrite try_catch_run.
    unfold addAttachment, NoteAttachment_create. unfold_monad.
    destruct (Note_findOne _ (db w)); [|left; in_table].
    destruct (NoteAttachment_create_error file) as [m|] eqn:He.
    + apply NoteAttachment_create_error_messages in He. simpl in He.
      destruct He as [<-|[<-|[<-|[<-|[<-|[]]]]]]; refused_by_database.
    + rewrite invalidateCache_total. reflexivity.
Qed.

Lemma handlers_recognise_every_service_error_witness :
  run (noteController.updateNote 1 1 "Fence" "second draft" (Some 7))
      sample_world
  = (Ok (Failure 409 version_conflict_message None), rolled_back sample_world)
  /\ run (noteController.updateNote 1 1 " " "second draft" (Some 1))
         sample_world
     = (Ok (Failure 500 "Failed to update note"
                    (Some (SequelizeValidationError "notEmpty" "title"))),
        rolled_back sample_world).
Proof.
  destruct handlers_recognise_every_service_error
    as (_ & _ & _ & Hupdate & _).
  split.
  - assert (Hv : 7 <> 0) by lia.
    pose proof (Hupdate 1 1 "Fence"%string "second draft"%string 7 Hv
                        sample_world) as H.
    assert (Hrun : run (updateNote 1 1 "Fence" "second draft" 7) sample_world
                   = (Throw version_conflict_message,
                      rolled_back sample_world))
      by (vm_compute; reflexivity).
    rewrite Hrun in H. destruct H as [(status & Hin & H)|(Hnot & _)].
    + simpl in Hin.
      destruct Hin as [Hin|[Hin|[Hin|[]]]].
      * injection Hin as <-. exact H.
      * vm_compute in Hin. discriminate.
      * vm_compute in Hin. discriminate.
    + exfalso. apply (Hnot 409). left. reflexivity.
  - assert (Hv : 1 <> 0) by lia.
    pose proof (Hupdate 1 1 " "%string "second draft"%string 1 Hv
                        sample_world) as H.
    assert (Hrun : run (updateNote 1 1 " " "second draft" 1) sample_world
                   = (Throw (SequelizeValidationError "notEmpty" "title"),
                      rolled_back sample_world))
      by (vm_compute; reflexivity).
    rewrite Hrun in H. destruct H as [(status & Hin & _)|(_ & H)].
    + exfalso. vm_compute in Hin.
      repeat (destruct Hin as [Hin|Hin]; [discriminate Hin|]). exact Hin.
    + exact H.
Defined.

(** ** The keywords of a search *)

Lemma substring_length n s : (String.length (substring 0 n s) <= n)%nat.
Proof.
  revert s. induction n as [|n IH]; intros [|c s]; simpl; try lia.
  specialize (IH s). lia.
Qed.

Lemma substring_In n s c :
  In c (list_ascii_of_string (substring 0 n s)) ->
  In c (list_ascii_of_string s).
Proof.
  revert s. induction n as [|n IH]; intros [|c' s]; simpl; try tauto.
  intros [H|H]; [left; exact H | right; apply IH; exact H].
Qed.

Lemma remove_sql_chars_In s c :
  In c (list_ascii_of_string (remove_sql_chars s)) ->
  sql_char c = false /\ In c (list_ascii_of_string s).
Proof.
  induction s as [|c' s IH]; simpl; [tauto|].
  destruct (sql_char c') eqn:E; simpl.
  - intros H. destruct (IH H). auto.
  - intros [<-|H]; [auto|]. destruct (IH H). auto.
Qed.

Lemma trimStart_In s c :
  In c (list_ascii_of_string (trimStart s)) -> In c (list_ascii_of_string s).
Proof.
  induction s as [|c' s IH]; simpl; [tauto|].
  destruct (is_white c'); simpl; auto.
Qed.

Lemma trimEnd_In s c :
  In c (list_ascii_of_string (trimEnd s)) -> In c (list_ascii_of_string s).
Proof.
  induction s as [|c' s IH]; simpl; [tauto|].
  destruct (trimEnd s) as [|c'' t]; simpl in *.
  - destruct (is_white c'); simpl; tauto.
  - intros [H|H]; [left; exact H | right; apply IH; exact H].
Qed.

Lemma sanitize_In k c :
  In c (list_ascii_of_string (sanitize k)) ->
  sql_char c = false /\ In c (list_ascii_of_string k).
Proof.
  unfold sanitize, trim. intros H. apply substring_In in H.
  apply remove_sql_chars_In in H. destruct H as [Hc H].
  split; [exact Hc|]. apply trimStart_In, trimEnd_In. exact H.
Qed.

Lemma literal_body_plain s :
  (forall c, In c (list_ascii_of_string s) -> sql_char c = false) ->
  literal_body s = true.
Proof.
  induction s as [|c s IH]; intros H; [reflexivity|].
  assert (Hc : sql_char c = false) by (apply H; left; reflexivity).
  assert (Hs : literal_body s = true)
    by (apply IH; intros c' Hc'; apply H; right; exact Hc').
  unfold sql_char in Hc. cbn [literal_body].
  destruct (N.eqb_spec (N_of_ascii c) 92) as [E|_];
    [rewrite E in Hc; discriminate|].
  destruct (N.eqb_spec (N_of_ascii c) 39) as [E|_];
    [rewrite E in Hc; discriminate|].
  exact Hs.
Qed.

Lemma sanitize_literal_body k : literal_body (sanitize k) = true.
Proof.
  apply literal_body_plain. intros c Hc. apply (sanitize_In k c Hc).
Qed.

Lemma is_empty_spec s : is_empty s = true <-> s = ""%string.
Proof. destruct s; simpl; split; intros; congruence. Qed.

(** X20.  The search handler answers 400 without calling the service when
    no keywords are given or nothing is left of them once sanitized.
    Otherwise the service is called with the sanitized keywords and with
    nothing else: they are not empty, at most 255 characters long, made of
    characters of the keywords given, and contain no single quote, double
    quote, semicolon or backslash; the answer is the list the service
    returns together with its length.  The handler changes nothing. *)
Theorem search_keywords_are_sanitized :
  forall keyword_match userId keywords w,
    (exists error,
       run (noteController.searchNotes keyword_match userId keywords) w
       = (Ok (Failure 400 error None), w)
       /\ (keywords = None
           \/ exists k, keywords = Some k /\ sanitize k = ""%string))
    \/ (exists k notes,
          keywords = Some k
          /\ sanitize k <> ""%string
          /\ (String.length (sanitize k) <= 255)%nat
          /\ (forall c, In c (list_ascii_of_string (sanitize k)) ->
                        sql_char c = false
                        /\ In c (list_ascii_of_string k))
          /\ run (searchNotesByKeywords keyword_match userId (sanitize k)) w
             = (Ok notes, w)
          /\ run (noteController.searchNotes keyword_match userId keywords) w
             = (Ok (Answer 200 (notes, Z.of_nat (List.length notes))), w)).
Proof.
  intros keyword_match userId keywords w.
  unfold noteController.searchNotes.
  destruct keywords as [k|].
  - destruct (is_empty k) eqn:Hk.
    + left. eexists. split; [reflexivity|]. right. exists k.
      apply is_empty_spec in Hk. subst k. split; reflexivity.
    + destruct (is_empty (sanitize k)) eqn:Hs.
      * left. eexists. split.
        -- reflexivity.
        -- right. exists k. apply is_empty_spec in Hs. auto.
      * right. exists k. eexists.
        split; [reflexivity|].
        split; [intros E; apply is_empty_spec in E; congruence|].
        split; [apply substring_length|].
        split; [intros c; apply sanitize_In|].
        split; [apply search_run, sanitize_literal_body|].
        unfold run, try_catch, bind, ret.
        pose proof (search_run keyword_match userId (sanitize k) w
                      (sanitize_literal_body k)) as E.
        unfold run in E. rewrite E. rewrite length_map. reflexivity.
  - left. eexists. split; [reflexivity|]. left. reflexivity.
Qed.
